(** * News harvester: queue consumer, RSS scheduler, crawl paths, credential loop

    A shallow embedding of the job-distribution core of the harvester
    (core/sqs_consumer.py, harvester/app/message_processor.py,
    harvester/app/rss_processor.py, harvester/app/crawler.py,
    harvester/app/bedrock_token.py) together with the properties that the
    design document states about it.

    Conventions.  A Python [str] is a [string]; since a Rocq [string] is a
    sequence of bytes it stands for the UTF-8 encoding that [str.encode()]
    produces.  A [dict] with string keys is a [gmap string _], a [set] is a
    [gset _].  A queue message body is represented by the value that
    [json.loads] yields for it, and a body handed to [send_message] by the
    value that was passed to [json.dumps]. *)

From Stdlib Require Import ZArith List String Ascii Bool Lia.
From Stdlib Require Import QArith Qround.
From Stdlib Require Import DecimalString.
From Stdlib Require Floats.SpecFloat.
From stdpp Require Import base decidable countable gmap strings list.

Import ListNotations.
Local Open Scope string_scope.
Local Open Scope list_scope.

(* ===================================================================== *)
(** ** hashlib.md5 (RFC 1321)

    The source names jobs and directories after
    [hashlib.md5(url.encode()).hexdigest()[-8:]].  The digest is computed
    here, so that identifiers and paths can be evaluated. *)
(* ===================================================================== *)

Module MD5.
Local Open Scope Z_scope.

Definition w32 (x : Z) : Z := x mod 2 ^ 32.

Definition rotl (x c : Z) : Z :=
  w32 (Z.lor (Z.shiftl x c) (Z.shiftr x (32 - c))).

Definition lnot32 (x : Z) : Z := Z.lxor x 0xffffffff.

Definition K : list Z :=
  [ 0xd76aa478; 0xe8c7b756; 0x242070db; 0xc1bdceee;
    0xf57c0faf; 0x4787c62a; 0xa8304613; 0xfd469501;
    0x698098d8; 0x8b44f7af; 0xffff5bb1; 0x895cd7be;
    0x6b901122; 0xfd987193; 0xa679438e; 0x49b40821;
    0xf61e2562; 0xc040b340; 0x265e5a51; 0xe9b6c7aa;
    0xd62f105d; 0x02441453; 0xd8a1e681; 0xe7d3fbc8;
    0x21e1cde6; 0xc33707d6; 0xf4d50d87; 0x455a14ed;
    0xa9e3e905; 0xfcefa3f8; 0x676f02d9; 0x8d2a4c8a;
    0xfffa3942; 0x8771f681; 0x6d9d6122; 0xfde5380c;
    0xa4beea44; 0x4bdecfa9; 0xf6bb4b60; 0xbebfbc70;
    0x289b7ec6; 0xeaa127fa; 0xd4ef3085; 0x04881d05;
    0xd9d4d039; 0xe6db99e5; 0x1fa27cf8; 0xc4ac5665;
    0xf4292244; 0x432aff97; 0xab9423a7; 0xfc93a039;
    0x655b59c3; 0x8f0ccc92; 0xffeff47d; 0x85845dd1;
    0x6fa87e4f; 0xfe2ce6e0; 0xa3014314; 0x4e0811a1;
    0xf7537e82; 0xbd3af235; 0x2ad7d2bb; 0xeb86d391 ].

Definition S : list Z :=
  [ 7; 12; 17; 22; 7; 12; 17; 22; 7; 12; 17; 22; 7; 12; 17; 22;
    5;  9; 14; 20; 5;  9; 14; 20; 5;  9; 14; 20; 5;  9; 14; 20;
    4; 11; 16; 23; 4; 11; 16; 23; 4; 11; 16; 23; 4; 11; 16; 23;
    6; 10; 15; 21; 6; 10; 15; 21; 6; 10; 15; 21; 6; 10; 15; 21 ].

Definition bytes_of_string (s : string) : list Z :=
  map (fun a => Z.of_N (N_of_ascii a)) (list_ascii_of_string s).

(** little-endian bytes of a word of [n] bytes *)
Fixpoint le_bytes (n : nat) (x : Z) : list Z :=
  match n with
  | O => []
  | Datatypes.S n' => (x mod 256) :: le_bytes n' (x / 256)
  end.

Definition pad (msg : list Z) : list Z :=
  let len := Z.of_nat (length msg) in
  msg ++ [0x80] ++ repeat 0 (Z.to_nat ((55 - len) mod 64))
      ++ le_bytes 8 ((8 * len) mod 2 ^ 64).

Fixpoint le_word (bs : list Z) : Z :=
  match bs with
  | [] => 0
  | b :: bs' => b + 256 * le_word bs'
  end.

(** cut a list into pieces of [n] elements; [fuel] bounds the number of pieces *)
Fixpoint chunks {A} (fuel n : nat) (l : list A) : list (list A) :=
  match fuel with
  | O => []
  | Datatypes.S fuel' =>
      match l with
      | [] => []
      | _ => firstn n l :: chunks fuel' n (skipn n l)
      end
  end.

Definition words_of_block (block : list Z) : list Z :=
  map le_word (chunks 16 4 block).

Record state := St { sa : Z; sb : Z; sc : Z; sd : Z }.

Definition init : state :=
  St 0x67452301 0xefcdab89 0x98badcfe 0x10325476.

Definition step (M : list Z) (st : state) (i : nat) : state :=
  let '(St a b c d) := st in
  let iz := Z.of_nat i in
  let '(f, g) :=
    if iz <? 16 then
      (Z.lor (Z.land b c) (Z.land (lnot32 b) d), iz)
    else if iz <? 32 then
      (Z.lor (Z.land d b) (Z.land (lnot32 d) c), (5 * iz + 1) mod 16)
    else if iz <? 48 then
      (Z.lxor (Z.lxor b c) d, (3 * iz + 5) mod 16)
    else
      (Z.lxor c (Z.lor b (lnot32 d)), (7 * iz) mod 16) in
  let f' := w32 (f + a + nth i K 0 + nth (Z.to_nat g) M 0) in
  St d (w32 (b + rotl f' (nth i S 0))) b c.

Definition compress (st : state) (block : list Z) : state :=
  let M := words_of_block block in
  let '(St a b c d) := fold_left (step M) (seq 0 64) st in
  St (w32 (sa st + a)) (w32 (sb st + b)) (w32 (sc st + c)) (w32 (sd st + d)).

Definition digest_state (msg : list Z) : state :=
  let p := pad msg in
  fold_left compress (chunks (length p) 64 p) init.

Definition digest (msg : list Z) : list Z :=
  let '(St a b c d) := digest_state msg in
  le_bytes 4 a ++ le_bytes 4 b ++ le_bytes 4 c ++ le_bytes 4 d.

Definition hexdigit (n : Z) : ascii :=
  nth (Z.to_nat (n mod 16))
      (list_ascii_of_string "0123456789abcdef") "0"%char.

Definition hex_of_byte (b : Z) : list ascii :=
  [hexdigit (b / 16); hexdigit b].

Definition hexdigest (s : string) : string :=
  string_of_list_ascii (flat_map hex_of_byte (digest (bytes_of_string s))).

End MD5.

(** [s[-n:]] *)
Definition last_chars (n : nat) (s : string) : string :=
  let l := list_ascii_of_string s in
  string_of_list_ascii (skipn (length l - n) l).

(** [hashlib.md5(url.encode()).hexdigest()[-8:]] *)
Definition url_hash8 (url : string) : string :=
  last_chars 8 (MD5.hexdigest url).

(** digits and lower-case letters *)
Definition alnum (c : ascii) : bool :=
  let n := N_of_ascii c in
  ((48 <=? n) && (n <=? 57) || (97 <=? n) && (n <=? 122))%N.

(** Number of elements of a list that satisfy a test. *)
Fixpoint count_if {A} (f : A -> bool) (l : list A) : nat :=
  match l with
  | [] => 0
  | x :: l' => (if f x then 1 else 0) + count_if f l'
  end.

(* ===================================================================== *)
(** ** Python values that occur in job envelopes

    [json.loads] of a queue body yields nested Python values.  Floats and
    nested objects do not occur in job envelopes and are left out. *)
(* ===================================================================== *)

#[warnings="-register-all"] Inductive pyval : Type :=
| PNone
| PBool (b : bool)
| PInt (n : Z)
| PStr (s : string)
| PList (l : list pyval).

(** [bool(v)] *)
Definition py_truthy (v : pyval) : bool :=
  match v with
  | PNone => false
  | PBool b => b
  | PInt n => negb (n =? 0)%Z
  | PStr s => negb (String.eqb s "")
  | PList l => match l with [] => false | _ => true end
  end.

(** [a or b] *)
Definition py_or (a b : pyval) : pyval := if py_truthy a then a else b.

(** [d.get(k)], which is [None] for a missing key *)
Definition py_get (d : gmap string pyval) (k : string) : pyval :=
  default PNone (d !! k).

(** The numeric value of an [int] or [bool] operand; [None] stands for the
    [TypeError] that [<] and [+] raise on the other values. *)
Definition py_int_value (v : pyval) : option Z :=
  match v with
  | PInt n => Some n
  | PBool b => Some (Z.b2z b)
  | _ => None
  end.

(** Members of a Python [set]: hashable values up to [==], under which
    [True == 1] and [False == 0]. *)
Inductive hkey : Type :=
| KNone
| KInt (n : Z)
| KStr (s : string).

#[global] Instance hkey_eq_dec : EqDecision hkey.
Proof. solve_decision. Defined.

Definition hkey_encode (k : hkey) : unit + (Z + string) :=
  match k with
  | KNone => inl tt
  | KInt n => inr (inl n)
  | KStr s => inr (inr s)
  end.

Definition hkey_decode (x : unit + (Z + string)) : hkey :=
  match x with
  | inl _ => KNone
  | inr (inl n) => KInt n
  | inr (inr s) => KStr s
  end.

#[global] Instance hkey_countable : Countable hkey.
Proof.
  refine (inj_countable' hkey_encode hkey_decode _).
  intros []; reflexivity.
Defined.

(** [hash(v)] succeeds except on lists. *)
Definition py_hash_key (v : pyval) : option hkey :=
  match v with
  | PNone => Some KNone
  | PBool b => Some (KInt (Z.b2z b))
  | PInt n => Some (KInt n)
  | PStr s => Some (KStr s)
  | PList _ => None
  end.

(** Exceptions that the modelled code raises or lets through.  All of them
    are subclasses of [Exception]. *)
Inductive exn : Type :=
| RetryableError
| NonRetryableError
| ValidationError      (* pydantic *)
| TypeError
| AdapterError.        (* botocore: a queue call failed *)

Inductive result : Type :=
| Returned
| Raised (e : exn).

(* ===================================================================== *)
(** ** core/models.py: CrawlRequest *)
(* ===================================================================== *)

Section CrawlRequest.

(** pydantic's own validators for [HttpUrl] and for a lax [bool]. *)
Variable valid_http_url : string -> bool.
Variable valid_bool : pyval -> bool.

Definition is_PStr (v : pyval) : bool :=
  match v with PStr _ => true | _ => false end.

(** [tags: List[str] | None = ["global","news"]] *)
Definition valid_tags (v : option pyval) : bool :=
  match v with
  | None => true
  | Some PNone => true
  | Some (PList l) => forallb is_PStr l
  | Some _ => false
  end.

(** [save_pdf: bool | None = True] *)
Definition valid_save_pdf (v : option pyval) : bool :=
  match v with
  | None => true
  | Some PNone => true
  | Some x => valid_bool x
  end.

(** [CrawlRequest.model_validate(body)] succeeds.  Fields that the model
    does not declare ([retry_count], [retry], [event_id], ...) are ignored. *)
Definition CrawlRequest_validate (body : gmap string pyval) : bool :=
  match body !! "type", body !! "url", body !! "id" with
  | Some (PStr t), Some (PStr u), Some (PStr _) =>
      (String.eqb t "crawl-single-url" || String.eqb t "crawl-rss")
      && valid_http_url u
      && valid_tags (body !! "tags")
      && valid_save_pdf (body !! "save_pdf")
  | _, _, _ => false
  end.

End CrawlRequest.

(** Concrete validators, used to evaluate the model on examples. *)
Definition http_url_ok (s : string) : bool :=
  String.prefix "http://" s || String.prefix "https://" s.

Definition lax_bool_ok (v : pyval) : bool :=
  match v with
  | PBool _ => true
  | PInt n => (n =? 0)%Z || (n =? 1)%Z
  | _ => false
  end.

(* ===================================================================== *)
(** ** harvester/app/message_processor.py *)
(* ===================================================================== *)

(** What [json.loads(msg["Body"])] does on the body of a message. *)
Inductive json_body : Type :=
| BadJson                                  (* JSONDecodeError *)
| JsonObject (d : gmap string pyval)
| JsonOther (v : pyval).                   (* valid JSON, not an object *)

(** The [ApproximateReceiveCount] attribute of a received message.  The
    provider reports a count, so a parsed numeral is a natural number. *)
Inductive receive_attr : Type :=
| AttrAbsent
| AttrCount (n : N)
| AttrInvalid.                             (* int() raises *)

Record message : Type := Message {
  MessageId : string;
  ReceiptHandle : string;
  Body : json_body;
  ApproximateReceiveCount : receive_attr;
  MessageAttributes : gmap string string
}.

(** Calls made on the queue adapter, and the hand-over to a handler. *)
Inductive effect : Type :=
| Dispatch (key : hkey) (payload : gmap string pyval)
| DeleteMessage (receipt_handle : string)
| SendMessage (body : gmap string pyval)
              (message_attributes : gmap string string) (delay_seconds : N)
| ChangeVisibility (receipt_handle : string) (visibility_timeout : N).

(** What the surroundings do during one [process_message]: whether the
    crawl inside the handler succeeds, and whether each adapter call
    returns or raises. *)
Record env : Type := Env {
  crawl_succeeds : bool;
  delete_ok : bool;
  send_ok : bool;
  visibility_ok : bool
}.

Definition adapter_result (ok : bool) : result :=
  if ok then Returned else Raised AdapterError.

(** [IdempotencyStore.claim] *)
Definition claim (seen : gset hkey) (event_id : hkey) : gset hkey * bool :=
  if decide (event_id ∈ seen) then (seen, false)
  else ({[event_id]} ∪ seen, true).

(** [get_receive_count] *)
Definition get_receive_count (msg : message) : N :=
  match ApproximateReceiveCount msg with
  | AttrAbsent => 1
  | AttrCount n => n
  | AttrInvalid => 1
  end%N.

(** [compute_backoff_seconds] *)
Definition compute_backoff_seconds (receive_count : N) : N :=
  N.min 900 (2 ^ N.min receive_count 8).

(** [event_id = body.get("id") or body.get("event_id") or msg["MessageId"]] *)
Definition envelope_key (body : gmap string pyval) (msg : message) : pyval :=
  py_or (py_get body "id")
        (py_or (py_get body "event_id") (PStr (MessageId msg))).

Section Consumer.

Variable valid_http_url : string -> bool.
Variable valid_bool : pyval -> bool.

Local Abbreviation validate :=
  (CrawlRequest_validate valid_http_url valid_bool).

(** [handle_crawl_single_url].  The [try] block validates the payload,
    fetches the application object and crawls under the semaphore; any failure
    there lands in the [except Exception] clause.  The payload is the very
    dict that [process_message] parsed, so the updated dict is returned
    next to the outcome. *)
Definition handle_crawl_single_url
    (payload : gmap string pyval) (crawl_ok : bool)
  : gmap string pyval * result :=
  if validate payload && crawl_ok then (payload, Returned)
  else
    match py_int_value (default (PInt 0) (payload !! "retry_count")) with
    | None => (payload, Raised TypeError)
    | Some retry_count =>
        if (retry_count <? 1)%Z then
          (<["retry" := PBool true]>
             (<["retry_count" := PInt (retry_count + 1)]> payload),
           Raised RetryableError)
        else (payload, Raised NonRetryableError)
    end.

(** The [except RetryableError] clause of [process_message]. *)
Definition requeue (msg : message) (body : gmap string pyval) (e : env)
  : list effect * result :=
  let rc := get_receive_count msg in
  let delay := compute_backoff_seconds rc in
  let fallback :=
    ([ChangeVisibility (ReceiptHandle msg) delay],
     adapter_result (visibility_ok e)) in
  if delete_ok e then
    if send_ok e then
      ([DeleteMessage (ReceiptHandle msg);
        SendMessage body (MessageAttributes msg) delay], Returned)
    else
      ([DeleteMessage (ReceiptHandle msg);
        SendMessage body (MessageAttributes msg) delay] ++ fst fallback,
       snd fallback)
  else
    (DeleteMessage (ReceiptHandle msg) :: fst fallback, snd fallback).

(** [self.handlers]: the handlers by message type. *)
Definition handlers
  : gmap string (gmap string pyval -> bool -> gmap string pyval * result) :=
  {[ "crawl-single-url" := handle_crawl_single_url ]}.

(** [self.handlers.get(body.get("type"))] *)
Definition lookup_handler (event_type : pyval)
  : option (gmap string pyval -> bool -> gmap string pyval * result) :=
  match event_type with
  | PStr t => handlers !! t
  | _ => None
  end.

(** The [try] statement around [await handler(body)]: what is done once
    the handler has returned or raised.  [hr] is the payload as the handler
    left it, with the handler's outcome. *)
Definition after_handler
    (msg : message) (e : env) (hr : gmap string pyval * result)
  : list effect * result :=
  match hr.2 with
  | Returned =>
      ([DeleteMessage (ReceiptHandle msg)], adapter_result (delete_ok e))
  | Raised RetryableError => requeue msg hr.1 e
  | Raised NonRetryableError => ([], Returned)
  | Raised x => ([], Raised x)
  end.

(** How one [process_message] ends: the idempotency set afterwards, the
    calls made in order, and whether the coroutine returns or raises. *)
Record outcome : Type := Outcome {
  seen_after : gset hkey;
  effects : list effect;
  ended : result
}.

(** [process_message] *)
Definition process_message (seen : gset hkey) (msg : message) (e : env)
  : outcome :=
  match Body msg with
  | BadJson => Outcome seen [] Returned
  | JsonOther _ => Outcome seen [] (Raised ValidationError)
  | JsonObject body =>
      if negb (validate body) then Outcome seen [] (Raised ValidationError)
      else
        match py_hash_key (envelope_key body msg) with
        | None => Outcome seen [] (Raised TypeError)
        | Some event_id =>
            let '(seen', fresh) := claim seen event_id in
            if negb fresh then
              Outcome seen' [DeleteMessage (ReceiptHandle msg)]
                      (adapter_result (delete_ok e))
            else
              match lookup_handler (py_get body "type") with
              | None => Outcome seen' [] (Raised NonRetryableError)
              | Some handler =>
                  let '(effs, r) :=
                    after_handler msg e (handler body (crawl_succeeds e)) in
                  Outcome seen' (Dispatch event_id body :: effs) r
              end
        end
  end.

(** A process lifetime: messages reach [claim] one after the other (the
    call contains no suspension point), each with its own surroundings.
    The result is the final idempotency set and all calls made. *)
Fixpoint consumer_run (seen : gset hkey) (inputs : list (message * env))
  : gset hkey * list effect :=
  match inputs with
  | [] => (seen, [])
  | (msg, e) :: rest =>
      let o := process_message seen msg e in
      let '(seen', effs) := consumer_run (seen_after o) rest in
      (seen', effects o ++ effs)
  end.

End Consumer.

Definition dispatched_keys (effs : list effect) : list hkey :=
  omap (fun x => match x with Dispatch k _ => Some k | _ => None end) effs.

Definition sent_bodies (effs : list effect) : list (gmap string pyval) :=
  omap (fun x => match x with SendMessage b _ _ => Some b | _ => None end) effs.

(** The bodies that reach the queue during one [process_message] in the
    surroundings [e]: [send_message] was called and it returned. *)
Definition reemitted (e : env) (effs : list effect)
  : list (gmap string pyval) :=
  if send_ok e then sent_bodies effs else [].

Definition deleted_handles (effs : list effect) : list string :=
  omap (fun x => match x with DeleteMessage r => Some r | _ => None end) effs.

(** The envelope key as the design document words it: "[envelope.id] if
    present, else the provider [message_id]", read once as "the field
    exists" and once as "the field is non-empty". *)
Definition documented_key_if_present
    (body : gmap string pyval) (msg : message) : pyval :=
  match body !! "id" with
  | Some v => v
  | None => PStr (MessageId msg)
  end.

Definition documented_key_if_nonempty
    (body : gmap string pyval) (msg : message) : pyval :=
  py_or (py_get body "id") (PStr (MessageId msg)).

(** Concrete envelopes, messages and surroundings. *)
Module Scenario.

Definition envelope (id : string) : gmap string pyval :=
  {[ "type" := PStr "crawl-single-url";
     "id" := PStr id;
     "url" := PStr "https://e.com/a";
     "save_pdf" := PBool false ]}.

Definition received (message_id receipt : string)
    (body : gmap string pyval) : message :=
  Message message_id receipt (JsonObject body) AttrAbsent ∅.

Definition healthy : env := Env true true true true.
Definition crawl_fails : env := Env false true true true.

(** the body that is re-sent after a first failure of [envelope id] *)
Definition requeued (id : string) : gmap string pyval :=
  <["retry" := PBool true]> (<["retry_count" := PInt 1]> (envelope id)).

End Scenario.

(* ===================================================================== *)
(** ** core/sqs_consumer.py: SQSConsumer._handle_message

    The coroutine is a nest of [try] statements.  It is modelled as a
    program that appends to a log of what it did and either completes or
    ends by raising.  [asyncio.CancelledError] derives from [BaseException]
    and is therefore not caught by [except Exception]. *)
(* ===================================================================== *)

Module HandleMessage.

Section Control.

(** instances of [Exception] *)
Variable E : Type.

Inductive raised : Type :=
| Exc (e : E)
| CancelledError.

Inductive completion : Type :=
| Normal
| Abrupt (r : raised).

Inductive hevent : Type :=
| StartHeartbeat
| Process
| CancelHeartbeat
| LogException (e : E)
| Release.

Definition prog : Type := list hevent -> list hevent * completion.

Definition skip : prog := fun log => (log, Normal).

Definition emit (ev : hevent) : prog := fun log => (log ++ [ev], Normal).

(** a suspension point, or a call, that ends as [c] *)
Definition ends (c : completion) : prog := fun log => (log, c).

Definition andthen (p q : prog) : prog :=
  fun log =>
    match p log with
    | (log', Normal) => q log'
    | (log', Abrupt r) => (log', Abrupt r)
    end.

(** [try: body finally: fin] *)
Definition try_finally (body fin : prog) : prog :=
  fun log =>
    let '(log1, c) := body log in
    match fin log1 with
    | (log2, Normal) => (log2, c)
    | (log2, Abrupt r) => (log2, Abrupt r)
    end.

(** [try: body except Exception as e: handler e] *)
Definition try_except_Exception (body : prog) (handler : E -> prog) : prog :=
  fun log =>
    match body log with
    | (log1, Abrupt (Exc e)) => handler e log1
    | other => other
    end.

(** [try: body except asyncio.CancelledError: pass] *)
Definition try_except_Cancelled (body : prog) : prog :=
  fun log =>
    match body log with
    | (log1, Abrupt CancelledError) => (log1, Normal)
    | other => other
    end.

(** The consumer's settings that [_handle_message] reads. *)
Record settings : Type := Settings {
  heartbeat_every : option Z;
  visibility_timeout : option Z
}.

(** [bool(x)] for an [Optional[int]] *)
Definition opt_truthy (x : option Z) : bool :=
  match x with
  | Some n => negb (n =? 0)%Z
  | None => false
  end.

(** What [await hb_task] raises after [hb_task.cancel()]: the cancellation,
    or the exception with which the heartbeat had already died. *)
Inductive heartbeat_end : Type :=
| HeartbeatCancelled
| HeartbeatFailed (e : E).

Definition await_heartbeat (hb : heartbeat_end) : prog :=
  match hb with
  | HeartbeatCancelled => ends (Abrupt CancelledError)
  | HeartbeatFailed e => ends (Abrupt (Exc e))
  end.

(** [_handle_message]; [process] is how [await self.process_func(msg)]
    ends. *)
Definition _handle_message
    (cfg : settings) (process : completion) (hb : heartbeat_end) : prog :=
  let hb_task :=
    opt_truthy (heartbeat_every cfg) && opt_truthy (visibility_timeout cfg) in
  try_finally
    (try_except_Exception
       (andthen
          (if hb_task then emit StartHeartbeat else skip)
          (try_finally
             (andthen (emit Process) (ends process))
             (if hb_task then
                andthen (emit CancelHeartbeat)
                        (try_except_Cancelled (await_heartbeat hb))
              else skip)))
       (fun e => emit (LogException e)))
    (emit Release).

Definition is_Release (ev : hevent) : bool :=
  match ev with Release => true | _ => false end.

Definition releases (log : list hevent) : nat := count_if is_Release log.

(** The receive loop takes a permit with [await self._sem.acquire()] and
    starts [_handle_message] as a task; the permits of the consumer's
    semaphore once that task has finished. *)
Definition permits_after_dispatch
    (permits : Z) (cfg : settings) (process : completion)
    (hb : heartbeat_end) : Z :=
  (permits - 1 + Z.of_nat (releases (_handle_message cfg process hb []).1))%Z.

End Control.

Arguments Exc {E} e.
Arguments CancelledError {E}.
Arguments Normal {E}.
Arguments Abrupt {E} r.
Arguments HeartbeatCancelled {E}.
Arguments HeartbeatFailed {E} e.
Arguments Release {E}.
Arguments StartHeartbeat {E}.
Arguments Process {E}.
Arguments CancelHeartbeat {E}.
Arguments LogException {E} e.

(** How the task ends when [process_func] is [process_message]. *)
Definition of_result (r : result) : completion exn :=
  match r with
  | Returned => Normal
  | Raised e => Abrupt (Exc e)
  end.

End HandleMessage.

(* ===================================================================== *)
(** ** The crawl semaphore: one extraction at a time

    [crawl_semaphore = asyncio.Semaphore(1)], and [crawl_urls] is called
    only inside [async with crawl_semaphore] in [handle_crawl_single_url].
    Handler tasks run interleaved; each is at one of the places below.  A
    step of the system is a step of one task. *)
(* ===================================================================== *)

Module CrawlSemaphore.

Inductive place : Type :=
| Entering        (* before [async with crawl_semaphore] *)
| Extracting      (* inside the block: [crawl_urls] is running *)
| Finished.       (* the block was left, by return or by exception *)

Record sem_state : Type := SemState {
  value : nat;              (* the semaphore's counter *)
  tasks : list place
}.

Definition initial : sem_state := SemState 1 [].

Inductive step : sem_state -> sem_state -> Prop :=
| step_spawn s :
    (* the consumer starts another handler task *)
    step s (SemState (value s) (tasks s ++ [Entering]))
| step_acquire s i :
    (* [__aenter__]: the counter is positive and is decremented;
       with counter 0 the task stays where it is *)
    tasks s !! i = Some Entering ->
    0 < value s ->
    step s (SemState (value s - 1) (<[i := Extracting]> (tasks s)))
| step_release s i :
    (* [__aexit__]: runs when [crawl_urls] returns and when it raises *)
    tasks s !! i = Some Extracting ->
    step s (SemState (value s + 1) (<[i := Finished]> (tasks s))).

Inductive reachable : sem_state -> Prop :=
| reachable_initial : reachable initial
| reachable_step s s' : reachable s -> step s s' -> reachable s'.

Definition is_Extracting (p : place) : bool :=
  match p with Extracting => true | _ => false end.

Definition extracting (s : sem_state) : nat :=
  count_if is_Extracting (tasks s).

End CrawlSemaphore.

(* ===================================================================== *)
(** ** harvester/app/bedrock_token.py *)
(* ===================================================================== *)

Module BedrockToken.

(** Python's [float] is IEEE 754 binary64: 53 bits of precision, and
    exponents below 1024. *)
Definition prec : Z := 53.
Definition emax : Z := 1024.

(** An [int] as an unrounded operand. *)
Definition exact_float (n : Z) : SpecFloat.spec_float :=
  match n with
  | Z0 => SpecFloat.S754_zero false
  | Zpos m => SpecFloat.S754_finite false m 0
  | Zneg m => SpecFloat.S754_finite true m 0
  end.

(** [float(n)]: the nearest [float], ties to even; infinite where Python
    raises [OverflowError]. *)
Definition float_of_int (n : Z) : SpecFloat.spec_float :=
  SpecFloat.binary_normalize prec emax n 0 false.

(** [a / b] for two [int]: the quotient, correctly rounded; infinite
    where Python raises [OverflowError]. *)
Definition int_true_div (a b : Z) : SpecFloat.spec_float :=
  SpecFloat.SFdiv prec emax (exact_float a) (exact_float b).

(** [math.floor(x)]; [None] where it raises (infinities and NaN). *)
Definition math_floor (x : SpecFloat.spec_float) : option Z :=
  match x with
  | SpecFloat.S754_zero _ => Some 0%Z
  | SpecFloat.S754_finite s m e =>
      let n := SpecFloat.cond_Zopp s (Zpos m) in
      Some (if (0 <=? e)%Z then n * 2 ^ e else n / 2 ^ (- e))%Z
  | _ => None
  end.

(** [REFRESH_SECONDS = math.floor(token_expiry - (token_expiry / 6))] for
    an [int] [token_expiry], in the arithmetic of the source: the division
    and the subtraction are those of [float].  [None]: the assignment
    raises. *)
Definition REFRESH_SECONDS (token_expiry : Z) : option Z :=
  math_floor
    (SpecFloat.SFsub prec emax (float_of_int token_expiry)
       (int_true_div token_expiry 6)).

(** The same formula, floor(expiry - expiry/6), in exact arithmetic, as
    the design document writes it. *)
Definition exact_refresh_seconds (token_expiry : Z) : Z :=
  Qfloor (inject_Z token_expiry - inject_Z token_expiry / 6)%Q.

(** A test over the integers [e, e + 1, ..., e + fuel - 1]. *)
Fixpoint all_from (f : Z -> bool) (fuel : nat) (e : Z) : bool :=
  match fuel with
  | O => true
  | S k => f e && all_from f k (e + 1)%Z
  end.

(** The two readings of the formula give the same number. *)
Definition readings_agree (token_expiry : Z) : bool :=
  match REFRESH_SECONDS token_expiry with
  | Some r => (r =? 5 * token_expiry / 6)%Z
  | None => false
  end.

(** [app.state.bedrock_api_token], the slot that readers look at, and the
    module global [BEDROCK_TOKEN]. *)
Record slots (token : Type) : Type := Slots {
  bedrock_api_token : option token;
  BEDROCK_TOKEN : option token
}.
Arguments Slots {token}.
Arguments bedrock_api_token {token}.
Arguments BEDROCK_TOKEN {token}.

(** [get_bedrock_token] of crawler.py, what a reader observes *)
Definition get_bedrock_token {token} (st : slots token) : option token :=
  bedrock_api_token st.

(** One turn of the loop in [BedrockToken._run].  [refresh_seconds] is the
    value of the module constant [REFRESH_SECONDS]; [refresh] is what
    [get_app()] followed by [provide_token()] gives: a token, or [None] when
    one of them raises.  The result is the new state and the argument of
    the [asyncio.sleep] that ends the turn. *)
Definition turn {token} (refresh_seconds : Z) (st : slots token)
    (refresh : option token) : slots token * Z :=
  match refresh with
  | Some t => (Slots (Some t) (Some t), refresh_seconds)
  | None => (st, 300%Z)
  end.

(** The loop, for as long as it is not cancelled: the state after the given
    refresh attempts and the sleeps taken, in order. *)
Fixpoint _run {token} (refresh_seconds : Z) (st : slots token)
    (attempts : list (option token)) : slots token * list Z :=
  match attempts with
  | [] => (st, [])
  | a :: rest =>
      let '(st', nap) := turn refresh_seconds st a in
      let '(st'', naps) := _run refresh_seconds st' rest in
      (st'', nap :: naps)
  end.

(** The token a reader finds after some refresh attempts: the last one
    that was obtained, else the one that was there before. *)
Definition last_obtained {token} (before : option token)
    (attempts : list (option token)) : option token :=
  fold_left (fun acc a => match a with Some t => Some t | None => acc end)
            attempts before.

(** The sleep that follows a refresh attempt. *)
Definition nap_after {token} (refresh_seconds : Z) (a : option token) : Z :=
  match a with
  | Some _ => refresh_seconds
  | None => 300%Z
  end.

End BedrockToken.

(* ===================================================================== *)
(** ** harvester/app/rss_processor.py *)
(* ===================================================================== *)

Module RSS.

(** An entry of a parsed feed: field name to value. *)
Abbreviation item := (gmap string string).

(** A row of the configuration table, as [table.scan] returns it.  An
    absent string field is the empty string; [config_data] is [None] when
    it is a string that [json.loads] rejects. *)
Record task : Type := Task {
  task_id : string;
  id : string;
  tags : list string;
  config_data : option (gmap string pyval)
}.

(** The table of [ProcessedRSSItem]: hash key [task_id], range key
    [url_hash] (the full digest), attribute [url].  [None]: the table does
    not exist. *)
Abbreviation marker_table := (option (gmap (string * string) string)).

(** What the surroundings do while one entry is handled. *)
Record item_io : Type := ItemIO {
  send_succeeds : bool;
  save_succeeds : bool
}.

Inductive rss_effect : Type :=
| Enqueued (body : gmap string pyval) (message_attributes : gmap string string)
| SendFailed (url : string)
| Marked (task_id url : string).

Section Scheduler.

(** pydantic: validity of an [HttpUrl], its rendering by
    [model_dump_json], and validity of a lax [bool]; Python: [int] of a
    [str]; the setting [rss_track_processed_urls]. *)
Variable valid_http_url : string -> bool.
Variable http_url_str : string -> string.
Variable valid_bool : pyval -> bool.
Variable int_of_str : string -> option Z.
Variable rss_track_processed_urls : bool.

(** [config_data], or [{}] *)
Definition config_of (t : task) : gmap string pyval :=
  default ∅ (config_data t).

(** [int(max_items)], [None] on [ValueError] and [TypeError] *)
Definition py_int (v : pyval) : option Z :=
  match v with
  | PInt n => Some n
  | PBool b => Some (Z.b2z b)
  | PStr s => int_of_str s
  | PNone => None
  | PList _ => None
  end.

(** [max_items] as [process_rss_feeds] passes it to [parse_rss_feed] *)
Definition max_items_of (cfg : gmap string pyval) : option Z :=
  match cfg !! "max_items" with
  | None => None
  | Some PNone => None
  | Some v => py_int v
  end.

(** [parse_rss_feed]; [feed] is [feedparser.parse(feed_url).entries], or
    [None] when fetching or parsing raises. *)
Definition parse_rss_feed (feed : option (list item)) (max_items : option Z)
  : list item :=
  match feed with
  | None => []
  | Some entries =>
      match max_items with
      | Some n => if (0 <? n)%Z then take (Z.to_nat n) entries else entries
      | None => entries
      end
  end.

(** [get_processed_urls]: the table afterwards and the URLs found *)
Definition get_processed_urls (table : marker_table) (query_ok : bool)
    (tid : string) : marker_table * gset string :=
  match table with
  | None => if query_ok then (Some ∅, ∅) else (None, ∅)
  | Some rows =>
      if query_ok then
        (table,
         list_to_set
           (omap (fun row : (string * string) * string =>
                    if String.eqb row.1.1 tid then Some row.2 else None)
                 (map_to_list rows)))
      else (table, ∅)
  end.

(** [mark_url_as_processed] *)
Definition mark_url_as_processed (table : marker_table) (save_ok : bool)
    (tid url : string) : marker_table :=
  match table with
  | Some rows =>
      if save_ok then Some (<[(tid, MD5.hexdigest url) := url]> rows)
      else table
  | None => table
  end.

(** The body and attributes of the message built for one entry. *)
Definition crawl_request (t : task) (tid url : string)
  : gmap string pyval :=
  {[ "type" := PStr "crawl-single-url";
     "url" := PStr (http_url_str url);
     "id" := PStr (tid +:+ "-" +:+ url_hash8 url);
     "tags" := PList (map PStr (tags t));
     "save_pdf" := default (PBool true) (config_of t !! "save_pdf") ]}.

Definition crawl_request_valid (t : task) (url : string) : bool :=
  valid_http_url url
  && valid_save_pdf valid_bool (Some (default (PBool true)
                                                 (config_of t !! "save_pdf"))).

Definition message_attributes_of (t : task) : gmap string string :=
  {[ "MessageType" := "crawl-single-url";
     "Source" := "rss-processor";
     "TaskId" := task_id t ]}.

(** [item.get(link_field)]; a [link_field] that is not a string finds
    nothing. *)
Definition item_link (link_field : pyval) (it : item) : option string :=
  match link_field with
  | PStr f => it !! f
  | _ => None
  end.

(** The state of the loop over the entries. *)
Record loop_state : Type := LoopState {
  table_now : marker_table;
  done : list rss_effect;
  queued_count : nat
}.

(** The [for item in items] loop of [submit_rss_items_to_queue].
    [processed_urls] is the set fetched before the loop.  The result is
    [inr] when building the [CrawlRequest] raises, which leaves the loop. *)
Fixpoint submit_loop (t : task) (tid : string) (link_field : pyval)
    (processed_urls : gset string) (io : nat -> item_io) (i : nat)
    (st : loop_state) (items : list item) : loop_state + loop_state :=
  match items with
  | [] => inl st
  | it :: rest =>
      let next := submit_loop t tid link_field processed_urls io (S i) in
      match item_link link_field it with
      | None => next st rest
      | Some url =>
          if String.eqb url "" then next st rest
          else if rss_track_processed_urls
                  && bool_decide (url ∈ processed_urls) then next st rest
          else if negb (crawl_request_valid t url) then inr st
          else if send_succeeds (io i) then
            let sent :=
              done st ++ [Enqueued (crawl_request t tid url)
                                   (message_attributes_of t)] in
            if rss_track_processed_urls then
              next (LoopState
                      (mark_url_as_processed (table_now st)
                         (save_succeeds (io i)) tid url)
                      (sent ++ (if save_succeeds (io i)
                                   && bool_decide (is_Some (table_now st))
                                then [Marked tid url] else []))
                      (S (queued_count st)))
                   rest
            else
              next (LoopState (table_now st) sent (S (queued_count st))) rest
          else
            next (LoopState (table_now st) (done st ++ [SendFailed url])
                            (queued_count st))
                 rest
      end
  end.

(** [submit_rss_items_to_queue]: the table afterwards, what was done, and
    the number returned. *)
Definition submit_rss_items_to_queue (table : marker_table) (t : task)
    (items : list item) (query_ok : bool) (io : nat -> item_io)
  : marker_table * list rss_effect * nat :=
  let cfg := config_of t in
  let link_field := default (PStr "link") (cfg !! "item_link_field") in
  let tid := if String.eqb (task_id t) "" then id t else task_id t in
  let '(table1, processed_urls) :=
    if rss_track_processed_urls then get_processed_urls table query_ok tid
    else (table, ∅) in
  match submit_loop t tid link_field processed_urls io 0
                    (LoopState table1 [] 0) items with
  | inl st => (table_now st, done st, queued_count st)
  | inr st => (table_now st, done st, 0)
  end.

(** The items that [process_rss_feeds] hands to
    [submit_rss_items_to_queue] for one task. *)
Definition selected_items (t : task) (feed : option (list item))
  : list item :=
  parse_rss_feed feed (max_items_of (config_of t)).

(** The body of the [for task in tasks] loop of [process_rss_feeds]. *)
Definition process_task (table : marker_table) (t : task)
    (feed : option (list item)) (query_ok : bool) (io : nat -> item_io)
  : marker_table * list rss_effect * nat :=
  if negb (py_truthy (py_get (config_of t) "feed_url")) then (table, [], 0)
  else
    match selected_items t feed with
    | [] => (table, [], 0)
    | items => submit_rss_items_to_queue table t items query_ok io
    end.

End Scheduler.

Definition enqueued_urls (effs : list rss_effect) : list pyval :=
  omap (fun x => match x with
                 | Enqueued body _ => Some (py_get body "url")
                 | _ => None
                 end) effs.

(** A scheduler cycle in which every call succeeds. *)
Definition reliable : nat -> item_io := fun _ => ItemIO true true.

(** A feed task with the given configuration. *)
Definition feed_task (tid : string) (cfg : gmap string pyval) : task :=
  Task tid "" ["global"; "news"] (Some cfg).

Definition entry (url : string) : item := {[ "link" := url ]}.

(** Scenario S4: a feed task that takes two items. *)
Definition scenario_config : gmap string pyval :=
  {[ "feed_url" := PStr "https://f/";
     "item_link_field" := PStr "link";
     "max_items" := PInt 2 ]}.

(** The scheduler with tracking switched on, for URLs that pydantic
    renders unchanged. *)
Definition tracked_cycle :=
  process_task http_url_ok (fun u => u) lax_bool_ok (fun _ => None) true.

End RSS.

(* ===================================================================== *)
(** ** pathlib.PurePosixPath, as far as crawler.py uses it *)
(* ===================================================================== *)

Module Pathlib.

(** [s.split(sep)] *)
Fixpoint split_on (sep : ascii) (s : string) : list string :=
  match s with
  | EmptyString => [EmptyString]
  | String c s' =>
      if Ascii.eqb c sep then EmptyString :: split_on sep s'
      else
        match split_on sep s' with
        | [] => [String c EmptyString]
        | w :: ws => String c w :: ws
        end
  end.

(** A path: its root and its components.  Empty components and ["."] are
    dropped when a path is parsed. *)
Record PurePath : Type := MkPath {
  root : string;
  parts : list string
}.

Definition keep (w : string) : bool :=
  negb (String.eqb w "") && negb (String.eqb w ".").

(** exactly two leading slashes are kept, any other number is one *)
Definition root_of (s : string) : string :=
  match s with
  | String "/" (String "/" (String "/" _)) => "/"
  | String "/" (String "/" _) => "//"
  | String "/" _ => "/"
  | _ => ""
  end.

(** [Path(s)] *)
Definition Path (s : string) : PurePath :=
  MkPath (root_of s) (List.filter keep (split_on "/" s)).

(** [p / s] *)
Definition joinpath (p : PurePath) (s : string) : PurePath :=
  let q := Path s in
  if String.eqb (root q) "" then MkPath (root p) (parts p ++ parts q)
  else q.

Fixpoint join_slash (ws : list string) : string :=
  match ws with
  | [] => ""
  | [w] => w
  | w :: ws' => w +:+ "/" +:+ join_slash ws'
  end.

(** A component that parsing leaves as it is: no slash, not empty, not
    ["."]. *)
Fixpoint no_slash (s : string) : bool :=
  match s with
  | EmptyString => true
  | String c s' => negb (Ascii.eqb c "/") && no_slash s'
  end.

Definition plain (w : string) : bool := keep w && no_slash w.

(** [str(p)] *)
Definition str (p : PurePath) : string :=
  match parts p with
  | [] => if String.eqb (root p) "" then "." else root p
  | ps => root p +:+ join_slash ps
  end.

End Pathlib.

(* ===================================================================== *)
(** ** harvester/app/crawler.py: where [crawl_urls] writes *)
(* ===================================================================== *)

Module Crawler.

(** [datetime.now()], as far as it is used *)
Record date : Type := Date { year : N; month : N; day : N }.

(** [f"{n}"] *)
Definition fmt_d (n : N) : string := NilZero.string_of_uint (N.to_uint n).

(** [f"{n:02d}"] *)
Definition fmt_02d (n : N) : string :=
  if (n <? 10)%N then "0" +:+ fmt_d n else fmt_d n.

(** [relative_path] *)
Definition relative_path (today : date) (url : string) : string :=
  fmt_d (year today) +:+ "/" +:+ fmt_02d (month today) +:+ "/"
    +:+ fmt_02d (day today) +:+ "/" +:+ url_hash8 url.

(** What the crawler extracted from a page. *)
Inductive extraction : Type :=
| Absent              (* [extracted_content] is [None]: [json.loads] raises,
                         and so does writing the raw content *)
| Unparsable          (* [json.loads] raises *)
| Unusable            (* parsed and saved, but the text stage raises *)
| Article (has_body : bool).

(** The body of the outer [try] runs to its end: no exception reaches the
    outer [except], which skips the rest of the body. *)
Definition completes (x : extraction) : bool :=
  match x with
  | Absent => false
  | _ => true
  end.

Record page : Type := Page {
  success : bool;
  extracted : extraction;
  pdf : bool
}.

(** The object store: the setting [s3_bucket_name], and for which file
    names [upload_file_to_s3] succeeds. *)
Record storage : Type := Storage {
  s3_bucket_name : string;
  upload_ok : string -> bool
}.

Inductive output : Type :=
| LocalFile (path : string)
| S3Object (key : string).

Section CrawlOne.

Variable save_location : string.
Variable today : date.
Variable url : string.
Variable store : storage.

Definition save_dir : Pathlib.PurePath :=
  if String.eqb save_location "" then
    Pathlib.Path (relative_path today url)
  else
    Pathlib.joinpath (Pathlib.Path save_location) (relative_path today url).

Definition local (name : string) : list output :=
  [LocalFile (Pathlib.str (Pathlib.joinpath save_dir name))].

Definition remote (name : string) : list output :=
  if negb (String.eqb (s3_bucket_name store) "") && upload_ok store name
  then [S3Object (save_location +:+ "/" +:+ relative_path today url
                    +:+ "/" +:+ name)]
  else [].

(** The body of the loop of [crawl_urls] for one URL: the files written and
    the objects uploaded, or [None] when the crawl of the page failed and
    an exception is raised.  When the content is absent, [raw_extracted.txt]
    is opened (and so created) before the write raises; the exception is
    caught by the outer [except], so the PDF is not written. *)
Definition crawl_outputs (p : page) : option (list output) :=
  if negb (success p) then None
  else
    Some
      ((match extracted p with
        | Article has_body =>
            local "article.json" ++ remote "article.json"
              ++ local "article.txt"
              ++ (if has_body then remote "article.txt" else [])
        | Unusable =>
            local "article.json" ++ remote "article.json"
              ++ local "article.txt" ++ local "raw_extracted.txt"
        | Unparsable => local "raw_extracted.txt"
        | Absent => local "raw_extracted.txt"
        end)
       ++ (if completes (extracted p) && pdf p
           then local "article.pdf" ++ remote "article.pdf"
           else [])).

End CrawlOne.

(** [handle_crawl_single_url]: the directory handed to [crawl_urls] *)
Definition handler_save_location (crawl_save_location id : string) : string :=
  crawl_save_location +:+ "/" +:+ id.

Definition file_names : list string :=
  ["article.json"; "article.txt"; "article.pdf"; "raw_extracted.txt"].

(** The crawl that [handle_crawl_single_url] starts for a validated
    payload: [crawl_urls(urls=str(crawl_task.url), save_location=...)].
    [http_url_str] is pydantic's rendering of the validated URL. *)
Definition handler_crawl_outputs (http_url_str : string -> string)
    (crawl_save_location : string) (payload : gmap string pyval)
    (today : date) (store : storage) (p : page) : option (list output) :=
  match payload !! "id", payload !! "url" with
  | Some (PStr id), Some (PStr url) =>
      crawl_outputs (handler_save_location crawl_save_location id)
                    today (http_url_str url) store p
  | _, _ => None
  end.

(** The directory of the design document,
    [{base}/{task_id}/{YYYY}/{MM}/{DD}/{hash8}/], for a feed task. *)
Definition documented_directory (base task_id : string) (today : date)
    (url : string) : string :=
  base +:+ "/" +:+ task_id +:+ "/" +:+ fmt_d (year today) +:+ "/"
    +:+ fmt_02d (month today) +:+ "/" +:+ fmt_02d (day today)
    +:+ "/" +:+ url_hash8 url +:+ "/".

End Crawler.

(* ===================================================================== *)
(** ** Auxiliary notions for the properties of [process_message] *)
(* ===================================================================== *)

(** The envelope of a message, when it has one that passes validation and
    whose key can be put into a set. *)
Definition accepted (valid_http_url : string -> bool)
    (valid_bool : pyval -> bool)
    (msg : message) (b : gmap string pyval) (k : hkey) : Prop :=
  Body msg = JsonObject b /\
  CrawlRequest_validate valid_http_url valid_bool b = true /\
  py_hash_key (envelope_key b msg) = Some k.

(** The calls of one [process_message], without the hand-over marker. *)
Definition queue_calls (effs : list effect) : list effect :=
  List.filter (fun x => match x with Dispatch _ _ => false | _ => true end)
              effs.

(* ===================================================================== *)
(** ** core/sqs_utils.py and core/s3_utils.py: request parameters and
       batching *)
(* ===================================================================== *)

Module Boto.

(** The parameters that [receive_messages] hands to [sqs.receive_message]. *)
Record receive_request : Type := ReceiveRequest {
  MaxNumberOfMessages : Z;
  WaitTimeSeconds : Z;
  MessageAttributeNames : list string;
  VisibilityTimeout : option Z;
  AttributeNames : option (list string)
}.

(** [bool(x)] and [x or d] for an optional list *)
Definition list_truthy {A} (x : option (list A)) : bool :=
  match x with
  | Some (_ :: _) => true
  | _ => false
  end.

(** [receive_messages] *)
Definition receive_messages_request
    (max_number wait_time : Z) (visibility_timeout : option Z)
    (attribute_names message_attribute_names : option (list string))
  : receive_request :=
  ReceiveRequest
    (Z.max 1 (Z.min max_number 10))
    (Z.max 0 (Z.min wait_time 20))
    (if list_truthy message_attribute_names
     then default [] message_attribute_names else ["All"])
    visibility_timeout
    (if list_truthy attribute_names then attribute_names else None).

(** [range(0, stop, step)] for a positive step *)
Definition range_step (stop step : nat) : list nat :=
  map (fun j => j * step) (seq 0 ((stop + step - 1) / step)).

(** [l[i:j]] for [0 <= i <= j] *)
Definition slice {A} (l : list A) (i j : nat) : list A :=
  take (j - i) (drop i l).

(** The chunks [l[i : i + n]] for [i in range(0, len(l), n)], one request
    each: the loop of [send_messages_batch], [delete_messages_batch]
    (n = 10) and [delete_objects_batch] (n = 1000). *)
Definition batches {A} (n : nat) (l : list A) : list (list A) :=
  map (fun i => slice l i (i + n)) (range_step (length l) n).

Definition send_messages_batch {A} (entries : list A) : list (list A) :=
  batches 10 entries.

Definition delete_objects_batch (keys : list string) : list (list string) :=
  batches 1000 keys.

(** [str(j)] *)
Definition str_of_nat (j : nat) : string :=
  NilZero.string_of_uint (Nat.to_uint j).

(** [[{"Id": str(j), "ReceiptHandle": rh} for j, rh in enumerate(chunk)]] *)
Definition delete_entries (chunk : list string) : list (string * string) :=
  imap (fun j rh => (str_of_nat j, rh)) chunk.

(** [delete_messages_batch]: the entries of each request *)
Definition delete_messages_batch (receipt_handles : list string)
  : list (list (string * string)) :=
  map delete_entries (batches 10 receipt_handles).

End Boto.

(* ===================================================================== *)
(** ** core/sqs_consumer.py: the heartbeat and the status report *)
(* ===================================================================== *)

Module Heartbeat.

Inductive hb_event : Type :=
| Sleep (seconds : Z)
| Extend (receipt_handle : string) (visibility_timeout : Z).

Inductive hb_end : Type :=
| Cancelled          (* cancelled while sleeping: [CancelledError] re-raised *)
| Failed.            (* [change_message_visibility] raised *)

(** [_heartbeat]: the loop sleeps, then extends the visibility.  [calls]
    says, for the successive [change_message_visibility] calls made before
    the task is cancelled, whether each returns. *)
Fixpoint _heartbeat (heartbeat_every visibility_timeout : Z)
    (receipt_handle : string) (calls : list bool)
  : list hb_event * hb_end :=
  match calls with
  | [] => ([Sleep heartbeat_every], Cancelled)
  | ok :: rest =>
      let this := [Sleep heartbeat_every;
                   Extend receipt_handle visibility_timeout] in
      if ok then
        let '(evs, fin) :=
          _heartbeat heartbeat_every visibility_timeout receipt_handle rest in
        (this ++ evs, fin)
      else (this, Failed)
  end.

Definition is_Extend (ev : hb_event) : bool :=
  match ev with Extend _ _ => true | _ => false end.

Definition slept (evs : list hb_event) : Z :=
  foldr (fun ev acc => match ev with Sleep s => (s + acc)%Z | _ => acc end)
        0%Z evs.

End Heartbeat.

(** [queue_url.split('/')[-1]] of [get_status] *)
Definition queue_name (queue_url : string) : string :=
  List.last (Pathlib.split_on "/" queue_url) "".

(* ===================================================================== *)
(** ** harvester/app/rss_processor.py: reading off what a run has done *)
(* ===================================================================== *)

Module RSSRun.

Import RSS.

Definition is_Enqueued (x : rss_effect) : bool :=
  match x with Enqueued _ _ => true | _ => false end.

Definition is_SendFailed (x : rss_effect) : bool :=
  match x with SendFailed _ => true | _ => false end.

Definition is_Marked (x : rss_effect) : bool :=
  match x with Marked _ _ => true | _ => false end.

(** The markers that a run has saved, in order. *)
Definition markers (effs : list rss_effect) : list (string * string) :=
  omap (fun x => match x with
                 | Marked tid url => Some (tid, url)
                 | _ => None
                 end) effs.

(** A table after the given markers have been saved into it. *)
Definition with_markers (table : marker_table)
    (ms : list (string * string)) : marker_table :=
  foldl (fun tb m => mark_url_as_processed tb true m.1 m.2) table ms.

(** The state in which the loop over the entries was left, whether it ran
    to its end or was left by an exception. *)
Definition final_state (r : loop_state + loop_state) : loop_state :=
  match r with
  | inl st => st
  | inr st => st
  end.

(** [task.get('task_id', '') or task.get('id', '')] *)
Definition run_id (t : task) : string :=
  if String.eqb (task_id t) "" then id t else task_id t.

(** [config_data.get('item_link_field', 'link')] *)
Definition link_field_of (t : task) : pyval :=
  default (PStr "link") (config_of t !! "item_link_field").

Section Entries.

Variable valid_http_url : string -> bool.
Variable http_url_str : string -> string.
Variable valid_bool : pyval -> bool.
Variable rss_track_processed_urls : bool.

(** The link for which the loop goes on to build a request: the entry has
    one, it is not empty, and it is not among the processed URLs read
    before the loop. *)
Definition wanted_link (link_field : pyval) (processed_urls : gset string)
    (it : item) : option string :=
  match item_link link_field it with
  | None => None
  | Some url =>
      if String.eqb url "" then None
      else if rss_track_processed_urls
              && bool_decide (url ∈ processed_urls) then None
      else Some url
  end.

(** An entry at which building the [CrawlRequest] raises. *)
Definition rejected (t : task) (link_field : pyval)
    (processed_urls : gset string) (it : item) : bool :=
  match wanted_link link_field processed_urls it with
  | Some url => negb (crawl_request_valid valid_http_url valid_bool t url)
  | None => false
  end.

(** What handling one entry does, when its request can be built:
    nothing for an entry that is passed over; otherwise one send and,
    when that returned and tracking is on, the marker saved after it. *)
Definition item_effects (t : task) (tid : string) (link_field : pyval)
    (processed_urls : gset string) (table_exists : bool)
    (io : item_io) (it : item) : list rss_effect :=
  match wanted_link link_field processed_urls it with
  | None => []
  | Some url =>
      if send_succeeds io then
        Enqueued (crawl_request http_url_str t tid url)
                 (message_attributes_of t)
          :: (if rss_track_processed_urls && save_succeeds io
                 && table_exists
              then [Marked tid url] else [])
      else [SendFailed url]
  end.

(** The entries before the first one that is rejected. *)
Fixpoint handled (t : task) (link_field : pyval)
    (processed_urls : gset string) (items : list item) : list item :=
  match items with
  | [] => []
  | it :: rest =>
      if rejected t link_field processed_urls it then []
      else it :: handled t link_field processed_urls rest
  end.

End Entries.

(** pydantic's rendering of a URL, at the URLs used in the examples: it
    adds the path [/] to a URL that has none. *)
Definition rendered (url : string) : string :=
  if String.eqb url "https://e.com" then "https://e.com/" else url.

End RSSRun.

(* ===================================================================== *)
(** ** harvester/app/bedrock_token.py: [get_token] *)
(* ===================================================================== *)

Module TokenStartup.

Import BedrockToken.

(** [BedrockToken.get_token].  [provide] is what [provide_token()] gives
    when it is called, [None] when it raises.  The result is the state
    afterwards and the token returned, [None] when the call raises. *)
Definition get_token {token} (st : slots token) (provide : option token)
  : slots token * option token :=
  match bedrock_api_token st with
  | Some t => (st, Some t)
  | None =>
      match provide with
      | Some t => (Slots (Some t) (BEDROCK_TOKEN st), Some t)
      | None => (st, None)
      end
  end.

End TokenStartup.

(* ===================================================================== *)
(** ** harvester/app/crawler.py: [crawl_urls] over all its URLs *)
(* ===================================================================== *)

Module CrawlRun.

Import Crawler.

(** One element of [zip(urls, results)], with the date that
    [datetime.now()] gives when its turn comes. *)
Record job : Type := Job {
  job_url : string;
  job_date : date;
  job_page : page
}.

(** [str(save_dir)], the entry appended to [saved_paths] *)
Definition saved_path (save_location : string) (j : job) : string :=
  Pathlib.str (save_dir save_location (job_date j) (job_url j)).

(** The loop of [crawl_urls]: everything written and uploaded, and the
    list returned, [None] when the crawl of a page failed and the
    exception leaves the function.  The directory of a URL is appended to
    [saved_paths] at the end of the outer [try], which is not reached when
    an exception was caught by the outer [except]. *)
Fixpoint crawl_urls (save_location : string) (store : storage)
    (jobs : list job) : list output * option (list string) :=
  match jobs with
  | [] => ([], Some [])
  | j :: rest =>
      match crawl_outputs save_location (job_date j) (job_url j) store
                          (job_page j) with
      | None => ([], None)
      | Some outs =>
          let '(outs', r) := crawl_urls save_location store rest in
          (outs ++ outs',
           (if completes (extracted (job_page j))
            then cons (saved_path save_location j) else fun paths => paths)
             <$> r)
      end
  end.

(** The jobs whose directory is reported. *)
Definition reported (jobs : list job) : list job :=
  List.filter (fun j => completes (extracted (job_page j))) jobs.

(** The [try] block of [handle_crawl_single_url] after validation:
    [crawl_urls] is called with the one URL of the request, and an empty
    result raises. *)
Definition handler_crawl_ok (save_location : string) (store : storage)
    (j : job) : bool :=
  match (crawl_urls save_location store [j]).2 with
  | Some (_ :: _) => true
  | _ => false
  end.

Definition is_S3Object (o : output) : bool :=
  match o with S3Object _ => true | LocalFile _ => false end.

End CrawlRun.

(* ===================================================================== *)
(** ** core/models.py: [HarvesterConfig] *)
(* ===================================================================== *)

Module HarvesterConfig.

Section Tasks.

(** A task of the configuration, with its [id] and [type]. *)
Variable T : Type.
Variable id : T -> string.
Variable type : T -> string.

(** [validate_unique_task_ids]: [len(task_ids) != len(set(task_ids))]
    raises [ValueError], which pydantic reports as a validation error. *)
Definition validate_unique_task_ids (tasks : list T) : result :=
  let task_ids := map id tasks in
  if negb (Nat.eqb (length task_ids)
                   (size (list_to_set task_ids : gset string)))
  then Raised ValidationError
  else Returned.



End Tasks.

End HarvesterConfig.

(* ===================================================================== *)
(** ** core/sqs_consumer.py: the slots of the consumer *)
(* ===================================================================== *)

Module ConsumerSlots.

(** A message task: [_handle_message] is running, or has ended. *)
Inductive place : Type :=
| Handling
| Ended.

Record slot_state : Type := SlotState {
  permits : nat;            (* the counter of [self._sem] *)
  tasks : list place
}.

(** [self._sem = asyncio.Semaphore(concurrency)] *)
Definition initial (concurrency : nat) : slot_state :=
  SlotState concurrency [].

Inductive step : slot_state -> slot_state -> Prop :=
| step_dispatch s :
    (* [_run]: [await self._sem.acquire()] returns only with a positive
       counter, and [create_task] follows without a suspension point *)
    0 < permits s ->
    step s (SlotState (permits s - 1) (tasks s ++ [Handling]))
| step_end s i :
    (* [_handle_message] ends: its [finally] releases once *)
    tasks s !! i = Some Handling ->
    step s (SlotState (permits s + 1) (<[i := Ended]> (tasks s))).

Inductive reachable (concurrency : nat) : slot_state -> Prop :=
| reachable_initial : reachable concurrency (initial concurrency)
| reachable_step s s' :
    reachable concurrency s -> step s s' -> reachable concurrency s'.

Definition is_Handling (p : place) : bool :=
  match p with Handling => true | Ended => false end.

Definition handling (s : slot_state) : nat :=
  count_if is_Handling (tasks s).

End ConsumerSlots.
Example md5_empty : MD5.hexdigest "" = "d41d8cd98f00b204e9800998ecf8427e".
Proof. vm_compute. reflexivity. Qed.

Example md5_abc : MD5.hexdigest "abc" = "900150983cd24fb0d6963f7d28e17f72".
Proof. vm_compute. reflexivity. Qed.

Example md5_url :
  MD5.hexdigest "https://example.com/a" = "cd69b81ea00cc2798797293cbc92d643".
Proof. vm_compute. reflexivity. Qed.

Example md5_two_blocks :
  MD5.hexdigest
    "xxxxxxxxxxxxxxxxxxxxxxxxxxxxxxxxxxxxxxxxxxxxxxxxxxxxxxxxxxxxxxxxxxxxxx"
  = "7d56c0f83fd1e320d60ea2f13dfdeedd".
Proof. vm_compute. reflexivity. Qed.


(* ===================================================================== *)
(** ** The consumer: idempotency, retry and redrive *)
(* ===================================================================== *)

Section ConsumerFacts.

Variable valid_http_url : string -> bool.
Variable valid_bool : pyval -> bool.

Local Abbreviation validate :=
  (CrawlRequest_validate valid_http_url valid_bool).
Local Abbreviation handler :=
  (handle_crawl_single_url valid_http_url valid_bool).
Local Abbreviation PM := (process_message valid_http_url valid_bool).
Local Abbreviation run := (consumer_run valid_http_url valid_bool).

(** Refutes membership in a short explicit list. *)
Local Ltac absurd_member :=
  let H := fresh in
  solve [intros H; decompose_list_elem_of; simplify_eq].

Lemma lookup_handler_Some v h :
  lookup_handler valid_http_url valid_bool v = Some h ->
  v = PStr "crawl-single-url" /\ h = handler.
Proof.
  destruct v; simpl; try discriminate.
  unfold handlers. intros H.
  apply lookup_singleton_Some in H as [<- <-]. done.
Qed.

Lemma lookup_handler_crawl :
  lookup_handler valid_http_url valid_bool (PStr "crawl-single-url")
  = Some handler.
Proof. unfold lookup_handler, handlers. apply lookup_singleton_eq. Qed.

Lemma claim_mono seen k : seen ⊆ (claim seen k).1.
Proof. unfold claim. case_decide; simpl; set_solver. Qed.

Lemma process_message_mono seen msg e : seen ⊆ seen_after (PM seen msg e).
Proof.
  unfold process_message, claim.
  repeat case_match; simplify_eq/=; set_solver.
Qed.

(** A message whose key is new is handed to the handler. *)
Lemma process_message_fresh seen msg e b k :
  Body msg = JsonObject b -> validate b = true ->
  py_get b "type" = PStr "crawl-single-url" ->
  py_hash_key (envelope_key b msg) = Some k -> k ∉ seen ->
  PM seen msg e =
    Outcome ({[k]} ∪ seen)
      (Dispatch k b :: (after_handler msg e (handler b (crawl_succeeds e))).1)
      (after_handler msg e (handler b (crawl_succeeds e))).2.
Proof.
  intros Hb Hv Ht Hk Hs. unfold process_message, claim.
  rewrite Hb, Hv, Hk. simpl. rewrite decide_False by done. simpl.
  rewrite Ht, lookup_handler_crawl.
  destruct (after_handler msg e _); done.
Qed.

(** A message whose key was seen is deleted and nothing else happens. *)
Lemma process_message_duplicate seen msg e b k :
  Body msg = JsonObject b -> validate b = true ->
  py_hash_key (envelope_key b msg) = Some k -> k ∈ seen ->
  PM seen msg e =
    Outcome seen [DeleteMessage (ReceiptHandle msg)]
            (adapter_result (delete_ok e)).
Proof.
  intros Hb Hv Hk Hs. unfold process_message, claim.
  rewrite Hb, Hv, Hk. simpl. rewrite decide_True by done. done.
Qed.

Lemma requeue_no_dispatch msg b e k b0 :
  Dispatch k b0 ∉ (requeue msg b e).1.
Proof.
  unfold requeue.
  destruct (delete_ok e), (send_ok e); simpl; set_solver.
Qed.

Lemma after_handler_no_dispatch msg e hr k b0 :
  Dispatch k b0 ∉ (after_handler msg e hr).1.
Proof.
  unfold after_handler. destruct hr as [b' [|[]]]; simpl;
    try set_solver.
  apply requeue_no_dispatch.
Qed.

Lemma process_message_dispatch_inv seen msg e k b :
  Dispatch k b ∈ effects (PM seen msg e) ->
  Body msg = JsonObject b /\ validate b = true /\
  py_get b "type" = PStr "crawl-single-url" /\
  py_hash_key (envelope_key b msg) = Some k /\ k ∉ seen.
Proof.
  unfold process_message, claim.
  destruct (Body msg) as [|body|]; simpl; try absurd_member.
  destruct (validate body) eqn:Hv; simpl; try absurd_member.
  destruct (py_hash_key (envelope_key body msg)) as [k0|] eqn:Hk;
    simpl; try absurd_member.
  destruct (decide (k0 ∈ seen)) as [Hin|Hnin]; simpl; [absurd_member|].
  destruct (lookup_handler _ _ (py_get body "type")) as [h|] eqn:Hh;
    simpl; try absurd_member.
  apply lookup_handler_Some in Hh as [Ht ->].
  destruct (after_handler msg e _) as [effs r] eqn:Ha. simpl.
  intros [H|H]%elem_of_cons; simplify_eq; [done|].
  exfalso. eapply after_handler_no_dispatch. rewrite Ha. exact H.
Qed.

Lemma dispatched_keys_app l1 l2 :
  dispatched_keys (l1 ++ l2) = dispatched_keys l1 ++ dispatched_keys l2.
Proof. apply omap_app. Qed.

Lemma dispatched_keys_nil effs :
  (forall k b, Dispatch k b ∉ effs) -> dispatched_keys effs = [].
Proof.
  induction effs as [|x effs IH]; simpl; [done|]. intros H.
  destruct x; simpl; try (apply IH; intros k0 b0 ?; eapply H; by right).
  exfalso. eapply H. by left.
Qed.

Lemma after_handler_keys msg e hr :
  dispatched_keys (after_handler msg e hr).1 = [].
Proof.
  apply dispatched_keys_nil. intros. apply after_handler_no_dispatch.
Qed.

(** One message starts at most one handler, under a key that was new. *)
Lemma process_message_keys seen msg e :
  dispatched_keys (effects (PM seen msg e)) = [] \/
  exists k, dispatched_keys (effects (PM seen msg e)) = [k] /\
            (k ∉ seen) /\ k ∈ seen_after (PM seen msg e).
Proof.
  unfold process_message, claim.
  destruct (Body msg) as [|body|]; simpl; auto.
  destruct (validate body); simpl; auto.
  destruct (py_hash_key (envelope_key body msg)) as [k0|]; simpl; auto.
  destruct (decide (k0 ∈ seen)) as [Hin|Hnin]; simpl; auto.
  destruct (lookup_handler _ _ (py_get body "type")) as [h|]; simpl; auto.
  pose proof (after_handler_keys msg e (h body (crawl_succeeds e))) as Hk.
  destruct (after_handler msg e _) as [effs r]. simpl in *.
  right. exists k0. rewrite Hk. split; [done|]. split; [done|set_solver].
Qed.

(** The invariant of a process lifetime. *)
Lemma consumer_run_invariant inputs : forall seen,
  seen ⊆ (run seen inputs).1 /\
  NoDup (dispatched_keys (run seen inputs).2) /\
  (forall k, k ∈ dispatched_keys (run seen inputs).2 ->
             (k ∉ seen) /\ k ∈ (run seen inputs).1).
Proof.
  induction inputs as [|[msg e] rest IH]; intros seen; simpl.
  - split; [done|]. split; [constructor|]. intros k Hk. set_solver.
  - pose proof (process_message_mono seen msg e) as Hm.
    pose proof (process_message_keys seen msg e) as Hk.
    destruct (PM seen msg e) as [seen1 effs r]. simpl in *.
    specialize (IH seen1). destruct (run seen1 rest) as [seen2 effs2].
    simpl in *. destruct IH as (Hsub & Hnd & Hin).
    rewrite dispatched_keys_app.
    split; [set_solver|].
    destruct Hk as [-> | (k & -> & Hnew & Hk1)]; simpl.
    + split; [done|]. intros k Hk. destruct (Hin k Hk). split; set_solver.
    + split.
      * constructor; [|done]. intros Hk. destruct (Hin k Hk). done.
      * intros k' [<-|Hk']%elem_of_cons; [split; set_solver|].
        destruct (Hin k' Hk'). split; set_solver.
Qed.

(** The handler's verdict on a failed crawl. *)
Lemma handler_failure body :
  handler body false =
    match py_int_value (default (PInt 0) (body !! "retry_count")) with
    | None => (body, Raised TypeError)
    | Some rc =>
        if (rc <? 1)%Z then
          (<["retry" := PBool true]>
             (<["retry_count" := PInt (rc + 1)]> body), Raised RetryableError)
        else (body, Raised NonRetryableError)
    end.
Proof.
  unfold handle_crawl_single_url. by rewrite andb_false_r.
Qed.

Lemma handler_retryable_inv body ok :
  (handler body ok).2 = Raised RetryableError ->
  exists rc : Z,
    py_int_value (default (PInt 0) (body !! "retry_count")) = Some rc /\
    (rc < 1)%Z /\
    (handler body ok).1 =
      <["retry" := PBool true]> (<["retry_count" := PInt (rc + 1)]> body).
Proof.
  unfold handle_crawl_single_url.
  destruct (validate body && ok); simpl; [discriminate|].
  destruct (py_int_value _) as [rc|]; simpl; [|discriminate].
  destruct (rc <? 1)%Z eqn:Hrc; simpl; [|discriminate].
  intros _. exists rc. split; [done|]. split; [lia|done].
Qed.

(** Only the retry path sends, and it sends the payload as the handler
    left it. *)
Lemma process_message_send_inv seen msg e b' attrs d :
  SendMessage b' attrs d ∈ effects (PM seen msg e) ->
  exists k body,
    Dispatch k body ∈ effects (PM seen msg e) /\
    (handler body (crawl_succeeds e)).2 = Raised RetryableError /\
    b' = (handler body (crawl_succeeds e)).1 /\
    seen_after (PM seen msg e) = {[k]} ∪ seen.
Proof.
  unfold process_message, claim.
  destruct (Body msg) as [|body|]; simpl; try absurd_member.
  destruct (validate body) eqn:Hv; simpl; try absurd_member.
  destruct (py_hash_key (envelope_key body msg)) as [k0|] eqn:Hk;
    simpl; try absurd_member.
  destruct (decide (k0 ∈ seen)) as [Hin|Hnin]; simpl; [absurd_member|].
  destruct (lookup_handler _ _ (py_get body "type")) as [h|] eqn:Hh;
    simpl; try absurd_member.
  apply lookup_handler_Some in Hh as [Ht ->].
  unfold after_handler, requeue.
  destruct (handler body (crawl_succeeds e)) as [b1 [|x]] eqn:Hr; simpl;
    [|destruct x; simpl]; destruct (delete_ok e), (send_ok e); simpl;
    intros Hs; decompose_list_elem_of; simplify_eq;
    exists k0, body; rewrite Hr;
    (split; [by apply elem_of_cons; left|done]).
Qed.

Lemma validate_insert f v body :
  f <> "type" -> f <> "url" -> f <> "id" -> f <> "tags" -> f <> "save_pdf" ->
  validate (<[f := v]> body) = validate body.
Proof.
  intros. unfold CrawlRequest_validate. by rewrite !lookup_insert_ne.
Qed.

Lemma py_get_insert_ne f g v (body : gmap string pyval) :
  f <> g -> py_get (<[f := v]> body) g = py_get body g.
Proof. intros. unfold py_get. by rewrite lookup_insert_ne. Qed.

(** When the key is taken from the body it does not depend on the message
    that carries the body, nor on the fields the handler writes. *)
Lemma envelope_key_requeued body rc msg msg2 :
  py_truthy (py_get body "id") || py_truthy (py_get body "event_id") = true ->
  envelope_key
    (<["retry" := PBool true]> (<["retry_count" := PInt rc]> body)) msg2
  = envelope_key body msg.
Proof.
  intros H. unfold envelope_key, py_or.
  rewrite !py_get_insert_ne by done.
  destruct (py_truthy (py_get body "id")); [done|].
  simpl in H. by rewrite H.
Qed.

(** C1 (amended).  The key of an envelope is its [id] if that is non-empty,
    else its [event_id] if that is non-empty, else the provider message id.
    A handler is started only for a message whose key is not yet in the
    idempotency set; over a process lifetime, which starts with the empty
    set, no key is handed to a handler twice; and a message whose key is
    already in the set is deleted at once and no handler is started. *)
Theorem handler_started_at_most_once_per_key :
  (forall body msg,
     envelope_key body msg =
       if py_truthy (py_get body "id") then py_get body "id"
       else if py_truthy (py_get body "event_id") then py_get body "event_id"
       else PStr (MessageId msg)) /\
  (forall seen msg e k b,
     Dispatch k b ∈ effects (PM seen msg e) ->
     Body msg = JsonObject b /\
     py_hash_key (envelope_key b msg) = Some k /\ k ∉ seen) /\
  (forall inputs, NoDup (dispatched_keys (run ∅ inputs).2)) /\
  (forall seen msg e b k,
     Body msg = JsonObject b -> validate b = true ->
     py_hash_key (envelope_key b msg) = Some k -> k ∈ seen ->
     PM seen msg e =
       Outcome seen [DeleteMessage (ReceiptHandle msg)]
               (adapter_result (delete_ok e))).
Proof.
  split_and!.
  - intros body msg. unfold envelope_key, py_or. reflexivity.
  - intros seen msg e k b H.
    apply process_message_dispatch_inv in H. tauto.
  - intros inputs. apply (consumer_run_invariant inputs ∅).
  - intros. by eapply process_message_duplicate.
Qed.

(** C2 (amended).  When the handler of a dispatched message fails
    retryably, the incoming [retry_count] rc (0 when absent) is below 1, and
    the consumer calls delete on the original message; if that call returns
    it sends a new message whose body is the incoming one except that
    [retry_count] is rc + 1 and a field [retry] is set to true, with delay
    min(900, 2^min(receive_count, 8)), the receive count being the one the
    provider reports (1 when it reports none); if the delete or the send
    raises, it instead extends the visibility of the original message by
    that same delay. *)
Theorem retryable_failure_is_requeued seen msg e k body :
  Dispatch k body ∈ effects (PM seen msg e) ->
  (handler body (crawl_succeeds e)).2 = Raised RetryableError ->
  exists rc : Z,
    py_int_value (default (PInt 0) (body !! "retry_count")) = Some rc /\
    (rc < 1)%Z /\
    let body' :=
      <["retry" := PBool true]> (<["retry_count" := PInt (rc + 1)]> body) in
    let delay := N.min 900 (2 ^ N.min (get_receive_count msg) 8) in
    body' !! "retry_count" = Some (PInt (rc + 1)) /\
    body' !! "retry" = Some (PBool true) /\
    (forall f, f <> "retry_count" -> f <> "retry" ->
               body' !! f = body !! f) /\
    effects (PM seen msg e) =
      Dispatch k body :: DeleteMessage (ReceiptHandle msg) ::
      (if delete_ok e then
         SendMessage body' (MessageAttributes msg) delay ::
         (if send_ok e then []
          else [ChangeVisibility (ReceiptHandle msg) delay])
       else [ChangeVisibility (ReceiptHandle msg) delay]).
Proof.
  intros Hd Hr.
  apply process_message_dispatch_inv in Hd as (Hb & Hv & Ht & Hk & Hs).
  destruct (handler_retryable_inv _ _ Hr) as (rc & Hrc & Hlt & Hbody).
  exists rc. split; [done|]. split; [done|]. simpl.
  split; [by rewrite lookup_insert_ne, lookup_insert_eq|].
  split; [by rewrite lookup_insert_eq|].
  split; [intros f ? ?; by rewrite !lookup_insert_ne|].
  rewrite (process_message_fresh seen msg e body k) by done. simpl.
  unfold after_handler. rewrite Hr, Hbody. unfold requeue.
  destruct (delete_ok e), (send_ok e); reflexivity.
Qed.


(** C9 (amended).  Let the envelope key be taken from the body, that is,
    [id] or [event_id] is non-empty.  If processing a message ends in a
    re-emission, then whenever a message carrying the re-emitted body is
    received later in the same process lifetime, whatever was processed in
    between, it is deleted without a handler being started. *)
Theorem reemission_is_dropped seen msg e body b' attrs d between msg2 e2 :
  Body msg = JsonObject body ->
  py_truthy (py_get body "id") || py_truthy (py_get body "event_id") = true ->
  SendMessage b' attrs d ∈ effects (PM seen msg e) ->
  Body msg2 = JsonObject b' ->
  let seen2 := (run (seen_after (PM seen msg e)) between).1 in
  PM seen2 msg2 e2 =
    Outcome seen2 [DeleteMessage (ReceiptHandle msg2)]
            (adapter_result (delete_ok e2)).
Proof.
  intros Hb Hkey Hsend Hb2 seen2.
  apply process_message_send_inv in Hsend
    as (k & body0 & Hd & Hr & -> & Hseen).
  apply process_message_dispatch_inv in Hd as (Hb0 & Hv & Ht & Hk & Hs).
  assert (body0 = body) as -> by congruence.
  destruct (handler_retryable_inv _ _ Hr) as (rc & Hrc & Hlt & Hbody).
  rewrite Hbody in Hb2.
  eapply process_message_duplicate; [exact Hb2| | |].
  - by rewrite !validate_insert.
  - rewrite (envelope_key_requeued body (rc + 1) msg msg2) by done.
    exact Hk.
  - subst seen2.
    destruct (consumer_run_invariant between (seen_after (PM seen msg e)))
      as (Hsub & _).
    apply Hsub. rewrite Hseen. apply elem_of_union_l, elem_of_singleton.
    reflexivity.
Qed.

End ConsumerFacts.

(** *** The consumer on concrete messages *)

Import Scenario.

(** S1: the crawl succeeds, the message is deleted. *)
Example scenario_success :
  process_message http_url_ok lax_bool_ok ∅
    (received "m1" "rh1" (envelope "x")) healthy
  = Outcome {[KStr "x"]}
      [Dispatch (KStr "x") (envelope "x"); DeleteMessage "rh1"] Returned.
Proof. vm_compute. reflexivity. Qed.

(** S2: the crawl fails on a first attempt; delete, then re-send after 2 s. *)
Example scenario_first_failure :
  process_message http_url_ok lax_bool_ok ∅
    (received "m1" "rh1" (envelope "x")) crawl_fails
  = Outcome {[KStr "x"]}
      [Dispatch (KStr "x") (envelope "x"); DeleteMessage "rh1";
       SendMessage (requeued "x") ∅ 2] Returned.
Proof. vm_compute. reflexivity. Qed.


(** The backoff never reaches its cap of 900 s: it is at most 256 s. *)
Lemma compute_backoff_seconds_le receive_count :
  (compute_backoff_seconds receive_count <= 256)%N.
Proof.
  unfold compute_backoff_seconds.
  assert (2 ^ N.min receive_count 8 <= 2 ^ 8)%N
    by (apply N.pow_le_mono_r; lia).
  change (2 ^ 8)%N with 256%N in *. lia.
Qed.

(** Witness of [handler_started_at_most_once_per_key]: the same message
    delivered twice. *)
Lemma handler_started_at_most_once_per_key_witness :
  NoDup (dispatched_keys
           (consumer_run http_url_ok lax_bool_ok ∅
              [(received "m1" "rh1" (envelope "x"), healthy);
               (received "m1" "rh1" (envelope "x"), healthy)]).2) /\
  process_message http_url_ok lax_bool_ok {[KStr "x"]}
    (received "m1" "rh1" (envelope "x")) healthy
  = Outcome {[KStr "x"]} [DeleteMessage "rh1"] Returned.
Proof.
  destruct (handler_started_at_most_once_per_key http_url_ok lax_bool_ok)
    as (_ & _ & Hnd & Hdup).
  split; [apply Hnd|].
  assert (CrawlRequest_validate http_url_ok lax_bool_ok (envelope "x") = true)
    as Hv by (vm_compute; reflexivity).
  assert (py_hash_key
            (envelope_key (envelope "x") (received "m1" "rh1" (envelope "x")))
          = Some (KStr "x")) as Hk by (vm_compute; reflexivity).
  assert (KStr "x" ∈ ({[KStr "x"]} : gset hkey)) as Hin
    by (apply elem_of_singleton; reflexivity).
  exact (Hdup {[KStr "x"]} (received "m1" "rh1" (envelope "x")) healthy
           (envelope "x") (KStr "x") eq_refl Hv Hk Hin).
Defined.

(** C1 as stated fails: with an empty [id] and an [event_id], the handler
    is started under the [event_id], which is neither the [id] nor the
    provider message id. *)
Lemma key_is_neither_id_nor_message_id :
  dispatched_keys
    (effects (process_message http_url_ok lax_bool_ok ∅
       (received "m1" "rh1" (<["event_id" := PStr "e1"]> (envelope "")))
       healthy))
  = [KStr "e1"] /\
  py_hash_key (documented_key_if_present
    (<["event_id" := PStr "e1"]> (envelope ""))
    (received "m1" "rh1" (<["event_id" := PStr "e1"]> (envelope ""))))
  = Some (KStr "") /\
  py_hash_key (documented_key_if_nonempty
    (<["event_id" := PStr "e1"]> (envelope ""))
    (received "m1" "rh1" (<["event_id" := PStr "e1"]> (envelope ""))))
  = Some (KStr "m1").
Proof. vm_compute. split_and!; reflexivity. Qed.

(** Witness of [retryable_failure_is_requeued]: scenario S2. *)
Lemma retryable_failure_is_requeued_witness :
  exists rc : Z,
    py_int_value (default (PInt 0) (envelope "x" !! "retry_count")) = Some rc /\
    (rc < 1)%Z /\
    let body' :=
      <["retry" := PBool true]>
        (<["retry_count" := PInt (rc + 1)]> (envelope "x")) in
    let delay := N.min 900 (2 ^ N.min 1 8) in
    body' !! "retry_count" = Some (PInt (rc + 1)) /\
    body' !! "retry" = Some (PBool true) /\
    (forall f, f <> "retry_count" -> f <> "retry" ->
               body' !! f = envelope "x" !! f) /\
    effects (process_message http_url_ok lax_bool_ok ∅
               (received "m1" "rh1" (envelope "x")) crawl_fails) =
      [Dispatch (KStr "x") (envelope "x"); DeleteMessage "rh1";
       SendMessage body' ∅ delay].
Proof.
  apply (retryable_failure_is_requeued http_url_ok lax_bool_ok ∅
           (received "m1" "rh1" (envelope "x")) crawl_fails
           (KStr "x") (envelope "x")).
  - rewrite scenario_first_failure. simpl. apply elem_of_cons. by left.
  - vm_compute. reflexivity.
Defined.

(** C2 as stated fails: the re-sent body differs from the incoming one
    in the field [retry] as well, not only in [retry_count]. *)
Lemma requeued_body_gains_retry_field :
  effects (process_message http_url_ok lax_bool_ok ∅
             (received "m1" "rh1" (envelope "x")) crawl_fails)
  = [Dispatch (KStr "x") (envelope "x"); DeleteMessage "rh1";
     SendMessage (requeued "x") ∅ 2] /\
  requeued "x" !! "retry" = Some (PBool true) /\
  envelope "x" !! "retry" = None.
Proof. vm_compute. split_and!; reflexivity. Qed.



(** A first failure whose delete returns and whose send raises: the send
    is attempted, nothing reaches the queue, the visibility is extended. *)
Example failed_send_reemits_nothing :
  effects (process_message http_url_ok lax_bool_ok ∅
    (received "m1" "rh1" (envelope "x")) (Env false true false true))
  = [Dispatch (KStr "x") (envelope "x"); DeleteMessage "rh1";
     SendMessage (requeued "x") ∅ 2; ChangeVisibility "rh1" 2] /\
  reemitted (Env false true false true)
    (effects (process_message http_url_ok lax_bool_ok ∅
       (received "m1" "rh1" (envelope "x")) (Env false true false true)))
  = [].
Proof. vm_compute. split_and!; reflexivity. Qed.

(** Witness of [reemission_is_dropped]: the message re-sent in scenario S2
    comes back under a new message id and is deleted. *)
Lemma reemission_is_dropped_witness :
  process_message http_url_ok lax_bool_ok
    (consumer_run http_url_ok lax_bool_ok
       (seen_after (process_message http_url_ok lax_bool_ok ∅
          (received "m1" "rh1" (envelope "x")) crawl_fails))
       [(received "m7" "rh7" (envelope "y"), healthy)]).1
    (received "m2" "rh2" (requeued "x")) crawl_fails
  = Outcome
      (consumer_run http_url_ok lax_bool_ok
         (seen_after (process_message http_url_ok lax_bool_ok ∅
            (received "m1" "rh1" (envelope "x")) crawl_fails))
         [(received "m7" "rh7" (envelope "y"), healthy)]).1
      [DeleteMessage "rh2"] Returned.
Proof.
  apply (reemission_is_dropped http_url_ok lax_bool_ok ∅
           (received "m1" "rh1" (envelope "x")) crawl_fails
           (envelope "x") (requeued "x") ∅ 2%N
           [(received "m7" "rh7" (envelope "y"), healthy)]
           (received "m2" "rh2" (requeued "x")) crawl_fails).
  - reflexivity.
  - vm_compute. reflexivity.
  - rewrite scenario_first_failure. simpl.
    apply elem_of_cons. right. apply elem_of_cons. right.
    apply elem_of_cons. by left.
  - reflexivity.
Defined.

(** C9 as stated fails: with an empty [id] and no [event_id] the key is
    the provider message id, the re-sent body comes back under a new
    message id, and the handler is started again. *)
Lemma reemission_without_id_is_processed_again :
  effects (process_message http_url_ok lax_bool_ok ∅
             (received "m1" "rh1" (envelope "")) crawl_fails)
  = [Dispatch (KStr "m1") (envelope ""); DeleteMessage "rh1";
     SendMessage (requeued "") ∅ 2] /\
  effects (process_message http_url_ok lax_bool_ok
             (seen_after (process_message http_url_ok lax_bool_ok ∅
                (received "m1" "rh1" (envelope "")) crawl_fails))
             (received "m2" "rh2" (requeued "")) crawl_fails)
  = [Dispatch (KStr "m2") (requeued "")] /\
  dispatched_keys
    (consumer_run http_url_ok lax_bool_ok ∅
       [(received "m1" "rh1" (envelope ""), crawl_fails);
        (received "m2" "rh2" (requeued ""), crawl_fails)]).2
  = [KStr "m1"; KStr "m2"].
Proof. vm_compute. split_and!; reflexivity. Qed.

(* ===================================================================== *)
(** ** The concurrency slot of a dispatched message *)
(* ===================================================================== *)

Lemma count_if_app {A} (f : A -> bool) l1 l2 :
  count_if f (l1 ++ l2) = count_if f l1 + count_if f l2.
Proof. induction l1 as [|x l1 IH]; simpl; [done|]. rewrite IH. lia. Qed.

Lemma count_if_insert {A} (f : A -> bool) l i x y :
  l !! i = Some y ->
  count_if f (<[i := x]> l) + (if f y then 1 else 0)
  = count_if f l + (if f x then 1 else 0).
Proof.
  revert i. induction l as [|z l IH]; intros [|i] H; simpl in *;
    try discriminate.
  - injection H as ->. lia.
  - specialize (IH i H). lia.
Qed.

Section HandleMessageFacts.

Import HandleMessage.

Variable E : Type.

(** C10.  Whatever the settings, however [process_func] ends (it returns,
    raises an exception, or is cancelled) and however the heartbeat ended,
    [_handle_message] releases the slot exactly once, as its last action,
    so the permit taken before the dispatch is given back; and when
    [process_func] returns or raises an [Exception], [_handle_message]
    itself returns normally, also when the heartbeat had failed. *)
Theorem slot_released_exactly_once
    (cfg : settings) (hb : heartbeat_end E) :
  (forall process : completion E,
     releases E (_handle_message E cfg process hb []).1 = 1 /\
     last (_handle_message E cfg process hb []).1 = Some Release /\
     (forall permits,
        permits_after_dispatch E permits cfg process hb = permits)) /\
  (_handle_message E cfg Normal hb []).2 = Normal /\
  (forall e : E,
     (_handle_message E cfg (Abrupt (Exc e)) hb []).2 = Normal).
Proof.
  unfold permits_after_dispatch, _handle_message.
  destruct (opt_truthy (heartbeat_every cfg)),
           (opt_truthy (visibility_timeout cfg)); simpl.
  all: split; [intros [|[e|]]|split; [|intros e]]; destruct hb; simpl.
  all: try reflexivity.
  all: split; [reflexivity|split; [reflexivity|]].
  all: intros permits; unfold releases; simpl; lia.
Qed.

End HandleMessageFacts.

(** An exception raised while a message is processed is logged and goes
    no further. *)
Lemma exception_is_logged {E} (cfg : HandleMessage.settings)
    (hb : HandleMessage.heartbeat_end E) (e : E) :
  exists e', HandleMessage.LogException e'
             ∈ (HandleMessage._handle_message E cfg
                  (HandleMessage.Abrupt (HandleMessage.Exc e)) hb []).1.
Proof.
  unfold HandleMessage._handle_message.
  destruct (HandleMessage.opt_truthy (HandleMessage.heartbeat_every cfg)),
           (HandleMessage.opt_truthy (HandleMessage.visibility_timeout cfg)),
           hb as [|e1]; simpl;
    (exists e + exists e1); set_solver.
Qed.

(* ===================================================================== *)
(** ** One extraction at a time *)
(* ===================================================================== *)

Section CrawlSemaphoreFacts.

Import CrawlSemaphore.

(** The counter and the number of tasks inside the block add up to one. *)
Lemma semaphore_invariant s : reachable s -> extracting s + value s = 1.
Proof.
  induction 1 as [|s s' _ IH Hstep]; [reflexivity|].
  destruct Hstep as [s | s i Hi Hv | s i Hi]; unfold extracting in *; simpl.
  - rewrite count_if_app. simpl. lia.
  - pose proof (count_if_insert is_Extracting _ _ Extracting _ Hi) as H.
    simpl in H. lia.
  - pose proof (count_if_insert is_Extracting _ _ Finished _ Hi) as H.
    simpl in H. lia.
Qed.

(** C4.  In every reachable state of the handler tasks, however many of
    them there are, at most one is inside [crawl_urls]; and while one is,
    no other task can enter the block. *)
Theorem at_most_one_extraction s :
  reachable s ->
  extracting s <= 1 /\
  (extracting s = 1 ->
   forall i s', tasks s !! i = Some Entering ->
                step s s' -> tasks s' !! i = Some Entering).
Proof.
  intros Hr. pose proof (semaphore_invariant s Hr) as Hinv.
  split; [lia|]. intros Hone i s' Hi Hstep.
  destruct Hstep as [s | s j Hj Hv | s j Hj]; simpl.
  - apply lookup_app_l_Some. exact Hi.
  - lia.
  - rewrite list_lookup_insert_ne; [exact Hi|]. intros ->. congruence.
Qed.

End CrawlSemaphoreFacts.

(** Witness of [at_most_one_extraction]: two tasks, the first one inside. *)
Lemma at_most_one_extraction_witness :
  CrawlSemaphore.extracting (CrawlSemaphore.SemState 0 [CrawlSemaphore.Extracting; CrawlSemaphore.Entering]) <= 1.
Proof.
  apply (at_most_one_extraction
           (CrawlSemaphore.SemState 0 [CrawlSemaphore.Extracting; CrawlSemaphore.Entering])).
  apply (CrawlSemaphore.reachable_step
           (CrawlSemaphore.SemState 1 [CrawlSemaphore.Entering; CrawlSemaphore.Entering]));
    [|exact (CrawlSemaphore.step_acquire
               (CrawlSemaphore.SemState 1 [CrawlSemaphore.Entering; CrawlSemaphore.Entering]) 0
               eq_refl (Nat.lt_0_succ 0))].
  apply (CrawlSemaphore.reachable_step (CrawlSemaphore.SemState 1 [CrawlSemaphore.Entering]));
    [|exact (CrawlSemaphore.step_spawn (CrawlSemaphore.SemState 1 [CrawlSemaphore.Entering]))].
  apply (CrawlSemaphore.reachable_step CrawlSemaphore.initial);
    [|exact (CrawlSemaphore.step_spawn CrawlSemaphore.initial)].
  apply CrawlSemaphore.reachable_initial.
Defined.

(* ===================================================================== *)
(** ** The credential refresher *)
(* ===================================================================== *)

Section TokenFacts.

Import BedrockToken.

Lemma exact_refresh_seconds_eq token_expiry :
  exact_refresh_seconds token_expiry = (5 * token_expiry / 6)%Z.
Proof.
  unfold exact_refresh_seconds.
  assert (inject_Z token_expiry - inject_Z token_expiry / 6
          == (5 * token_expiry) # 6)%Q as ->.
  { unfold Qeq, Qminus, Qplus, Qopp, Qdiv, Qmult, Qinv, inject_Z. simpl.
    lia. }
  reflexivity.
Qed.

(** The default expiry of twelve hours. *)
Example REFRESH_SECONDS_default : REFRESH_SECONDS 43200 = Some 36000%Z.
Proof. vm_compute. reflexivity. Qed.

(** Where [float] runs out of precision the source's number is not the
    exact one: at 2^53 + 1 the quotient is exact, the expiry time is
    rounded down to 2^53, and the difference falls on a tie. *)
Example REFRESH_SECONDS_rounds :
  REFRESH_SECONDS (2 ^ 53 + 1) = Some 7505999378950826%Z /\
  exact_refresh_seconds (2 ^ 53 + 1) = 7505999378950827%Z /\
  REFRESH_SECONDS 2702159776422301 = Some 2251799813685251%Z /\
  exact_refresh_seconds 2702159776422301 = 2251799813685250%Z /\
  REFRESH_SECONDS (2 ^ 1024) = None.
Proof. vm_compute. split_and!; reflexivity. Qed.

Lemma all_from_spec f fuel : forall e x,
  all_from f fuel e = true ->
  (e <= x < e + Z.of_nat fuel)%Z -> f x = true.
Proof.
  induction fuel as [|k IH]; intros e x Hall Hx; [lia|].
  cbn [all_from] in Hall. apply andb_prop in Hall as [He Hrest].
  destruct (Z.eq_dec x e) as [->|Hne]; [done|].
  apply (IH (e + 1)%Z); [done|lia].
Qed.

(** Up to the default expiry of twelve hours, which is also the longest
    that the provider grants, the arithmetic of [float] gives the exact
    value of the formula.  Every expiry in the range is evaluated. *)
Lemma REFRESH_SECONDS_exact token_expiry :
  (0 <= token_expiry <= 43200)%Z ->
  REFRESH_SECONDS token_expiry
  = Some (exact_refresh_seconds token_expiry).
Proof.
  intros Hrange.
  assert (all_from readings_agree (Z.to_nat 43201) 0 = true) as Hall
    by (vm_compute; reflexivity).
  pose proof (all_from_spec readings_agree (Z.to_nat 43201) 0 token_expiry
                Hall ltac:(lia)) as Hagree.
  unfold readings_agree in Hagree.
  destruct (REFRESH_SECONDS token_expiry) as [r|]; [|done].
  apply Z.eqb_eq in Hagree. by rewrite exact_refresh_seconds_eq, Hagree.
Qed.

Lemma _run_spec {token} refresh_seconds attempts : forall st : slots token,
  get_bedrock_token (_run refresh_seconds st attempts).1
    = last_obtained (bedrock_api_token st) attempts /\
  (_run refresh_seconds st attempts).2
    = map (nap_after refresh_seconds) attempts.
Proof.
  induction attempts as [|a rest IH]; intros st; simpl; [done|].
  destruct (turn refresh_seconds st a) as [st' nap] eqn:Ht.
  specialize (IH st'). destruct (_run refresh_seconds st' rest) as [st'' naps].
  simpl in *. destruct IH as [-> ->].
  destruct a as [t|]; simpl in Ht; injection Ht as <- <-; done.
Qed.


End TokenFacts.


(* ===================================================================== *)
(** ** The RSS scheduler *)
(* ===================================================================== *)

(* ===================================================================== *)
(** ** The loop over the entries of a feed *)
(* ===================================================================== *)

Section RSSLoopFacts.

Import RSS RSSRun.

Variable valid_http_url : string -> bool.
Variable http_url_str : string -> string.
Variable valid_bool : pyval -> bool.
Variable int_of_str : string -> option Z.
Variable track : bool.

Local Abbreviation loop :=
  (submit_loop valid_http_url http_url_str valid_bool track).
Local Abbreviation submit :=
  (submit_rss_items_to_queue valid_http_url http_url_str valid_bool track).
Local Abbreviation process :=
  (process_task valid_http_url http_url_str valid_bool int_of_str track).
Local Abbreviation wanted := (wanted_link track).
Local Abbreviation is_rejected :=
  (rejected valid_http_url valid_bool track).
Local Abbreviation effects_of := (item_effects http_url_str track).
Local Abbreviation handled_of :=
  (handled valid_http_url valid_bool track).

Lemma mark_url_as_processed_cases table save_ok tid url :
  mark_url_as_processed table save_ok tid url
  = if save_ok && bool_decide (is_Some table)
    then mark_url_as_processed table true tid url else table.
Proof. by destruct table, save_ok. Qed.

Lemma mark_url_as_processed_exists table save_ok tid url :
  bool_decide (is_Some (mark_url_as_processed table save_ok tid url))
  = bool_decide (is_Some table).
Proof. by destruct table, save_ok. Qed.

Lemma handled_all t link_field processed items :
  existsb (is_rejected t link_field processed) items = false ->
  handled_of t link_field processed items = items.
Proof.
  induction items as [|it rest IH]; simpl; [done|].
  destruct (is_rejected t link_field processed it); simpl; [done|].
  intros H. by rewrite IH.
Qed.

Lemma handled_stops t link_field processed items :
  existsb (is_rejected t link_field processed) items = true ->
  exists it rest,
    items = handled_of t link_field processed items ++ it :: rest /\
    is_rejected t link_field processed it = true.
Proof.
  induction items as [|it rest IH]; simpl; [done|].
  destruct (is_rejected t link_field processed it) eqn:Hr; simpl.
  - intros _. by exists it, rest.
  - intros H. destruct (IH H) as (it' & rest' & Heq & Hrej).
    exists it', rest'. split; [by rewrite <- Heq|done].
Qed.

Lemma submit_loop_skip t tid link_field (processed : gset string) io i st
    it rest :
  wanted link_field processed it = None ->
  loop t tid link_field processed io i st (it :: rest)
  = loop t tid link_field processed io (S i) st rest.
Proof.
  unfold wanted_link. cbn [submit_loop].
  destruct (item_link link_field it) as [url|]; [|done].
  destruct (String.eqb url ""); [done|].
  by destruct (track && bool_decide (url ∈ processed)).
Qed.

Lemma submit_loop_reject t tid link_field (processed : gset string) io i st
    it rest url :
  wanted link_field processed it = Some url ->
  crawl_request_valid valid_http_url valid_bool t url = false ->
  loop t tid link_field processed io i st (it :: rest) = inr st.
Proof.
  unfold wanted_link. cbn [submit_loop].
  destruct (item_link link_field it) as [u|]; [|done].
  destruct (String.eqb u ""); [done|].
  destruct (track && bool_decide (u ∈ processed)); [done|].
  intros [= ->] ->. done.
Qed.

Lemma submit_loop_send t tid link_field (processed : gset string) io i st
    it rest url :
  wanted link_field processed it = Some url ->
  crawl_request_valid valid_http_url valid_bool t url = true ->
  exists table',
    bool_decide (is_Some table') = bool_decide (is_Some (table_now st)) /\
    loop t tid link_field processed io i st (it :: rest)
    = loop t tid link_field processed io (S i)
        (LoopState table'
           (done st
              ++ effects_of t tid link_field processed
                   (bool_decide (is_Some (table_now st))) (io i) it)
           (queued_count st
            + count_if is_Enqueued
                (effects_of t tid link_field processed
                   (bool_decide (is_Some (table_now st))) (io i) it)))
        rest.
Proof.
  intros Hw Hv. unfold item_effects. rewrite Hw.
  unfold wanted_link in Hw. cbn [submit_loop].
  destruct (item_link link_field it) as [u|]; [|done].
  destruct (String.eqb u ""); [done|].
  destruct (track && bool_decide (u ∈ processed)); [done|].
  injection Hw as ->. rewrite Hv. cbn [negb].
  destruct (send_succeeds (io i)).
  - destruct track; cbn [andb].
    + exists (mark_url_as_processed (table_now st) (save_succeeds (io i))
                tid url).
      split; [apply mark_url_as_processed_exists|].
      destruct (save_succeeds (io i)
                && bool_decide (is_Some (table_now st)));
        simpl; rewrite <- ?app_assoc, ?app_nil_r; simpl;
        do 2 f_equal; lia.
    + exists (table_now st). split; [done|].
      simpl. do 2 f_equal. lia.
  - exists (table_now st). split; [done|].
    simpl. do 2 f_equal. lia.
Qed.

(** The loop handles the entries one after the other, each with its own
    surroundings, and stops at the first one that is rejected. *)
Lemma submit_loop_run t tid link_field (processed : gset string) io items :
  forall i st,
  exists st',
    loop t tid link_field processed io i st items
    = (if existsb (is_rejected t link_field processed) items
       then inr st' else inl st') /\
    done st'
    = done st
        ++ concat (imap (fun j it =>
                           effects_of t tid link_field processed
                             (bool_decide (is_Some (table_now st)))
                             (io (i + j)) it)
                        (handled_of t link_field processed items)) /\
    queued_count st'
    = queued_count st
      + count_if is_Enqueued
          (concat (imap (fun j it =>
                           effects_of t tid link_field processed
                             (bool_decide (is_Some (table_now st)))
                             (io (i + j)) it)
                        (handled_of t link_field processed items))) /\
    bool_decide (is_Some (table_now st'))
    = bool_decide (is_Some (table_now st)).
Proof.
  induction items as [|it rest IH]; intros i st.
  { exists st. simpl. rewrite app_nil_r. split_and!; [done..|lia|done]. }
  assert (forall ex,
    imap (fun j it0 =>
            effects_of t tid link_field processed ex (io (S i + j)) it0)
         (handled_of t link_field processed rest)
    = imap ((fun j it0 =>
               effects_of t tid link_field processed ex (io (i + j)) it0)
            ∘ S)
           (handled_of t link_field processed rest)) as Himap.
  { intros ex. apply imap_ext. intros j x _. simpl.
    by replace (i + S j) with (S (i + j)) by lia. }
  cbn [existsb handled].
  destruct (wanted link_field processed it) as [url|] eqn:Hw.
  - assert (is_rejected t link_field processed it
            = negb (crawl_request_valid valid_http_url valid_bool t url))
      as -> by (unfold rejected; by rewrite Hw).
    destruct (crawl_request_valid valid_http_url valid_bool t url) eqn:Hv;
      cbn [negb orb].
    + destruct (submit_loop_send t tid link_field processed io i st it rest
                  url Hw Hv) as (table' & Hex & ->).
      destruct (IH (S i)
                  (LoopState table'
                     (done st
                        ++ effects_of t tid link_field processed
                             (bool_decide (is_Some (table_now st)))
                             (io i) it)
                     (queued_count st
                      + count_if is_Enqueued
                          (effects_of t tid link_field processed
                             (bool_decide (is_Some (table_now st)))
                             (io i) it))))
        as (st' & Hl & Hd & Hq & Hex').
      cbn [table_now done queued_count] in Hd, Hq, Hex'.
      rewrite Hex in Hd, Hq. rewrite Himap in Hd, Hq.
      exists st'. split; [done|]. cbn [imap concat].
      replace (i + 0) with i by lia.
      split_and!.
      * by rewrite Hd, app_assoc.
      * rewrite Hq, count_if_app. lia.
      * by rewrite Hex', Hex.
    + rewrite (submit_loop_reject t tid link_field processed io i st it
                 rest url Hw Hv).
      exists st. simpl. rewrite app_nil_r. split_and!; [done..|lia|done].
  - assert (is_rejected t link_field processed it = false)
      as -> by (unfold rejected; by rewrite Hw).
    rewrite (submit_loop_skip t tid link_field processed io i st it rest Hw).
    destruct (IH (S i) st) as (st' & Hl & Hd & Hq & Hex').
    rewrite Himap in Hd, Hq.
    exists st'. split; [done|]. cbn [imap concat orb].
    assert (effects_of t tid link_field processed
              (bool_decide (is_Some (table_now st))) (io (i + 0)) it = [])
      as -> by (unfold item_effects; by rewrite Hw).
    split_and!; done.
Qed.

(** [submit_rss_items_to_queue], entry by entry. *)
Lemma submit_run table t items query_ok io :
  let start :=
    if track then get_processed_urls table query_ok (run_id t)
    else (table, ∅) in
  let r := submit table t items query_ok io in
  r.1.2
  = concat (imap (fun j it =>
                    effects_of t (run_id t) (link_field_of t) start.2
                      (bool_decide (is_Some start.1)) (io j) it)
                 (handled_of t (link_field_of t) start.2 items)) /\
  r.2 = if existsb (is_rejected t (link_field_of t) start.2) items
        then 0 else count_if is_Enqueued r.1.2.
Proof.
  intros start r. subst r. unfold submit_rss_items_to_queue.
  fold (run_id t). fold (link_field_of t). fold start.
  destruct start as [table1 processed].
  destruct (submit_loop_run t (run_id t) (link_field_of t) processed io
              items 0 (LoopState table1 [] 0))
    as (st' & Hl & Hd & Hq & _).
  rewrite Hl. simpl in *.
  destruct (existsb _ items); simpl; rewrite Hd; split; done.
Qed.


End RSSLoopFacts.

Section RSSFacts.

Import RSS.

Variable valid_http_url : string -> bool.
Variable http_url_str : string -> string.
Variable valid_bool : pyval -> bool.
Variable int_of_str : string -> option Z.

Local Abbreviation loop :=
  (submit_loop valid_http_url http_url_str valid_bool true).
Local Abbreviation submit :=
  (submit_rss_items_to_queue valid_http_url http_url_str valid_bool true).

(** With tracking on, entries whose URL was found in the marker table
    when the run began are passed over. *)
Lemma submit_loop_all_processed t tid link_field processed io items :
  (forall it url, it ∈ items -> item_link link_field it = Some url ->
                  url = "" \/ url ∈ processed) ->
  forall i st, loop t tid link_field processed io i st items = inl st.
Proof.
  induction items as [|it rest IH]; intros Hall i st; simpl; [done|].
  assert (forall i st, loop t tid link_field processed io i st rest = inl st)
    as Hrest.
  { apply IH. intros it' url Hin. apply Hall. by apply elem_of_cons; right. }
  destruct (item_link link_field it) as [url|] eqn:Hl; [|apply Hrest].
  destruct (Hall it url) as [-> | Hin]; [by apply elem_of_cons; left|done| |].
  - simpl. apply Hrest.
  - destruct (String.eqb url ""); [apply Hrest|].
    rewrite bool_decide_eq_true_2 by done. simpl. apply Hrest.
Qed.

End RSSFacts.

Import RSS.

(** S4: of three entries the first two are enqueued and marked, and the
    next cycle over the same feed enqueues nothing. *)
Example scenario_feed_cycle :
  let feed := Some [entry "https://e.com/1"; entry "https://e.com/2";
                    entry "https://e.com/3"] in
  let first :=
    tracked_cycle (Some ∅) (feed_task "task" scenario_config)
                  feed true reliable in
  let second :=
    tracked_cycle first.1.1 (feed_task "task" scenario_config)
                  feed true reliable in
  enqueued_urls first.1.2
    = [PStr "https://e.com/1"; PStr "https://e.com/2"] /\
  first.2 = 2 /\
  second.1.2 = [] /\ second.2 = 0.
Proof. vm_compute. split_and!; reflexivity. Qed.

(** C5 (the code at the failing input).  With tracking on and an empty
    marker table, a feed that lists the same URL twice gets that URL
    enqueued twice in one run: the set of processed URLs is read once
    before the loop and is not extended when a marker is written. *)
Theorem duplicate_entry_is_enqueued_twice :
  enqueued_urls
    (tracked_cycle (Some ∅) (feed_task "task" scenario_config)
       (Some [entry "https://e.com/1"; entry "https://e.com/1"])
       true reliable).1.2
  = [PStr "https://e.com/1"; PStr "https://e.com/1"] /\
  (tracked_cycle (Some ∅) (feed_task "task" scenario_config)
     (Some [entry "https://e.com/1"; entry "https://e.com/1"])
     true reliable).2 = 2 /\
  map_to_list <$>
    (tracked_cycle (Some ∅) (feed_task "task" scenario_config)
       (Some [entry "https://e.com/1"; entry "https://e.com/1"])
       true reliable).1.1
  = Some [(("task", "83628d7f26a73e87d7af77830f3b6902"),
           "https://e.com/1")].
Proof. vm_compute. split_and!; reflexivity. Qed.



(* ===================================================================== *)
(** ** Where the crawl outputs are written *)
(* ===================================================================== *)

Lemma string_app_assoc (a b c : string) :
  (a +:+ b) +:+ c = a +:+ (b +:+ c).
Proof.
  induction a as [|x a IH]; [reflexivity|].
  change (String x ((a +:+ b) +:+ c) = String x (a +:+ (b +:+ c))).
  by rewrite IH.
Qed.

Lemma string_app_nil_r (a : string) : a +:+ "" = a.
Proof.
  induction a as [|x a IH]; [reflexivity|].
  change (String x (a +:+ "") = String x a). by rewrite IH.
Qed.

Lemma string_app_nonempty (a b : string) :
  String.eqb (a +:+ "/" +:+ b) "" = false.
Proof. destruct a; reflexivity. Qed.

Section PathFacts.

Import Pathlib.

Lemma split_on_cons sep s : exists w ws, split_on sep s = w :: ws.
Proof.
  induction s as [|c s (w & ws & IH)]; simpl; [by eauto|].
  destruct (Ascii.eqb c sep); [by eauto|]. rewrite IH. by eauto.
Qed.

Lemma split_on_plain_end a : no_slash a = true -> split_on "/" a = [a].
Proof.
  induction a as [|c a IH]; simpl; [done|].
  intros [Hc Ha]%andb_prop. apply negb_true_iff in Hc. rewrite Hc.
  by rewrite (IH Ha).
Qed.

Lemma split_on_plain a rest :
  no_slash a = true ->
  split_on "/" (a +:+ "/" +:+ rest) = a :: split_on "/" rest.
Proof.
  induction a as [|c a IH]; simpl; [done|].
  intros [Hc Ha]%andb_prop. apply negb_true_iff in Hc. rewrite Hc.
  by rewrite (IH Ha).
Qed.

Lemma plain_keep a : plain a = true -> keep a = true.
Proof. by intros [? ?]%andb_prop. Qed.

Lemma plain_no_slash a : plain a = true -> no_slash a = true.
Proof. by intros [? ?]%andb_prop. Qed.

Lemma root_of_plain a rest : plain a = true -> root_of (a +:+ rest) = "".
Proof.
  destruct a as [|c a]; [done|]. intros [_ H]%andb_prop. simpl in H.
  apply andb_prop in H as [Hc _]. apply negb_true_iff in Hc.
  simpl. destruct c as [[] [] [] [] [] [] [] []]; try reflexivity.
  discriminate Hc.
Qed.

(** A string of plain components separated by slashes parses into them. *)
Lemma Path_plain4 a b c d :
  plain a = true -> plain b = true -> plain c = true -> plain d = true ->
  Path (a +:+ "/" +:+ b +:+ "/" +:+ c +:+ "/" +:+ d) = MkPath "" [a; b; c; d].
Proof.
  intros Ha Hb Hc Hd. unfold Path.
  rewrite (root_of_plain a) by done.
  rewrite !split_on_plain, split_on_plain_end by by apply plain_no_slash.
  simpl. by rewrite !plain_keep.
Qed.

Lemma Path_plain2 a b :
  plain a = true -> plain b = true ->
  Path (a +:+ "/" +:+ b) = MkPath "" [a; b].
Proof.
  intros Ha Hb. unfold Path.
  rewrite (root_of_plain a) by done.
  rewrite split_on_plain, split_on_plain_end by by apply plain_no_slash.
  simpl. by rewrite !plain_keep.
Qed.

Lemma Path_plain1 a : plain a = true -> Path a = MkPath "" [a].
Proof.
  intros Ha. unfold Path.
  assert (root_of a = "") as ->.
  { pose proof (root_of_plain a "" Ha) as H.
    by rewrite string_app_nil_r in H. }
  rewrite split_on_plain_end by by apply plain_no_slash.
  simpl. by rewrite plain_keep.
Qed.

Lemma join_slash_snoc ws a :
  ws <> [] -> join_slash (ws ++ [a]) = join_slash ws +:+ "/" +:+ a.
Proof.
  induction ws as [|w ws IH]; [done|]. intros _.
  destruct ws as [|w' ws]; [reflexivity|].
  change (join_slash ((w :: w' :: ws) ++ [a]))
    with (w +:+ "/" +:+ join_slash ((w' :: ws) ++ [a])).
  rewrite IH by done.
  change (join_slash (w :: w' :: ws))
    with (w +:+ "/" +:+ join_slash (w' :: ws)).
  by rewrite !string_app_assoc.
Qed.

Lemma str_parts r ps : ps <> [] -> str (MkPath r ps) = r +:+ join_slash ps.
Proof. destruct ps; [done|]. reflexivity. Qed.

(** Descending by plain components appends them to the text of the path. *)
Lemma str_descend r ps a b :
  ps <> [] ->
  str (MkPath r (ps ++ [a; b])) = str (MkPath r ps) +:+ "/" +:+ a +:+ "/" +:+ b.
Proof.
  intros Hps.
  rewrite !str_parts by (try done; by destruct ps).
  change (ps ++ [a; b]) with (ps ++ [a] ++ [b]). rewrite app_assoc.
  rewrite !join_slash_snoc by (try done; by destruct ps).
  by rewrite !string_app_assoc.
Qed.

End PathFacts.

Section CrawlerFacts.

Import Pathlib Crawler.

Lemma alnum_plain l :
  l <> [] -> forallb alnum l = true -> plain (string_of_list_ascii l) = true.
Proof.
  intros Hne Hall. unfold plain. apply andb_true_intro. split.
  - destruct l as [|c l]; [done|]. simpl in *.
    apply andb_prop in Hall as [Hc _].
    unfold keep. destruct l; simpl; [|by destruct c as [[] [] [] [] [] [] [] []]].
    by destruct c as [[] [] [] [] [] [] [] []].
  - clear Hne. induction l as [|c l IH]; simpl in *; [done|].
    apply andb_prop in Hall as [Hc Hl]. rewrite (IH Hl), andb_true_r.
    by destruct c as [[] [] [] [] [] [] [] []].
Qed.

Lemma uint_digits d :
  forallb alnum (list_ascii_of_string (NilEmpty.string_of_uint d)) = true.
Proof. induction d; simpl; auto. Qed.

Lemma fmt_d_chars n :
  exists l, l <> [] /\ forallb alnum l = true /\
            fmt_d n = string_of_list_ascii l.
Proof.
  unfold fmt_d, NilZero.string_of_uint.
  destruct (N.to_uint n) eqn:Hd.
  1: by exists ["0"%char].
  all: rewrite <- Hd;
    exists (list_ascii_of_string (NilEmpty.string_of_uint (N.to_uint n)));
    rewrite string_of_list_ascii_of_string;
    (split; [by rewrite Hd|split; [apply uint_digits|done]]).
Qed.

Lemma fmt_d_plain n : plain (fmt_d n) = true.
Proof.
  destruct (fmt_d_chars n) as (l & Hne & Hall & ->). by apply alnum_plain.
Qed.

Lemma fmt_02d_plain n : plain (fmt_02d n) = true.
Proof.
  unfold fmt_02d. destruct (n <? 10)%N; [|apply fmt_d_plain].
  destruct (fmt_d_chars n) as (l & Hne & Hall & ->).
  change ("0" +:+ string_of_list_ascii l)
    with (string_of_list_ascii ("0"%char :: l)).
  apply alnum_plain; [done|]. simpl. exact Hall.
Qed.

Lemma hexdigit_alnum n : alnum (MD5.hexdigit n) = true.
Proof.
  unfold MD5.hexdigit.
  generalize (Z.to_nat (n mod 16)). intros k.
  do 16 (destruct k as [|k]; [reflexivity|]). by destruct k.
Qed.

Lemma hex_chars bytes :
  forallb alnum (flat_map MD5.hex_of_byte bytes) = true /\
  length (flat_map MD5.hex_of_byte bytes) = 2 * length bytes.
Proof.
  induction bytes as [|b bytes [IH1 IH2]]; simpl; [done|].
  rewrite !hexdigit_alnum, IH1, IH2. split; [done|lia].
Qed.

Lemma digest_length msg : length (MD5.digest msg) = 16.
Proof. unfold MD5.digest. by destruct (MD5.digest_state msg). Qed.

Lemma forallb_skipn {A} (f : A -> bool) n l :
  forallb f l = true -> forallb f (skipn n l) = true.
Proof.
  revert l. induction n as [|n IH]; intros [|x l]; simpl; try done.
  intros [_ H]%andb_prop. by apply IH.
Qed.

Lemma url_hash8_plain url : plain (url_hash8 url) = true.
Proof.
  unfold url_hash8, last_chars, MD5.hexdigest.
  rewrite list_ascii_of_string_of_list_ascii.
  destruct (hex_chars (MD5.digest (MD5.bytes_of_string url))) as [Hall Hlen].
  rewrite digest_length in Hlen.
  apply alnum_plain.
  - intros Hnil. apply (f_equal length) in Hnil.
    rewrite length_skipn, Hlen in Hnil. simpl in Hnil. lia.
  - by apply forallb_skipn.
Qed.

Lemma url_hash8_length url : String.length (url_hash8 url) = 8.
Proof.
  unfold url_hash8, last_chars, MD5.hexdigest.
  rewrite list_ascii_of_string_of_list_ascii.
  destruct (hex_chars (MD5.digest (MD5.bytes_of_string url))) as [_ Hlen].
  rewrite digest_length in Hlen.
  assert (forall l, String.length (string_of_list_ascii l) = length l) as Hl
    by (induction l as [|c l IH]; simpl; [done|by rewrite IH]).
  rewrite Hl, length_skipn, Hlen. reflexivity.
Qed.

Lemma Path_relative_path today url :
  Path (relative_path today url)
  = MkPath "" [fmt_d (year today); fmt_02d (month today);
               fmt_02d (day today); url_hash8 url].
Proof.
  unfold relative_path.
  apply Path_plain4; auto using fmt_d_plain, fmt_02d_plain, url_hash8_plain.
Qed.

Lemma Path_file_name name :
  name ∈ file_names -> Path name = MkPath "" [name].
Proof.
  unfold file_names. intros H. decompose_list_elem_of; subst; reflexivity.
Qed.

(** The local file [name] of a crawl. *)
Lemma local_file base id today url name :
  name ∈ file_names ->
  local (handler_save_location base id) today url name
  = [LocalFile
       (str (MkPath (root (Path (base +:+ "/" +:+ id)))
               (parts (Path (base +:+ "/" +:+ id))
                  ++ [fmt_d (year today); fmt_02d (month today);
                      fmt_02d (day today)]))
        +:+ "/" +:+ url_hash8 url +:+ "/" +:+ name)].
Proof.
  intros Hname. unfold local, save_dir, handler_save_location.
  rewrite string_app_nonempty.
  unfold joinpath at 2. rewrite Path_relative_path. simpl.
  unfold joinpath. rewrite (Path_file_name name Hname). simpl.
  set (ps := List.filter keep (split_on "/" (base +:+ "/" +:+ id))).
  rewrite <- (str_descend _
                (ps ++ [fmt_d (year today); fmt_02d (month today);
                        fmt_02d (day today)]))
    by by destruct ps.
  by rewrite <- !app_assoc.
Qed.

(** The object [name] of a crawl. *)
Lemma remote_object base id today url store name o :
  o ∈ remote (handler_save_location base id) today url store name ->
  o = S3Object
        (base +:+ "/" +:+ id +:+ "/" +:+ fmt_d (year today) +:+ "/"
           +:+ fmt_02d (month today) +:+ "/" +:+ fmt_02d (day today)
           +:+ "/" +:+ url_hash8 url +:+ "/" +:+ name).
Proof.
  unfold remote, handler_save_location, relative_path.
  destruct (_ && _); [|by intros ?%elem_of_nil].
  intros ->%list_elem_of_singleton. by rewrite !string_app_assoc.
Qed.

(** Where the outputs of the crawl of one URL are placed. *)
Lemma crawl_outputs_placed
    base id today url store p outs o :
  crawl_outputs (handler_save_location base id) today url store p
    = Some outs ->
  o ∈ outs ->
  String.length (url_hash8 url) = 8 /\
  url_hash8 url = last_chars 8 (MD5.hexdigest url) /\
  exists name, name ∈ file_names /\
    (o = S3Object
           (base +:+ "/" +:+ id +:+ "/" +:+ fmt_d (year today) +:+ "/"
              +:+ fmt_02d (month today) +:+ "/" +:+ fmt_02d (day today)
              +:+ "/" +:+ url_hash8 url +:+ "/" +:+ name) \/
     o = LocalFile
           (str (MkPath (root (Path (base +:+ "/" +:+ id)))
                   (parts (Path (base +:+ "/" +:+ id))
                      ++ [fmt_d (year today); fmt_02d (month today);
                          fmt_02d (day today)]))
            +:+ "/" +:+ url_hash8 url +:+ "/" +:+ name)).
Proof.
  intros Hout Ho. split; [apply url_hash8_length|]. split; [reflexivity|].
  unfold crawl_outputs in Hout.
  destruct (success p); cbn [negb] in Hout; [|discriminate].
  apply (inj Some) in Hout. subst outs.
  assert (forall name, name ∈ file_names ->
            o ∈ local (handler_save_location base id) today url name
            ∨ o ∈ remote (handler_save_location base id) today url store name
            -> exists name, name ∈ file_names /\
                 (o = S3Object
                        (base +:+ "/" +:+ id +:+ "/" +:+ fmt_d (year today)
                           +:+ "/" +:+ fmt_02d (month today) +:+ "/"
                           +:+ fmt_02d (day today) +:+ "/" +:+ url_hash8 url
                           +:+ "/" +:+ name) \/
                  o = LocalFile
                        (str (MkPath (root (Path (base +:+ "/" +:+ id)))
                                (parts (Path (base +:+ "/" +:+ id))
                                   ++ [fmt_d (year today);
                                       fmt_02d (month today);
                                       fmt_02d (day today)]))
                         +:+ "/" +:+ url_hash8 url +:+ "/" +:+ name)))
    as Hcase.
  { intros name Hname [Hl|Hr]; exists name; (split; [done|]).
    - right. rewrite local_file in Hl by done.
      by apply list_elem_of_singleton in Hl.
    - left. by eapply remote_object. }
  repeat (apply elem_of_app in Ho as [Ho|Ho]).
  - destruct (extracted p) as [| | |has_body].
    + apply (Hcase "raw_extracted.txt"); [unfold file_names; set_solver|].
      by left.
    + apply (Hcase "raw_extracted.txt"); [unfold file_names; set_solver|].
      by left.
    + repeat (apply elem_of_app in Ho as [Ho|Ho]).
      * apply (Hcase "article.json"); [unfold file_names; set_solver|].
        by left.
      * apply (Hcase "article.json"); [unfold file_names; set_solver|].
        by right.
      * apply (Hcase "article.txt"); [unfold file_names; set_solver|].
        by left.
      * apply (Hcase "raw_extracted.txt"); [unfold file_names; set_solver|].
        by left.
    + repeat (apply elem_of_app in Ho as [Ho|Ho]).
      * apply (Hcase "article.json"); [unfold file_names; set_solver|].
        by left.
      * apply (Hcase "article.json"); [unfold file_names; set_solver|].
        by right.
      * apply (Hcase "article.txt"); [unfold file_names; set_solver|].
        by left.
      * destruct has_body; [|by apply elem_of_nil in Ho].
        apply (Hcase "article.txt"); [unfold file_names; set_solver|].
        by right.
  - destruct (completes (extracted p) && pdf p);
      [|by apply elem_of_nil in Ho].
    apply elem_of_app in Ho as [Ho|Ho];
      (apply (Hcase "article.pdf"); [unfold file_names; set_solver|]);
      [by left|by right].
Qed.

(** C6 (amended).  Let u be the URL that the handler hands to the crawler
    for a validated envelope with id [id]: pydantic's rendering of the
    envelope's [url].  Every output of a successful crawl of u is one of
    the four file names inside a directory named after the last 8 hex
    characters of MD5(u): an uploaded object has the key
    [{base}/{id}/{YYYY}/{MM}/{DD}/{hash8}/{name}], a local file has that
    path with [{base}/{id}] as pathlib normalises it.  The second component
    is the job's envelope id, not the feed task's id. *)
Theorem outputs_live_under_hash_directory
    http_url_str base payload id url today store p outs o :
  payload !! "id" = Some (PStr id) ->
  payload !! "url" = Some (PStr url) ->
  handler_crawl_outputs http_url_str base payload today store p
    = Some outs ->
  o ∈ outs ->
  String.length (url_hash8 (http_url_str url)) = 8 /\
  url_hash8 (http_url_str url)
    = last_chars 8 (MD5.hexdigest (http_url_str url)) /\
  exists name, name ∈ file_names /\
    (o = S3Object
           (base +:+ "/" +:+ id +:+ "/" +:+ fmt_d (year today) +:+ "/"
              +:+ fmt_02d (month today) +:+ "/" +:+ fmt_02d (day today)
              +:+ "/" +:+ url_hash8 (http_url_str url) +:+ "/" +:+ name) \/
     o = LocalFile
           (str (MkPath (root (Path (base +:+ "/" +:+ id)))
                   (parts (Path (base +:+ "/" +:+ id))
                      ++ [fmt_d (year today); fmt_02d (month today);
                          fmt_02d (day today)]))
            +:+ "/" +:+ url_hash8 (http_url_str url) +:+ "/" +:+ name)).
Proof.
  intros Hid Hurl Hout Ho. unfold handler_crawl_outputs in Hout.
  rewrite Hid, Hurl in Hout.
  exact (crawl_outputs_placed base id today (http_url_str url) store p
           outs o Hout Ho).
Qed.

(** For a base directory and an envelope id that are plain path
    components, the local directory is the same as the object prefix. *)
Lemma local_directory_plain base id today :
  plain base = true -> plain id = true ->
  str (MkPath (root (Path (base +:+ "/" +:+ id)))
         (parts (Path (base +:+ "/" +:+ id))
            ++ [fmt_d (year today); fmt_02d (month today);
                fmt_02d (day today)]))
  = base +:+ "/" +:+ id +:+ "/" +:+ fmt_d (year today) +:+ "/"
      +:+ fmt_02d (month today) +:+ "/" +:+ fmt_02d (day today).
Proof.
  intros Hb Hi. rewrite Path_plain2 by done. reflexivity.
Qed.

End CrawlerFacts.

(** S1: the outputs of a successful crawl of a scheduler-produced job. *)
Example scenario_outputs :
  Crawler.handler_crawl_outputs (fun u => u) "crawled"
    (RSS.crawl_request (fun u => u)
       (RSS.feed_task "task" ∅) "task" "https://e.com/1")
    (Crawler.Date 2025 9 11)
    (Crawler.Storage "bucket" (fun _ => true))
    (Crawler.Page true (Crawler.Article true) false)
  = Some
      [Crawler.LocalFile
         "crawled/task-0f3b6902/2025/09/11/0f3b6902/article.json";
       Crawler.S3Object
         "crawled/task-0f3b6902/2025/09/11/0f3b6902/article.json";
       Crawler.LocalFile
         "crawled/task-0f3b6902/2025/09/11/0f3b6902/article.txt";
       Crawler.S3Object
         "crawled/task-0f3b6902/2025/09/11/0f3b6902/article.txt"].
Proof. vm_compute. reflexivity. Qed.

(** Witness of [outputs_live_under_hash_directory]: the job that the
    scheduler builds for a feed entry whose link pydantic renders with an
    added path.  The id ends in the digest of the link, the directory is
    named after the digest of the rendering. *)
Lemma outputs_live_under_hash_directory_witness :
  String.length (url_hash8 (RSSRun.rendered "https://e.com/")) = 8 /\
  url_hash8 (RSSRun.rendered "https://e.com/")
    = last_chars 8 (MD5.hexdigest (RSSRun.rendered "https://e.com/")) /\
  exists name, name ∈ Crawler.file_names /\
    (Crawler.S3Object
       "crawled/task-2fa8cfae/2025/09/11/891e7757/article.json"
     = Crawler.S3Object
         ("crawled" +:+ "/" +:+ "task-2fa8cfae" +:+ "/"
            +:+ Crawler.fmt_d 2025 +:+ "/" +:+ Crawler.fmt_02d 9 +:+ "/"
            +:+ Crawler.fmt_02d 11 +:+ "/"
            +:+ url_hash8 (RSSRun.rendered "https://e.com/")
            +:+ "/" +:+ name) \/
     Crawler.S3Object
       "crawled/task-2fa8cfae/2025/09/11/891e7757/article.json"
     = Crawler.LocalFile
         (Pathlib.str
            (Pathlib.MkPath
               (Pathlib.root
                  (Pathlib.Path ("crawled" +:+ "/" +:+ "task-2fa8cfae")))
               (Pathlib.parts
                  (Pathlib.Path ("crawled" +:+ "/" +:+ "task-2fa8cfae"))
                  ++ [Crawler.fmt_d 2025; Crawler.fmt_02d 9;
                      Crawler.fmt_02d 11]))
          +:+ "/" +:+ url_hash8 (RSSRun.rendered "https://e.com/")
          +:+ "/" +:+ name)).
Proof.
  apply (outputs_live_under_hash_directory RSSRun.rendered
           "crawled"
           (RSS.crawl_request RSSRun.rendered (RSS.feed_task "task" ∅)
              "task" "https://e.com")
           "task-2fa8cfae" "https://e.com/" (Crawler.Date 2025 9 11)
           (Crawler.Storage "bucket" (fun _ => true))
           (Crawler.Page true (Crawler.Article true) false)
           [Crawler.LocalFile
              "crawled/task-2fa8cfae/2025/09/11/891e7757/article.json";
            Crawler.S3Object
              "crawled/task-2fa8cfae/2025/09/11/891e7757/article.json";
            Crawler.LocalFile
              "crawled/task-2fa8cfae/2025/09/11/891e7757/article.txt";
            Crawler.S3Object
              "crawled/task-2fa8cfae/2025/09/11/891e7757/article.txt"]).
  - vm_compute. reflexivity.
  - vm_compute. reflexivity.
  - vm_compute. reflexivity.
  - apply elem_of_cons. right. apply elem_of_cons. by left.
Defined.

(** C6 as stated fails: the job that the scheduler enqueues for feed task
    ["task"] and URL u has the envelope id ["task-" + hash8(u)], and the
    handler writes under that id; no output lies in the directory
    [{base}/{task_id}/{YYYY}/{MM}/{DD}/{hash8}/]. *)
Lemma outputs_are_filed_under_envelope_id :
  RSS.crawl_request (fun u => u) (RSS.feed_task "task" ∅)
    "task" "https://e.com/1" !! "id"
  = Some (PStr "task-0f3b6902") /\
  Crawler.handler_crawl_outputs (fun u => u) "crawled"
    (RSS.crawl_request (fun u => u)
       (RSS.feed_task "task" ∅) "task" "https://e.com/1")
    (Crawler.Date 2025 9 11)
    (Crawler.Storage "bucket" (fun _ => true))
    (Crawler.Page true (Crawler.Article false) false)
  = Some
      [Crawler.LocalFile
         "crawled/task-0f3b6902/2025/09/11/0f3b6902/article.json";
       Crawler.S3Object
         "crawled/task-0f3b6902/2025/09/11/0f3b6902/article.json";
       Crawler.LocalFile
         "crawled/task-0f3b6902/2025/09/11/0f3b6902/article.txt"] /\
  Crawler.documented_directory "crawled" "task" (Crawler.Date 2025 9 11)
    "https://e.com/1"
  = "crawled/task/2025/09/11/0f3b6902/".
Proof. vm_compute. split_and!; reflexivity. Qed.

(** The end of a scheduled id is the digest of the link as the feed gives
    it, the directory is named after the digest of the URL as pydantic
    renders it: for a link without path the two differ. *)
Example rendered_link_changes_directory :
  RSS.crawl_request RSSRun.rendered (RSS.feed_task "task" ∅)
    "task" "https://e.com" !! "id"
  = Some (PStr "task-2fa8cfae") /\
  url_hash8 "https://e.com" = "2fa8cfae" /\
  url_hash8 (RSSRun.rendered "https://e.com") = "891e7757" /\
  Crawler.handler_crawl_outputs RSSRun.rendered "crawled"
    (RSS.crawl_request RSSRun.rendered (RSS.feed_task "task" ∅)
       "task" "https://e.com")
    (Crawler.Date 2025 9 11)
    (Crawler.Storage "" (fun _ => true))
    (Crawler.Page true (Crawler.Article false) false)
  = Some
      [Crawler.LocalFile
         "crawled/task-2fa8cfae/2025/09/11/891e7757/article.json";
       Crawler.LocalFile
         "crawled/task-2fa8cfae/2025/09/11/891e7757/article.txt"].
Proof. vm_compute. split_and!; reflexivity. Qed.

(* ===================================================================== *)
(** * Further properties of the modelled code *)
(* ===================================================================== *)

(** ** message_processor.py: what [process_message] does and never does *)

Section ProcessMessageFacts.

Variable valid_http_url : string -> bool.
Variable valid_bool : pyval -> bool.

Local Abbreviation validate :=
  (CrawlRequest_validate valid_http_url valid_bool).
Local Abbreviation handler :=
  (handle_crawl_single_url valid_http_url valid_bool).
Local Abbreviation PM := (process_message valid_http_url valid_bool).
Local Abbreviation run := (consumer_run valid_http_url valid_bool).

Local Abbreviation accepted := (accepted valid_http_url valid_bool).

Lemma accepted_dec msg :
  (exists b k, accepted msg b k) \/
  (forall seen e,
     PM seen msg e = Outcome seen [] Returned \/
     PM seen msg e = Outcome seen [] (Raised ValidationError) \/
     PM seen msg e = Outcome seen [] (Raised TypeError)).
Proof.
  unfold accepted, process_message.
  destruct (Body msg) as [|body|v]; [right; auto| |right; auto].
  destruct (validate body) eqn:Hv; [|right; auto].
  destruct (py_hash_key (envelope_key body msg)) as [k|] eqn:Hk;
    [|right; auto].
  left. by exists body, k.
Qed.

(** X1.  A message that is not JSON is dropped silently; one that does not
    validate, or whose key cannot be hashed, makes [process_message] raise;
    in none of these cases is the queue called or the idempotency set
    changed.  Conversely, any queue call or any change of the set means
    that the message carried a valid envelope. *)
Theorem rejected_message_is_untouched seen msg e :
  (Body msg = BadJson -> PM seen msg e = Outcome seen [] Returned) /\
  (forall b, Body msg = JsonObject b -> validate b = false ->
     PM seen msg e = Outcome seen [] (Raised ValidationError)) /\
  (forall b, Body msg = JsonObject b -> validate b = true ->
     py_hash_key (envelope_key b msg) = None ->
     PM seen msg e = Outcome seen [] (Raised TypeError)) /\
  (effects (PM seen msg e) <> [] \/ seen_after (PM seen msg e) <> seen ->
   exists b k, accepted msg b k).
Proof.
  split_and!.
  - intros H. unfold process_message. by rewrite H.
  - intros b H Hv. unfold process_message. by rewrite H, Hv.
  - intros b H Hv Hk. unfold process_message. by rewrite H, Hv, Hk.
  - intros Hch. destruct (accepted_dec msg) as [Ha|Hr]; [done|].
    destruct (Hr seen e) as [H | [H | H]]; rewrite H in Hch; simpl in Hch;
      tauto.
Qed.

Lemma accepted_claims seen msg e b k :
  accepted msg b k -> k ∈ seen_after (PM seen msg e).
Proof.
  intros (Hb & Hv & Hk). unfold process_message, claim.
  rewrite Hb, Hv, Hk. simpl.
  destruct (decide (k ∈ seen)) as [Hin|Hnin]; simpl; [done|].
  destruct (lookup_handler _ _ _); [destruct (after_handler _ _ _)|];
    simpl; set_solver.
Qed.

(** X2.  Once a valid message has been processed, however that ended
    (success, retryable or non-retryable failure, an exception, no handler
    for its type), every later delivery of the same message to the same
    process is answered by deleting it, and no handler is started: a
    message that was left in flight for the redrive policy is deleted when
    it is delivered again. *)
Theorem redelivery_is_deleted seen msg e b k between e2 :
  accepted msg b k ->
  let seen2 := (run (seen_after (PM seen msg e)) between).1 in
  PM seen2 msg e2 =
    Outcome seen2 [DeleteMessage (ReceiptHandle msg)]
            (adapter_result (delete_ok e2)).
Proof.
  intros Ha seen2. pose proof Ha as (Hb & Hv & Hk).
  eapply process_message_duplicate; [done..|].
  subst seen2.
  destruct (consumer_run_invariant valid_http_url valid_bool between
              (seen_after (PM seen msg e))) as (Hsub & _).
  apply Hsub. by eapply accepted_claims.
Qed.

(** X3.  The queue calls of one [process_message] are, in this order: at
    most one delete, then at most one send, then at most one visibility
    change; a send is always preceded by a delete, a visibility change
    happens only after a delete, and every call is made on the receipt
    handle of the message itself. *)
Theorem queue_calls_shape seen msg e :
  exists body delay,
    let rh := ReceiptHandle msg in
    let attrs := MessageAttributes msg in
    queue_calls (effects (PM seen msg e)) = []
    \/ queue_calls (effects (PM seen msg e)) = [DeleteMessage rh]
    \/ queue_calls (effects (PM seen msg e))
       = [DeleteMessage rh; SendMessage body attrs delay]
    \/ queue_calls (effects (PM seen msg e))
       = [DeleteMessage rh; SendMessage body attrs delay;
          ChangeVisibility rh delay]
    \/ queue_calls (effects (PM seen msg e))
       = [DeleteMessage rh; ChangeVisibility rh delay].
Proof.
  unfold process_message, claim.
  destruct (Body msg) as [|b|v]; simpl;
    [exists ∅, 0%N; auto| |exists ∅, 0%N; auto].
  destruct (validate b); simpl; [|exists ∅, 0%N; auto].
  destruct (py_hash_key _) as [k|]; simpl; [|exists ∅, 0%N; auto].
  destruct (decide (k ∈ seen)); simpl; [exists ∅, 0%N; auto|].
  destruct (lookup_handler _ _ _) as [h|]; simpl; [|exists ∅, 0%N; auto].
  unfold after_handler, requeue.
  destruct (h b (crawl_succeeds e)) as [b' [|x]]; simpl;
    [exists ∅, 0%N; auto|].
  exists b', (compute_backoff_seconds (get_receive_count msg)).
  destruct x; simpl; auto.
  destruct (delete_ok e), (send_ok e); simpl; auto 6.
Qed.

Lemma handler_outcomes b ok :
  (handler b ok).2 = Returned \/
  (handler b ok).2 = Raised RetryableError \/
  (handler b ok).2 = Raised NonRetryableError \/
  (handler b ok).2 = Raised TypeError.
Proof.
  unfold handle_crawl_single_url.
  destruct (validate b && ok); simpl; [auto|].
  destruct (py_int_value _) as [rc|]; simpl; [|auto].
  destruct (rc <? 1)%Z; simpl; auto.
Qed.

(** X4.  [process_message] never lets a [RetryableError] out, and when the
    queue calls succeed it ends in one of four ways only: it returns, or
    raises the validation error, a [TypeError], or the [NonRetryableError]
    for a type without handler; the latter leaves no trace but the claimed
    key. *)
Theorem exceptions_that_escape seen msg e :
  ended (PM seen msg e) <> Raised RetryableError /\
  (delete_ok e = true -> send_ok e = true \/ visibility_ok e = true ->
   ended (PM seen msg e) <> Raised AdapterError) /\
  (ended (PM seen msg e) = Raised NonRetryableError ->
   effects (PM seen msg e) = [] /\
   exists b k, accepted msg b k /\
               lookup_handler valid_http_url valid_bool (py_get b "type")
               = None).
Proof.
  unfold process_message, claim, accepted.
  destruct (Body msg) as [|b|v]; simpl; try (split_and!; congruence).
  destruct (validate b) eqn:Hv; simpl; try (split_and!; congruence).
  destruct (py_hash_key _) as [k|] eqn:Hk; simpl;
    try (split_and!; congruence).
  destruct (decide (k ∈ seen)); simpl.
  { split_and!; try (destruct (delete_ok e); simpl; congruence). }
  destruct (lookup_handler _ _ _) as [h|] eqn:Hh; simpl.
  2:{ split_and!; try congruence. intros _. split; [done|].
      by exists b, k. }
  apply lookup_handler_Some in Hh as [_ ->].
  destruct (handler_outcomes b (crawl_succeeds e)) as [Hr|[Hr|[Hr|Hr]]];
    unfold after_handler, requeue; rewrite Hr; simpl.
  - split_and!; try (destruct (delete_ok e); simpl; congruence).
  - destruct (delete_ok e), (send_ok e), (visibility_ok e); simpl;
      split_and!; try congruence; intros ? [?|?]; congruence.
  - split_and!; congruence.
  - split_and!; congruence.
Qed.

(** X5.  The idempotency set only grows, by at most one key per message;
    after any run it has at most as many new keys as messages were
    received. *)
Theorem idempotency_set_growth seen msg e inputs :
  seen ⊆ seen_after (process_message valid_http_url valid_bool seen msg e) /\
  size (seen_after (process_message valid_http_url valid_bool seen msg e))
    <= size seen + 1 /\
  seen ⊆ (consumer_run valid_http_url valid_bool seen inputs).1 /\
  size (consumer_run valid_http_url valid_bool seen inputs).1
    <= size seen + length inputs.
Proof.
  assert (forall seen msg e,
            size (seen_after (PM seen msg e)) <= size seen + 1) as Hone.
  { clear. intros seen msg e. unfold process_message, claim.
    destruct (Body msg) as [|b|v]; simpl; try lia.
    destruct (validate b); simpl; try lia.
    destruct (py_hash_key _) as [k|]; simpl; try lia.
    destruct (decide (k ∈ seen)) as [Hin|Hnin]; simpl; try lia.
    assert (size ({[k]} ∪ seen) = 1 + size seen) as Hsz
      by (rewrite size_union by set_solver; by rewrite size_singleton).
    destruct (lookup_handler _ _ _);
      [destruct (after_handler _ _ _)|]; simpl; lia. }
  split; [apply process_message_mono|]. split; [apply Hone|].
  split; [apply (consumer_run_invariant _ _ inputs seen)|].
  clear msg e. revert seen.
  induction inputs as [|[msg e] rest IH]; intros seen; simpl; [lia|].
  specialize (IH (seen_after (PM seen msg e))).
  destruct (run (seen_after (PM seen msg e)) rest) as [s effs]. simpl in *.
  pose proof (Hone seen msg e). lia.
Qed.

(** X6.  The handler changes the payload only when it raises
    [RetryableError], and then only the fields [retry_count] and [retry];
    the payload stays valid; and the handler returns exactly when the
    payload validates and the crawl succeeds. *)
Theorem handler_touches_only_retry_fields payload ok :
  let r := handle_crawl_single_url valid_http_url valid_bool payload ok in
  (forall f, f <> "retry_count" -> f <> "retry" ->
     r.1 !! f = payload !! f) /\
  (r.2 <> Raised RetryableError -> r.1 = payload) /\
  CrawlRequest_validate valid_http_url valid_bool r.1
  = CrawlRequest_validate valid_http_url valid_bool payload /\
  (r.2 = Returned <->
   CrawlRequest_validate valid_http_url valid_bool payload = true /\
   ok = true).
Proof.
  intros r. subst r. unfold handle_crawl_single_url.
  destruct (validate payload) eqn:Hv, ok; simpl;
    try (split_and!; [done|done|done|naive_solver]).
  all: destruct (py_int_value _) as [rc|]; simpl;
    try (split_and!; [done|done|done|naive_solver]).
  all: destruct (rc <? 1)%Z; simpl;
    try (split_and!; [done|done|done|naive_solver]).
  all: split_and!;
    [intros f ? ?; by rewrite !lookup_insert_ne|done
    |by rewrite !validate_insert|naive_solver].
Qed.

(** X7.  When the crawl of a dispatched message fails and the envelope's
    [retry_count] is not a number (a string, null, a list), the comparison
    in the handler raises [TypeError]: [process_message] raises it too, and
    the message is neither deleted nor re-sent nor is its visibility
    changed. *)
Theorem non_numeric_retry_count_raises seen msg e b k v :
  accepted msg b k -> k ∉ seen ->
  py_get b "type" = PStr "crawl-single-url" ->
  crawl_succeeds e = false ->
  b !! "retry_count" = Some v -> py_int_value v = None ->
  PM seen msg e =
    Outcome ({[k]} ∪ seen) [Dispatch k b] (Raised TypeError).
Proof.
  intros (Hb & Hv & Hk) Hs Ht Hc Hrc Hnum.
  rewrite (process_message_fresh _ _ seen msg e b k) by done.
  rewrite Hc, handler_failure, Hrc. simpl. rewrite Hnum. reflexivity.
Qed.

End ProcessMessageFacts.

(** X8.  The backoff delay lies between 1 and 256 seconds, so the cap of
    900 seconds is never reached; it is 2^r for a receive count r up to 8
    and 256 from there on, it never decreases when the receive count grows,
    and it is 2 seconds when the provider reports no usable receive
    count. *)
Theorem backoff_bounds (r r' : N) (msg : message) :
  (1 <= compute_backoff_seconds r <= 256)%N /\
  ((r <= 8)%N -> compute_backoff_seconds r = (2 ^ r)%N) /\
  ((8 <= r)%N -> compute_backoff_seconds r = 256%N) /\
  ((r <= r')%N ->
   (compute_backoff_seconds r <= compute_backoff_seconds r')%N) /\
  (ApproximateReceiveCount msg = AttrAbsent \/
   ApproximateReceiveCount msg = AttrInvalid ->
   compute_backoff_seconds (get_receive_count msg) = 2%N).
Proof.
  unfold compute_backoff_seconds.
  assert (forall a b, (a <= b)%N ->
            (2 ^ N.min a 8 <= 2 ^ N.min b 8)%N) as Hmono
    by (intros; apply N.pow_le_mono_r; lia).
  pose proof (Hmono r 8%N) as H8. pose proof (Hmono 0%N r) as H0.
  change (2 ^ N.min 8 8)%N with 256%N in H8.
  change (2 ^ N.min 0 8)%N with 1%N in H0.
  split_and!.
  - assert (2 ^ N.min r 8 <= 256)%N.
    { destruct (N.le_ge_cases r 8); [apply H8; lia|].
      rewrite N.min_r by lia. by vm_compute. }
    lia.
  - assert (2 ^ N.min r 8 <= 256)%N.
    { destruct (N.le_ge_cases r 8); [apply H8; lia|].
      rewrite N.min_r by lia. by vm_compute. }
    lia.
  - intros Hr. rewrite (N.min_l r 8) by done.
    assert (2 ^ r <= 2 ^ 8)%N by (apply N.pow_le_mono_r; lia).
    change (2 ^ 8)%N with 256%N in *. lia.
  - intros Hr. rewrite (N.min_r r 8) by done. reflexivity.
  - intros Hr. specialize (Hmono r r' Hr). lia.
  - unfold get_receive_count. intros [-> | ->]; reflexivity.
Qed.

(* ===================================================================== *)
(** ** sqs_utils.py and s3_utils.py *)
(* ===================================================================== *)

Section BotoFacts.

Import Boto.

(** X9.  Whatever [max_number] and [wait_time] the caller passes,
    [receive_messages] asks for between 1 and 10 messages and waits between
    0 and 20 seconds; values inside these ranges are passed on unchanged;
    and the list of message attribute names is never empty. *)
Theorem receive_request_is_clamped
    max_number wait_time visibility_timeout attribute_names
    message_attribute_names :
  let r := receive_messages_request max_number wait_time visibility_timeout
             attribute_names message_attribute_names in
  (1 <= MaxNumberOfMessages r <= 10)%Z /\
  (0 <= WaitTimeSeconds r <= 20)%Z /\
  ((1 <= max_number <= 10)%Z -> MaxNumberOfMessages r = max_number) /\
  ((0 <= wait_time <= 20)%Z -> WaitTimeSeconds r = wait_time) /\
  MessageAttributeNames r <> [] /\
  AttributeNames r <> Some [].
Proof.
  simpl. split_and!; try lia.
  - destruct message_attribute_names as [[|x l]|]; simpl; done.
  - destruct attribute_names as [[|x l]|]; simpl; done.
Qed.

Lemma take_plus {A} (l : list A) a b :
  take (a + b) l = take a l ++ take b (drop a l).
Proof.
  revert l. induction a as [|a IH]; intros [|x l]; simpl; try done.
  - by rewrite take_nil.
  - by rewrite IH.
Qed.

Lemma concat_slices {A} (l : list A) n m : forall s,
  concat (map (fun i => slice l i (i + n)) (map (fun j => j * n) (seq s m)))
  = take (m * n) (drop (s * n) l).
Proof.
  induction m as [|m IH]; intros s; simpl; [done|].
  rewrite IH. unfold slice.
  replace (s * n + n - s * n) with n by lia.
  rewrite take_plus, drop_drop. do 3 f_equal. lia.
Qed.

Lemma div_ceil_bounds len n :
  0 < n ->
  len <= (len + n - 1) / n * n /\ ((len + n - 1) / n - 1) * n < len + 0
  \/ len = 0 /\ (len + n - 1) / n = 0.
Proof.
  intros Hn. destruct (decide (len = 0)) as [->|Hne].
  - right. split; [done|]. apply Nat.div_small. lia.
  - left. pose proof (Nat.div_mod (len + n - 1) n ltac:(lia)) as Hdm.
    pose proof (Nat.mod_upper_bound (len + n - 1) n ltac:(lia)) as Hub.
    split; nia.
Qed.

Lemma batches_concat {A} (n : nat) (l : list A) :
  0 < n -> concat (batches n l) = l.
Proof.
  intros Hn. unfold batches, range_step.
  pose proof (div_ceil_bounds (length l) n Hn) as Hb.
  rewrite (concat_slices l n _ 0). simpl. rewrite drop_0.
  apply take_ge. lia.
Qed.

Lemma batches_lengths {A} (n : nat) (l : list A) :
  0 < n -> Forall (fun chunk => 1 <= length chunk <= n) (batches n l).
Proof.
  intros Hn. unfold batches, range_step.
  pose proof (div_ceil_bounds (length l) n Hn) as Hb.
  apply Forall_forall. intros chunk Hin.
  apply list_elem_of_fmap in Hin as (i & -> & Hi).
  apply list_elem_of_fmap in Hi as (j & -> & Hj).
  apply elem_of_seq in Hj. unfold slice.
  rewrite length_take, length_drop.
  replace (j * n + n - j * n) with n by lia.
  destruct Hb as [[Hb1 Hb2]|[Hb1 Hb2]]; [|lia].
  assert (j * n < length l) by nia. lia.
Qed.

(** X10.  Batching loses nothing and invents nothing: the chunks, put
    together in order, are the input list; every chunk has between 1 and n
    elements; there are ceil(len/n) chunks, hence no request for an empty
    list.  This holds for [send_messages_batch] (n = 10) and
    [delete_objects_batch] (n = 1000). *)
Theorem batches_partition {A} (n : nat) (l : list A) :
  0 < n ->
  concat (batches n l) = l /\
  Forall (fun chunk => 1 <= length chunk <= n) (batches n l) /\
  length (batches n l) = (length l + n - 1) / n /\
  (l = [] -> batches n l = []).
Proof.
  intros Hn.
  split; [by apply batches_concat|]. split; [by apply batches_lengths|].
  unfold batches, range_step. split.
  - by rewrite !length_map, length_seq.
  - intros ->. simpl. rewrite Nat.div_small by lia. done.
Qed.

Lemma str_of_nat_small k :
  k <= 10 ->
  map str_of_nat (seq 0 k)
  = take k ["0"; "1"; "2"; "3"; "4"; "5"; "6"; "7"; "8"; "9"].
Proof.
  intros Hk. do 11 (destruct k as [|k]; [reflexivity|]). lia.
Qed.

Lemma delete_entries_spec chunk :
  map snd (delete_entries chunk) = chunk /\
  map fst (delete_entries chunk) = map str_of_nat (seq 0 (length chunk)).
Proof.
  unfold delete_entries.
  assert (forall s, map snd (imap (fun j rh => (str_of_nat (s + j), rh)) chunk)
                    = chunk /\
                    map fst (imap (fun j rh => (str_of_nat (s + j), rh)) chunk)
                    = map str_of_nat (seq s (length chunk))) as H.
  { induction chunk as [|rh chunk IH]; intros s; [done|].
    specialize (IH (S s)). destruct IH as [IH1 IH2].
    assert (imap ((fun j rh => (str_of_nat (s + j), rh)) ∘ S) chunk
            = imap (fun j rh => (str_of_nat (S s + j), rh)) chunk) as Heq.
    { apply imap_ext. intros j x _. simpl. do 2 f_equal. lia. }
    cbn [imap length seq map]. rewrite Heq, IH1, IH2.
    simpl. by rewrite Nat.add_0_r. }
  apply (H 0).
Qed.

(** X11.  [delete_messages_batch] asks for each receipt handle to be
    deleted exactly once and in order; every request has between 1 and 10
    entries, and the ids inside one request are the numerals "0", "1", ...
    in order, hence distinct. *)
Theorem delete_batches_cover_handles (receipt_handles : list string) :
  concat (map (map snd) (delete_messages_batch receipt_handles))
    = receipt_handles /\
  Forall (fun request =>
            1 <= length request <= 10 /\
            map fst request
              = take (length request)
                     ["0"; "1"; "2"; "3"; "4"; "5"; "6"; "7"; "8"; "9"] /\
            NoDup (map fst request))
         (delete_messages_batch receipt_handles).
Proof.
  unfold delete_messages_batch.
  pose proof (batches_concat 10 receipt_handles ltac:(lia)) as Hcat.
  pose proof (batches_lengths 10 receipt_handles ltac:(lia)) as Hlen.
  split.
  - rewrite map_map.
    rewrite (map_ext _ (fun chunk => chunk)), map_id; [exact Hcat|].
    intros chunk. apply delete_entries_spec.
  - apply Forall_forall. intros request Hin.
    apply list_elem_of_fmap in Hin as (chunk & -> & Hc).
    rewrite Forall_forall in Hlen. specialize (Hlen chunk Hc).
    destruct (delete_entries_spec chunk) as [Hsnd Hfst].
    assert (length (delete_entries chunk) = length chunk) as Hl
      by (rewrite <- Hsnd at 2; by rewrite length_map).
    rewrite Hl, Hfst, str_of_nat_small by lia.
    split; [lia|]. split; [done|].
    eapply sublist_NoDup; [|apply sublist_take].
    apply NoDup_ListNoDup. repeat constructor; simpl; intuition discriminate.
Qed.

End BotoFacts.

(* ===================================================================== *)
(** ** sqs_consumer.py: heartbeat, message task, status *)
(* ===================================================================== *)

Section HeartbeatFacts.

Import Heartbeat.

Lemma _heartbeat_successes he vt rh k rest :
  _heartbeat he vt rh (replicate k true ++ rest)
  = (concat (replicate k [Sleep he; Extend rh vt])
       ++ (_heartbeat he vt rh rest).1,
     (_heartbeat he vt rh rest).2).
Proof.
  induction k as [|k IH]; simpl; [by destruct (_heartbeat he vt rh rest)|].
  rewrite IH. reflexivity.
Qed.

(** X12.  While its calls succeed, the heartbeat extends the visibility of
    the message once after every sleep of [heartbeat_every] seconds, always
    by [visibility_timeout] and always on the same receipt handle, until it
    is cancelled; the first call that fails is the last one: the heartbeat
    ends there and the visibility is not extended again. *)
Theorem heartbeat_extends_until_failure he vt rh k rest :
  _heartbeat he vt rh (replicate k true)
  = (concat (replicate k [Sleep he; Extend rh vt]) ++ [Sleep he],
     Cancelled) /\
  _heartbeat he vt rh (replicate k true ++ false :: rest)
  = (concat (replicate (S k) [Sleep he; Extend rh vt]), Failed) /\
  count_if is_Extend
    (_heartbeat he vt rh (replicate k true ++ false :: rest)).1 = S k /\
  slept (_heartbeat he vt rh (replicate k true)).1
  = ((Z.of_nat k + 1) * he)%Z.
Proof.
  assert (forall j, concat (replicate (S j) [Sleep he; Extend rh vt])
                    = concat (replicate j [Sleep he; Extend rh vt])
                        ++ [Sleep he; Extend rh vt]) as Hsnoc.
  { induction j as [|j IHj]; [done|].
    change (concat (replicate (S (S j)) [Sleep he; Extend rh vt]))
      with ([Sleep he; Extend rh vt]
              ++ concat (replicate (S j) [Sleep he; Extend rh vt])).
    rewrite IHj at 1. by rewrite app_assoc. }
  assert (forall j, count_if is_Extend
                      (concat (replicate j [Sleep he; Extend rh vt])) = j)
    as Hcount by (induction j as [|j IHj]; simpl; [done|by rewrite IHj]).
  assert (forall j tl, slept (concat (replicate j [Sleep he; Extend rh vt])
                              ++ tl)
                       = (Z.of_nat j * he + slept tl)%Z) as Hslept.
  { induction j as [|j IHj]; intros tl; [simpl; lia|].
    change (concat (replicate (S j) [Sleep he; Extend rh vt]) ++ tl)
      with (Sleep he :: Extend rh vt
              :: (concat (replicate j [Sleep he; Extend rh vt]) ++ tl)).
    cbn [slept foldr].
    fold (slept (concat (replicate j [Sleep he; Extend rh vt]) ++ tl)).
    rewrite IHj. lia. }
  split_and!.
  - rewrite <- (app_nil_r (replicate k true)) at 1.
    by rewrite _heartbeat_successes.
  - rewrite _heartbeat_successes, Hsnoc. reflexivity.
  - rewrite _heartbeat_successes. cbn [_heartbeat fst app].
    rewrite count_if_app, Hcount. simpl. lia.
  - rewrite <- (app_nil_r (replicate k true)) at 1.
    rewrite _heartbeat_successes. simpl fst. cbn [_heartbeat fst].
    rewrite Hslept. simpl. lia.
Qed.

End HeartbeatFacts.

Section MessageTaskFacts.

Import HandleMessage.

Variable E : Type.

(** X13.  [_handle_message] starts a heartbeat exactly when both
    [heartbeat_every] and [visibility_timeout] are set and non-zero; it
    calls [process_func] exactly once; a heartbeat that was started is
    cancelled after [process_func] has ended and before the slot is
    released; and at most one exception is logged. *)
Theorem message_task_log (cfg : settings) (process : completion E)
    (hb : heartbeat_end E) :
  let on := opt_truthy (heartbeat_every cfg)
            && opt_truthy (visibility_timeout cfg) in
  exists logged : list (hevent E),
    (_handle_message E cfg process hb []).1
    = (if on then [StartHeartbeat] else []) ++ [Process]
        ++ (if on then [CancelHeartbeat] else []) ++ logged ++ [Release] /\
    (logged = [] \/ exists e, logged = [LogException e]) /\
    (on = true <->
     exists h v, heartbeat_every cfg = Some h /\ h <> 0%Z /\
                 visibility_timeout cfg = Some v /\ v <> 0%Z).
Proof.
  assert (forall x, opt_truthy x = true
                    <-> exists n, x = Some n /\ n <> 0%Z) as Htr.
  { intros [n|]; simpl; [|naive_solver].
    destruct (Z.eqb_spec n 0); simpl; naive_solver. }
  assert (opt_truthy (heartbeat_every cfg)
          && opt_truthy (visibility_timeout cfg) = true
          <-> exists h v, heartbeat_every cfg = Some h /\ h <> 0%Z /\
                          visibility_timeout cfg = Some v /\ v <> 0%Z)
    as Hon.
  { rewrite andb_true_iff, !Htr. naive_solver. }
  unfold _handle_message. simpl.
  destruct (opt_truthy (heartbeat_every cfg)
            && opt_truthy (visibility_timeout cfg));
    destruct process as [|[e|]], hb as [|e']; simpl;
    first [ exists []; split; [reflexivity|split; [by left|exact Hon]]
          | exists [LogException e]; split;
              [reflexivity|split; [right; by eexists|exact Hon]]
          | exists [LogException e']; split;
              [reflexivity|split; [right; by eexists|exact Hon]] ].
Qed.

End MessageTaskFacts.

Section QueueNameFacts.

Import Pathlib.

Lemma join_split s : join_slash (split_on "/" s) = s.
Proof.
  induction s as [|c s IH]; [reflexivity|]. simpl.
  destruct (Ascii.eqb_spec c "/") as [->|Hc].
  - destruct (split_on_cons "/" s) as (w & ws & Hs). rewrite Hs in *.
    change (join_slash ("" :: w :: ws)) with ("/" +:+ join_slash (w :: ws)).
    by rewrite IH.
  - destruct (split_on_cons "/" s) as (w & ws & Hs). rewrite Hs in *.
    assert (join_slash (String c w :: ws)
            = String c (join_slash (w :: ws))) as -> by by destruct ws.
    by rewrite IH.
Qed.

Lemma split_pieces s : Forall (fun w => no_slash w = true) (split_on "/" s).
Proof.
  induction s as [|c s IH]; simpl; [by repeat constructor|].
  destruct (Ascii.eqb_spec c "/") as [->|Hc]; [by constructor|].
  assert (Ascii.eqb c "/" = false) as Hcb by by apply Ascii.eqb_neq.
  destruct (split_on "/" s) as [|w ws].
  - repeat constructor. simpl. by rewrite Hcb.
  - inversion IH as [|? ? Hw Hws]; subst. constructor; [|done].
    simpl. by rewrite Hw, Hcb.
Qed.

(** X14.  The queue name that [get_status] reports is the part of the
    queue URL after its last slash: it contains no slash, the URL ends with
    it, what precedes it is empty or ends with a slash; for a URL that ends
    in [/name] it is [name], and for a URL without slash it is the whole
    URL. *)
Theorem queue_name_is_last_segment queue_url :
  no_slash (queue_name queue_url) = true /\
  (exists before,
     queue_url = before +:+ queue_name queue_url /\
     (before = "" \/ exists p, before = p +:+ "/")) /\
  (forall base name, no_slash name = true ->
     queue_name (base +:+ "/" +:+ name) = name) /\
  (no_slash queue_url = true -> queue_name queue_url = queue_url).
Proof.
  assert (forall s, no_slash (queue_name s) = true /\
            exists before, s = before +:+ queue_name s /\
              (before = "" \/ exists p, before = p +:+ "/")) as Hgen.
  { intros s. unfold queue_name.
    pose proof (join_split s) as Hj. pose proof (split_pieces s) as Hp.
    destruct (split_on_cons "/" s) as (w & ws & Hs). rewrite Hs in *.
    destruct (exists_last (l:=w :: ws) ltac:(done)) as (init & l & Heq).
    rewrite Heq in *. rewrite last_last.
    rewrite Forall_app, Forall_singleton in Hp. destruct Hp as [_ Hl].
    split; [exact Hl|].
    destruct init as [|i init].
    - exists "". split; [by rewrite <- Hj|by left].
    - rewrite join_slash_snoc in Hj by done.
      exists (join_slash (i :: init) +:+ "/"). split.
      + by rewrite string_app_assoc.
      + right. by eexists. }
  split; [apply Hgen|]. split; [apply Hgen|]. split.
  - intros base name Hn.
    assert (forall b, List.last (split_on "/" (b +:+ "/" +:+ name)) ""
                      = name) as H.
    { induction b as [|c b IH].
      - change ("" +:+ "/" +:+ name) with (String "/" name).
        cbn [split_on]. rewrite Ascii.eqb_refl.
        rewrite split_on_plain_end by done. reflexivity.
      - change (String c b +:+ "/" +:+ name)
          with (String c (b +:+ "/" +:+ name)).
        cbn [split_on].
        destruct (split_on_cons "/" (b +:+ "/" +:+ name))
          as (w & ws & Hs).
        rewrite Hs in *.
        destruct (Ascii.eqb c "/"); [exact IH|].
        destruct ws; [|exact IH]. simpl in *.
        assert (no_slash (b +:+ "/" +:+ name) = false) as Hsl.
        { clear. induction b as [|x b IHb]; [done|].
          change (String x b +:+ "/" +:+ name)
            with (String x (b +:+ "/" +:+ name)).
          simpl. rewrite IHb. apply andb_false_r. }
        pose proof (join_split (b +:+ "/" +:+ name)) as Hj.
        pose proof (split_pieces (b +:+ "/" +:+ name)) as Hp.
        rewrite Hs in Hj, Hp. simpl in Hj. subst w.
        inversion Hp; congruence. }
    apply H.
  - intros Hn. unfold queue_name. by rewrite split_on_plain_end.
Qed.

End QueueNameFacts.

(* ===================================================================== *)
(** ** rss_processor.py: what one run over a feed does *)
(* ===================================================================== *)

Section RSSRunFacts.

Import RSSRun.

Variable valid_http_url : string -> bool.
Variable http_url_str : string -> string.
Variable valid_bool : pyval -> bool.
Variable int_of_str : string -> option Z.
Variable track : bool.

Local Abbreviation loop :=
  (submit_loop valid_http_url http_url_str valid_bool track).
Local Abbreviation submit :=
  (submit_rss_items_to_queue valid_http_url http_url_str valid_bool track).
Local Abbreviation request := (crawl_request http_url_str).
Local Abbreviation request_valid :=
  (crawl_request_valid valid_http_url valid_bool).
Local Abbreviation process :=
  (process_task valid_http_url http_url_str valid_bool int_of_str track).

(** What the loop may append for the entries [items]. *)
#[warnings="-inconsistent-scopes"] Local Abbreviation from_entries
    t tid link_field processed items :=
  (fun x : rss_effect =>
     match x with
     | Enqueued body attrs =>
         exists it url,
           it ∈ items /\ item_link link_field it = Some url /\
           url <> "" /\ (track = true -> url ∉ processed) /\
           request_valid t url = true /\
           body = request t tid url /\ attrs = message_attributes_of t
     | SendFailed url =>
         exists it, it ∈ items /\ item_link link_field it = Some url
     | Marked tid' url =>
         track = true /\ tid' = tid /\
         exists it, it ∈ items /\ item_link link_field it = Some url
     end).

Lemma submit_loop_spec t tid link_field (processed : gset string) io items :
  forall i st,
  exists new,
    done (final_state (loop t tid link_field processed io i st items))
      = done st ++ new /\
    Forall (from_entries t tid link_field processed items) new /\
    count_if is_Enqueued new + count_if is_SendFailed new <= length items /\
    count_if is_Marked new <= count_if is_Enqueued new /\
    (forall st', loop t tid link_field processed io i st items = inl st' ->
       queued_count st' = queued_count st + count_if is_Enqueued new) /\
    table_now (final_state (loop t tid link_field processed io i st items))
      = with_markers (table_now st) (markers new) /\
    (track = false \/ table_now st = None -> markers new = []).
Proof.
  induction items as [|it rest IH]; intros i st.
  { exists []. simpl. rewrite app_nil_r. split_and!; try done.
    intros st' [= <-]. lia. }
  assert (forall st2 pre,
    done st2 = done st ++ pre ->
    Forall (from_entries t tid link_field processed (it :: rest)) pre ->
    count_if is_Enqueued pre + count_if is_SendFailed pre <= 1 ->
    count_if is_Marked pre <= count_if is_Enqueued pre ->
    queued_count st2 = queued_count st + count_if is_Enqueued pre ->
    table_now st2 = with_markers (table_now st) (markers pre) ->
    (track = false \/ table_now st = None -> markers pre = []) ->
    exists new,
      done (final_state (loop t tid link_field processed io (S i) st2 rest))
        = done st ++ new /\
      Forall (from_entries t tid link_field processed (it :: rest)) new /\
      count_if is_Enqueued new + count_if is_SendFailed new
        <= length (it :: rest) /\
      count_if is_Marked new <= count_if is_Enqueued new /\
      (forall st',
         loop t tid link_field processed io (S i) st2 rest = inl st' ->
         queued_count st' = queued_count st + count_if is_Enqueued new) /\
      table_now
        (final_state (loop t tid link_field processed io (S i) st2 rest))
        = with_markers (table_now st) (markers new) /\
      (track = false \/ table_now st = None -> markers new = [])) as Hnext.
  { intros st2 pre Hd Hf Hc Hm Hq Ht Hoff.
    destruct (IH (S i) st2)
      as (new & Hd2 & Hf2 & Hc2 & Hm2 & Hq2 & Ht2 & Hoff2).
    exists (pre ++ new). rewrite !count_if_app. unfold markers in *.
    rewrite omap_app. unfold with_markers in *. rewrite foldl_app.
    split_and!.
    - by rewrite Hd2, Hd, app_assoc.
    - apply Forall_app. split; [done|].
      eapply Forall_impl; [exact Hf2|].
      intros [body attrs|url|tid' url]; simpl.
      + intros (it' & u & Hin & H). exists it', u.
        split; [by apply elem_of_cons; right|done].
      + intros (it' & Hin & H). exists it'.
        split; [by apply elem_of_cons; right|done].
      + intros (Htr & Htid & it' & Hin & H). split_and!; [done..|].
        exists it'. split; [by apply elem_of_cons; right|done].
    - simpl. lia.
    - lia.
    - intros st' Hst'. rewrite (Hq2 st' Hst'), Hq. lia.
    - by rewrite Ht2, Ht.
    - intros Htr. rewrite (Hoff Htr) in *. simpl in Ht.
      rewrite Hoff2; [done|]. destruct Htr as [Htr|Htr]; [by left|].
      right. by rewrite Ht. }
  assert (exists new,
      done (final_state (loop t tid link_field processed io (S i) st rest))
        = done st ++ new /\
      Forall (from_entries t tid link_field processed (it :: rest)) new /\
      count_if is_Enqueued new + count_if is_SendFailed new
        <= length (it :: rest) /\
      count_if is_Marked new <= count_if is_Enqueued new /\
      (forall st',
         loop t tid link_field processed io (S i) st rest = inl st' ->
         queued_count st' = queued_count st + count_if is_Enqueued new) /\
      table_now
        (final_state (loop t tid link_field processed io (S i) st rest))
        = with_markers (table_now st) (markers new) /\
      (track = false \/ table_now st = None -> markers new = [])) as Hskip.
  { apply (Hnext st []); simpl; try done; [by rewrite app_nil_r|lia]. }
  cbn [submit_loop].
  destruct (item_link link_field it) as [url|] eqn:Hl; [|exact Hskip].
  destruct (String.eqb_spec url "") as [->|Hne]; [exact Hskip|].
  destruct (track && bool_decide (url ∈ processed)) eqn:Hseen;
    [exact Hskip|].
  assert (track = true -> url ∉ processed) as Hnew.
  { intros ->. simpl in Hseen. by apply bool_decide_eq_false in Hseen. }
  destruct (request_valid t url) eqn:Hv; simpl.
  2:{ exists []. simpl. rewrite app_nil_r. split_and!; try done; lia. }
  assert (it ∈ it :: rest) as Hin by (apply elem_of_cons; by left).
  destruct (send_succeeds (io i)) eqn:Hsend.
  - destruct track eqn:Htr.
    + rewrite mark_url_as_processed_cases.
      destruct (save_succeeds (io i) && bool_decide (is_Some (table_now st)))
        eqn:Hsave.
      * eapply (Hnext _ [Enqueued (request t tid url)
                                  (message_attributes_of t);
                         Marked tid url]).
        all: simpl; try done; try lia.
        { by rewrite <- app_assoc. }
        2:{ intros [?|Hnone]; [done|]. rewrite Hnone in Hsave.
            by rewrite andb_false_r in Hsave. }
        apply Forall_cons_2; [by exists it, url|].
        apply Forall_cons_2; [|apply Forall_nil_2].
        split_and!; [done..|]. by exists it.
      * rewrite app_nil_r.
        eapply (Hnext _ [Enqueued (request t tid url)
                                  (message_attributes_of t)]); simpl.
        all: try done; try lia.
        apply Forall_cons_2; [|apply Forall_nil_2]. by exists it, url.
    + eapply (Hnext _ [Enqueued (request t tid url)
                                (message_attributes_of t)]);
        simpl; try done; try lia.
      apply Forall_cons_2; [|apply Forall_nil_2]. by exists it, url.
  - eapply (Hnext _ [SendFailed url]); simpl; try done; try lia.
    apply Forall_cons_2; [|apply Forall_nil_2]. by exists it.
Qed.

Lemma markers_length effs : length (markers effs) = count_if is_Marked effs.
Proof.
  induction effs as [|[| |] effs IH]; simpl; try done. by rewrite <- IH.
Qed.

Lemma submit_spec table t items query_ok io :
  let start :=
    if track then get_processed_urls table query_ok (run_id t)
    else (table, ∅) in
  let r := submit table t items query_ok io in
  Forall (from_entries t (run_id t)
            (default (PStr "link") (config_of t !! "item_link_field"))
            start.2 items) r.1.2 /\
  count_if is_Enqueued r.1.2 + count_if is_SendFailed r.1.2
    <= length items /\
  count_if is_Marked r.1.2 <= count_if is_Enqueued r.1.2 /\
  (r.2 = count_if is_Enqueued r.1.2 \/ r.2 = 0) /\
  r.1.1 = with_markers start.1 (markers r.1.2) /\
  (track = false \/ start.1 = None -> markers r.1.2 = []).
Proof.
  intros start r. subst r. unfold submit_rss_items_to_queue.
  fold (run_id t). fold start. destruct start as [table1 processed].
  destruct (submit_loop_spec t (run_id t)
              (default (PStr "link") (config_of t !! "item_link_field"))
              processed io items 0 (LoopState table1 [] 0))
    as (new & Hd & Hf & Hc & Hm & Hq & Ht & Hoff).
  destruct (loop t (run_id t) _ processed io 0 _ items) as [st|st] eqn:Hl;
    simpl in *; subst; split_and!; try done.
  - left. by rewrite (Hq st eq_refl).
  - by right.
Qed.

(** X15.  The number that one run over a feed reports is the number of
    messages it sent, unless building a [CrawlRequest] raised, in which
    case it reports 0 whatever it had sent before.  What the run does is
    what handling each entry before the rejected one does, in order: an
    entry is passed over, or gets one send that fails, or one send that
    returns, followed, with tracking on, by at most its own marker.  With
    tracking switched off the marker table is left as it was and no marker
    is saved. *)
Theorem run_accounting table t items query_ok io :
  let start :=
    if track then get_processed_urls table query_ok (run_id t)
    else (table, ∅) in
  let r := submit table t items query_ok io in
  let raised :=
    existsb (rejected valid_http_url valid_bool track t (link_field_of t)
               start.2) items in
  r.2 = (if raised then 0 else count_if is_Enqueued r.1.2) /\
  r.1.2
  = concat (imap (fun j it =>
                    item_effects http_url_str track t (run_id t)
                      (link_field_of t) start.2
                      (bool_decide (is_Some start.1)) (io j) it)
                 (handled valid_http_url valid_bool track t
                    (link_field_of t) start.2 items)) /\
  (raised = false ->
   handled valid_http_url valid_bool track t (link_field_of t) start.2
     items = items) /\
  (raised = true ->
   exists it rest,
     items = handled valid_http_url valid_bool track t (link_field_of t)
               start.2 items ++ it :: rest /\
     rejected valid_http_url valid_bool track t (link_field_of t) start.2
       it = true) /\
  (forall table_exists io_j it,
     let effs :=
       item_effects http_url_str track t (run_id t) (link_field_of t)
         start.2 table_exists io_j it in
     effs = [] \/
     exists url,
       item_link (link_field_of t) it = Some url /\
       (effs = [SendFailed url] \/
        effs = [Enqueued (request t (run_id t) url)
                         (message_attributes_of t)] \/
        (track = true /\ table_exists = true /\
         effs = [Enqueued (request t (run_id t) url)
                          (message_attributes_of t);
                 Marked (run_id t) url]))) /\
  (track = false -> r.1.1 = table /\ count_if is_Marked r.1.2 = 0).
Proof.
  intros start r raised.
  destruct (submit_run valid_http_url http_url_str valid_bool track
              table t items query_ok io) as [Heffs Hcount].
  fold start in Heffs, Hcount. fold r in Heffs, Hcount.
  fold raised in Hcount.
  split; [exact Hcount|]. split; [exact Heffs|].
  split; [apply handled_all|]. split; [apply handled_stops|].
  split.
  - intros table_exists io_j it. unfold item_effects, wanted_link.
    destruct (item_link (link_field_of t) it) as [url|]; [|by left].
    destruct (String.eqb url ""); [by left|].
    destruct (track && bool_decide (url ∈ start.2)); [by left|].
    right. exists url. split; [done|].
    destruct (send_succeeds io_j); [|by left]. right.
    destruct track, (save_succeeds io_j), table_exists; simpl; auto.
  - destruct (submit_spec table t items query_ok io)
      as (_ & _ & _ & _ & Ht & Hoff).
    fold start in Ht, Hoff. fold r in Ht, Hoff.
    intros ->. rewrite <- markers_length, Hoff by by left.
    split; [|done]. rewrite Ht, Hoff by by left. done.
Qed.

Lemma get_processed_urls_spec rows tid u :
  u ∈ (get_processed_urls (Some rows) true tid).2
  <-> exists h, rows !! (tid, h) = Some u.
Proof.
  simpl. rewrite elem_of_list_to_set, list_elem_of_omap. split.
  - intros ([[t h] v] & Hin & Hsome). apply elem_of_map_to_list in Hin.
    simpl in Hsome. destruct (String.eqb_spec t tid); simplify_eq.
    by exists h.
  - intros (h & Hh). exists ((tid, h), u).
    split; [by apply elem_of_map_to_list|]. simpl.
    by rewrite String.eqb_refl.
Qed.

(** X16.  Every message that a run sends was built from a selected entry
    of the feed whose link is non-empty and passes validation: its id is
    the task id, a dash and the last eight digits of the digest of the
    link, and its attributes are those of the task.  With tracking on and
    the marker table read successfully, a link that had a marker for this
    task when the run began is not sent. *)
Theorem sent_messages_come_from_new_entries table t feed query_ok io :
  Forall (fun x =>
            match x with
            | Enqueued body attrs =>
                exists it url,
                  it ∈ selected_items int_of_str t feed /\
                  item_link (default (PStr "link")
                               (config_of t !! "item_link_field")) it
                    = Some url /\
                  url <> "" /\
                  request_valid t url = true /\
                  body = request t (run_id t) url /\
                  body !! "id"
                    = Some (PStr (run_id t +:+ "-" +:+ url_hash8 url)) /\
                  attrs = message_attributes_of t /\
                  (track = true -> query_ok = true ->
                   forall rows h, table = Some rows ->
                     rows !! (run_id t, h) <> Some url)
            | _ => True
            end)
         (process table t feed query_ok io).1.2.
Proof.
  unfold process_task.
  destruct (negb (py_truthy (py_get (config_of t) "feed_url")));
    [by apply Forall_nil_2|].
  destruct (selected_items int_of_str t feed) as [|it0 items] eqn:Hsel;
    [by apply Forall_nil_2|].
  destruct (submit_spec table t (it0 :: items) query_ok io)
    as (Hf & _).
  eapply Forall_impl; [exact Hf|].
  intros [body attrs|url|tid' url]; simpl; [|done..].
  intros (it & url & Hin & Hl & Hne & Hnew & Hv & -> & ->).
  exists it, url. split_and!; try done.
  intros -> -> rows h -> Hrow. apply Hnew; [done|].
  apply get_processed_urls_spec. by exists h.
Qed.

End RSSRunFacts.

(* ===================================================================== *)
(** ** rss_processor.py: the marker table *)
(* ===================================================================== *)

Section MarkerTableFacts.

Import RSSRun.

Lemma with_markers_snoc table ms tid url :
  with_markers table (ms ++ [(tid, url)])
  = mark_url_as_processed (with_markers table ms) true tid url.
Proof. unfold with_markers. by rewrite foldl_app. Qed.

Lemma with_markers_Some rows ms :
  exists rows', with_markers (Some rows) ms = Some rows'.
Proof.
  induction ms as [|[tid url] ms IH] using rev_ind; [by exists rows|].
  destruct IH as (rows' & IH). rewrite with_markers_snoc, IH. simpl.
  by eexists.
Qed.

Lemma markers_elem_of effs tid url :
  (tid, url) ∈ markers effs <-> Marked tid url ∈ effs.
Proof.
  unfold markers. rewrite list_elem_of_omap. split.
  - intros ([| |tid' url'] & Hin & Hx); simplify_eq. done.
  - intros Hin. by exists (Marked tid url).
Qed.

(** Rows of other tasks are not touched; a row of the task is an old one
    or one of the markers; a marker whose digest is shared by no other
    marker is found under its digest. *)
Lemma with_markers_spec tid ms :
  Forall (fun m : string * string => m.1 = tid) ms ->
  forall rows rows',
    with_markers (Some rows) ms = Some rows' ->
    (forall k, k.1 <> tid -> rows' !! k = rows !! k) /\
    (forall h u, rows' !! (tid, h) = Some u ->
       rows !! (tid, h) = Some u \/
       (h = MD5.hexdigest u /\ (tid, u) ∈ ms)) /\
    (forall u, (tid, u) ∈ ms ->
       (forall u', (tid, u') ∈ ms ->
                   MD5.hexdigest u' = MD5.hexdigest u -> u' = u) ->
       rows' !! (tid, MD5.hexdigest u) = Some u).
Proof.
  induction ms as [|[tid0 u0] ms IH] using rev_ind; intros Hall rows rows'.
  { intros [= <-]. split_and!; [done|by left|].
    intros u Hin. by apply elem_of_nil in Hin. }
  rewrite Forall_app, Forall_singleton in Hall.
  destruct Hall as [Hall Hlast]. simpl in Hlast. subst tid0.
  rewrite with_markers_snoc.
  destruct (with_markers_Some rows ms) as (mid & Hmid). rewrite Hmid.
  simpl. intros [= <-].
  destruct (IH Hall rows mid Hmid) as (Hother & Hrows & Hfound).
  split_and!.
  - intros [t h] Hk. simpl in Hk.
    rewrite lookup_insert_ne by congruence. by apply Hother.
  - intros h u.
    destruct (decide (h = MD5.hexdigest u0)) as [->|Hh].
    + rewrite lookup_insert_eq. intros [= <-]. right.
      split; [done|]. apply elem_of_app. right. by apply list_elem_of_singleton.
    + rewrite lookup_insert_ne by congruence. intros Hl.
      destruct (Hrows h u Hl) as [?|[? ?]]; [by left|right].
      split; [done|]. apply elem_of_app. by left.
  - intros u Hin Hinj.
    destruct (decide (MD5.hexdigest u = MD5.hexdigest u0)) as [Heq|Hne].
    + assert (u0 = u) as ->.
      { apply Hinj; [|done]. apply elem_of_app. right.
        by apply list_elem_of_singleton. }
      by rewrite lookup_insert_eq.
    + rewrite lookup_insert_ne by congruence.
      apply elem_of_app in Hin as [Hin|Hin].
      * apply Hfound; [done|]. intros u' Hin'. apply Hinj.
        apply elem_of_app. by left.
      * apply list_elem_of_singleton in Hin. congruence.
Qed.

(** X17.  Saving a marker and reading the markers back: the URL is among
    the processed URLs of its task, nothing else is added to them, the
    processed URLs of every other task are as before, and reading an
    existing table does not change it.  A save that fails, or that finds
    no table, leaves everything as it was; reading a missing table creates
    an empty one, and a read that fails reports no URL. *)
Theorem marker_round_trip rows tid url :
  let table' := mark_url_as_processed (Some rows) true tid url in
  url ∈ (get_processed_urls table' true tid).2 /\
  (get_processed_urls table' true tid).2
    ⊆ (get_processed_urls (Some rows) true tid).2 ∪ {[url]} /\
  (forall tid', tid' <> tid ->
     (get_processed_urls table' true tid').2
     = (get_processed_urls (Some rows) true tid').2) /\
  (forall ok tid', (get_processed_urls table' ok tid').1 = table') /\
  mark_url_as_processed (Some rows) false tid url = Some rows /\
  (forall ok, mark_url_as_processed None ok tid url = None) /\
  get_processed_urls None true tid = (Some ∅, ∅) /\
  (forall table, (get_processed_urls table false tid).2 = ∅).
Proof.
  intros table'. subst table'.
  change (mark_url_as_processed (Some rows) true tid url)
    with (Some (<[(tid, MD5.hexdigest url) := url]> rows)).
  split_and!.
  - apply get_processed_urls_spec. exists (MD5.hexdigest url).
    by rewrite lookup_insert_eq.
  - intros u Hu. apply get_processed_urls_spec in Hu as (h & Hh).
    apply elem_of_union.
    destruct (decide (h = MD5.hexdigest url)) as [->|Hne].
    + rewrite lookup_insert_eq in Hh. right. apply elem_of_singleton.
      congruence.
    + rewrite lookup_insert_ne in Hh by congruence. left.
      apply get_processed_urls_spec. by exists h.
  - intros tid' Hne. apply set_eq. intros u.
    rewrite !get_processed_urls_spec.
    split; intros (h & Hh); exists h.
    + by rewrite lookup_insert_ne in Hh by congruence.
    + by rewrite lookup_insert_ne by congruence.
  - by intros [|] tid'.
  - done.
  - by intros [|].
  - done.
  - by intros [rows0|].
Qed.

End MarkerTableFacts.

(* ===================================================================== *)
(** ** rss_processor.py: runs with tracking switched on *)
(* ===================================================================== *)

Section TrackedRunFacts.

Import RSSRun.

Variable valid_http_url : string -> bool.
Variable http_url_str : string -> string.
Variable valid_bool : pyval -> bool.
Variable int_of_str : string -> option Z.

Local Abbreviation submit :=
  (submit_rss_items_to_queue valid_http_url http_url_str valid_bool true).
Local Abbreviation request := (crawl_request http_url_str).
Local Abbreviation process :=
  (process_task valid_http_url http_url_str valid_bool int_of_str true).

Lemma process_cases track table t feed query_ok io :
  process_task valid_http_url http_url_str valid_bool int_of_str track
    table t feed query_ok io = (table, [], 0) \/
  process_task valid_http_url http_url_str valid_bool int_of_str track
    table t feed query_ok io
  = submit_rss_items_to_queue valid_http_url http_url_str valid_bool track
      table t (selected_items int_of_str t feed) query_ok io.
Proof.
  unfold process_task.
  destruct (negb (py_truthy (py_get (config_of t) "feed_url")));
    [by left|].
  destruct (selected_items int_of_str t feed); [by left|by right].
Qed.

(** The table after a tracked run, in terms of the table before. *)
Lemma tracked_table table t feed query_ok io rows' :
  (process table t feed query_ok io).1.1 = Some rows' ->
  exists rows,
    (table = Some rows \/ table = None /\ rows = ∅) /\
    with_markers (Some rows)
      (markers (process table t feed query_ok io).1.2) = Some rows' /\
    Forall (fun m : string * string => m.1 = run_id t)
      (markers (process table t feed query_ok io).1.2).
Proof.
  destruct (process_cases true table t feed query_ok io) as [Hp|Hp];
    rewrite Hp.
  { simpl. intros ->. exists rows'. split_and!; [by left|done|done]. }
  destruct (submit_spec valid_http_url http_url_str valid_bool true
              table t (selected_items int_of_str t feed) query_ok io)
    as (Hf & _ & _ & _ & Ht & Hoff).
  assert (Forall (fun m : string * string => m.1 = run_id t)
            (markers (submit table t (selected_items int_of_str t feed)
                        query_ok io).1.2)) as Hown.
  { apply Forall_forall. intros [tid u] Hin.
    apply markers_elem_of in Hin.
    rewrite Forall_forall in Hf. apply Hf in Hin. simpl in Hin.
    by destruct Hin as (_ & -> & _). }
  rewrite Ht. intros Hrows'.
  destruct table as [rows|], query_ok; simpl in *.
  - exists rows. split_and!; [by left|done|done].
  - exists rows. split_and!; [by left|done|done].
  - exists ∅. split_and!; [by right|done|done].
  - rewrite Hoff in Hrows' by by right. done.
Qed.

(** A tracked run that starts with a table ends with one. *)
Lemma tracked_run_keeps_table rows t feed query_ok io :
  (process (Some rows) t feed query_ok io).1.1
  = Some (default ∅ (process (Some rows) t feed query_ok io).1.1).
Proof.
  destruct (process_cases true (Some rows) t feed query_ok io) as [Hp|Hp];
    rewrite Hp; [done|].
  destruct (submit_spec valid_http_url http_url_str valid_bool true
              (Some rows) t (selected_items int_of_str t feed) query_ok io)
    as (_ & _ & _ & _ & Ht & _).
  rewrite Ht.
  assert ((get_processed_urls (Some rows) query_ok (run_id t)).1
          = Some rows) as -> by by destruct query_ok.
  destruct (with_markers_Some rows
              (markers (submit (Some rows) t
                          (selected_items int_of_str t feed)
                          query_ok io).1.2)) as (rows' & ->).
  done.
Qed.

(** X18.  A tracked run changes the marker table only by the markers it
    saves: the rows of other tasks are as before, and every row of the
    task after the run was there before or is the marker of a URL saved in
    this run, filed under the digest of that URL.  A URL whose marker was
    saved is found under its digest afterwards, provided no other URL
    marked in the run has the same digest. *)
Theorem marker_table_after_run table t feed query_ok io rows' :
  let r := process table t feed query_ok io in
  r.1.1 = Some rows' ->
  (forall k, k.1 <> run_id t -> rows' !! k = default ∅ table !! k) /\
  (forall h u, rows' !! (run_id t, h) = Some u ->
     default ∅ table !! (run_id t, h) = Some u \/
     (h = MD5.hexdigest u /\ Marked (run_id t) u ∈ r.1.2)) /\
  (forall u, Marked (run_id t) u ∈ r.1.2 ->
     (forall u', Marked (run_id t) u' ∈ r.1.2 ->
                 MD5.hexdigest u' = MD5.hexdigest u -> u' = u) ->
     rows' !! (run_id t, MD5.hexdigest u) = Some u).
Proof.
  intros r Hrows'. subst r.
  destruct (tracked_table table t feed query_ok io rows' Hrows')
    as (rows & Hstart & Hwith & Hown).
  assert (default ∅ table = rows) as ->
    by (destruct Hstart as [->|[-> ->]]; done).
  destruct (with_markers_spec (run_id t) _ Hown rows rows' Hwith)
    as (Hother & Hrows & Hfound).
  split_and!; [done| |].
  - intros h u Hl. destruct (Hrows h u Hl) as [?|[? Hin]]; [by left|right].
    split; [done|]. by apply markers_elem_of.
  - intros u Hin Hinj. apply Hfound; [by apply markers_elem_of|].
    intros u' Hin'. apply Hinj. by apply markers_elem_of.
Qed.

(** X19.  A URL whose marker was saved in one tracked run is not sent by a
    later tracked run of the same task that reads the marker table
    successfully (whatever its feed, and whatever else was added to the
    table in between by the runs of other tasks), provided no other URL
    marked in the first run has the same digest. *)
Theorem marked_url_is_not_sent_again
    table t feed query_ok io url rows1 rows2 t2 feed2 io2 :
  let r1 := process table t feed query_ok io in
  Marked (run_id t) url ∈ r1.1.2 ->
  (forall u', Marked (run_id t) u' ∈ r1.1.2 ->
              MD5.hexdigest u' = MD5.hexdigest url -> u' = url) ->
  r1.1.1 = Some rows1 ->
  (forall h, rows2 !! (run_id t, h) = rows1 !! (run_id t, h)) ->
  run_id t2 = run_id t ->
  Forall (fun x =>
            match x with
            | Enqueued body _ =>
                exists u2, u2 <> url /\ body = request t2 (run_id t2) u2
            | _ => True
            end)
         (process (Some rows2) t2 feed2 true io2).1.2.
Proof.
  intros r1 Hmarked Hinj Hrows1 Hsame Hid. subst r1.
  destruct (tracked_table table t feed query_ok io rows1 Hrows1)
    as (rows & Hstart & Hwith & Hown).
  destruct (with_markers_spec (run_id t) _ Hown rows rows1 Hwith)
    as (_ & _ & Hfound).
  assert (rows2 !! (run_id t2, MD5.hexdigest url) = Some url) as Hrow.
  { rewrite Hid, Hsame. apply Hfound; [by apply markers_elem_of|].
    intros u' Hin'. apply Hinj. by apply markers_elem_of. }
  destruct (process_cases true (Some rows2) t2 feed2 true io2) as [Hp|Hp];
    rewrite Hp; [by apply Forall_nil_2|].
  destruct (submit_spec valid_http_url http_url_str valid_bool true
              (Some rows2) t2 (selected_items int_of_str t2 feed2) true io2)
    as (Hf & _).
  eapply Forall_impl; [exact Hf|].
  intros [body attrs|u|tid' u]; simpl; [|done..].
  intros (it & u & _ & _ & _ & Hnew & _ & -> & _).
  exists u. split; [|done]. intros ->. apply Hnew; [done|].
  apply get_processed_urls_spec. by eexists.
Qed.

End TrackedRunFacts.

(* ===================================================================== *)
(** ** From the scheduler to the consumer *)
(* ===================================================================== *)

Section SchedulerConsumerFacts.

Variable valid_http_url : string -> bool.
Variable http_url_str : string -> string.
Variable valid_bool : pyval -> bool.

Local Abbreviation validate :=
  (CrawlRequest_validate valid_http_url valid_bool).
Local Abbreviation PM := (process_message valid_http_url valid_bool).
Local Abbreviation run := (consumer_run valid_http_url valid_bool).
Local Abbreviation request := (crawl_request http_url_str).

Lemma request_validates t tid url :
  crawl_request_valid valid_http_url valid_bool t url = true ->
  valid_http_url (http_url_str url) = true ->
  validate (request t tid url) = true.
Proof.
  unfold crawl_request_valid. intros [_ Hsave]%andb_true_iff Hurl.
  unfold CrawlRequest_validate.
  assert (request t tid url !! "type" = Some (PStr "crawl-single-url"))
    as -> by done.
  assert (request t tid url !! "url" = Some (PStr (http_url_str url)))
    as -> by done.
  assert (request t tid url !! "id"
          = Some (PStr (tid +:+ "-" +:+ url_hash8 url))) as -> by done.
  assert (request t tid url !! "tags" = Some (PList (map PStr (tags t))))
    as -> by done.
  assert (request t tid url !! "save_pdf"
          = Some (default (PBool true) (config_of t !! "save_pdf")))
    as -> by done.
  rewrite Hurl, Hsave. simpl. rewrite !andb_true_r.
  induction (tags t) as [|x l IH]; simpl; done.
Qed.

Lemma request_key t tid url msg :
  envelope_key (request t tid url) msg
  = PStr (tid +:+ "-" +:+ url_hash8 url).
Proof.
  unfold envelope_key, py_get.
  assert (request t tid url !! "id"
          = Some (PStr (tid +:+ "-" +:+ url_hash8 url))) as -> by done.
  unfold py_or. simpl. by destruct tid.
Qed.

(** X20.  A message built by the scheduler is accepted by the consumer
    (provided pydantic accepts its own rendering of the URL): it
    validates, its key is its id, and the handler is started for it under
    that key.  A second message for the same task and URL, such as the one
    sent for a repeated feed entry, has the same key: when the same
    process receives it later, it is deleted and no handler is started. *)
Theorem scheduled_message_is_handled_once
    t tid url seen msg1 e1 between msg2 e2 :
  crawl_request_valid valid_http_url valid_bool t url = true ->
  valid_http_url (http_url_str url) = true ->
  Body msg1 = JsonObject (request t tid url) ->
  Body msg2 = JsonObject (request t tid url) ->
  KStr (tid +:+ "-" +:+ url_hash8 url) ∉ seen ->
  let o1 := PM seen msg1 e1 in
  let seen2 := (run (seen_after o1) between).1 in
  validate (request t tid url) = true /\
  dispatched_keys (effects o1) = [KStr (tid +:+ "-" +:+ url_hash8 url)] /\
  PM seen2 msg2 e2
  = Outcome seen2 [DeleteMessage (ReceiptHandle msg2)]
            (adapter_result (delete_ok e2)).
Proof.
  intros Hv Hurl Hb1 Hb2 Hnew o1 seen2.
  pose proof (request_validates t tid url Hv Hurl) as Hval.
  assert (o1 = Outcome ({[KStr (tid +:+ "-" +:+ url_hash8 url)]} ∪ seen)
            (Dispatch (KStr (tid +:+ "-" +:+ url_hash8 url))
                      (request t tid url)
               :: (after_handler msg1 e1
                     (handle_crawl_single_url valid_http_url valid_bool
                        (request t tid url) (crawl_succeeds e1))).1)
            (after_handler msg1 e1
               (handle_crawl_single_url valid_http_url valid_bool
                  (request t tid url) (crawl_succeeds e1))).2) as Ho1.
  { apply process_message_fresh; try done. by rewrite request_key. }
  split; [done|]. split.
  - rewrite Ho1. simpl. by rewrite after_handler_keys.
  - eapply process_message_duplicate; [done..|by rewrite request_key|].
    subst seen2.
    destruct (consumer_run_invariant valid_http_url valid_bool between
                (seen_after o1)) as (Hsub & _).
    apply Hsub. rewrite Ho1. simpl. set_solver.
Qed.

End SchedulerConsumerFacts.

(* ===================================================================== *)
(** ** bedrock_token.py: headroom and [get_token] *)
(* ===================================================================== *)

Section TokenStartupFacts.

Import BedrockToken TokenStartup.

(** X21.  For an expiry time of up to twelve hours, the default and the
    longest that the provider grants, the constant [REFRESH_SECONDS] is
    defined and less than the expiry time: the headroom left is at least a
    sixth of the expiry time, and less than a second more. *)
Theorem refresh_leaves_headroom (token_expiry : Z) :
  (0 < token_expiry <= 43200)%Z ->
  exists refresh_seconds,
    REFRESH_SECONDS token_expiry = Some refresh_seconds /\
    (0 <= refresh_seconds < token_expiry)%Z /\
    (token_expiry
     <= 6 * (token_expiry - refresh_seconds)
     < token_expiry + 6)%Z.
Proof.
  intros Hrange. exists (exact_refresh_seconds token_expiry).
  split; [apply REFRESH_SECONDS_exact; lia|].
  rewrite exact_refresh_seconds_eq.
  pose proof (Z.mul_div_le (5 * token_expiry) 6 ltac:(lia)).
  pose proof (Z.mul_succ_div_gt (5 * token_expiry) 6 ltac:(lia)).
  lia.
Qed.

(** X22.  [get_token] hands out the published token whenever there is one
    and never replaces it: after any turns of the refresher of which one
    succeeded it returns the token of the last successful refresh without
    asking for a new one.  Only when no token is published does it ask for
    one, publish it and return it; what it returns is what readers find
    afterwards, a second call returns the same token, and the call raises
    only when there is no token and none can be obtained.  The module
    global is never written. *)
Theorem get_token_keeps_published_token {token}
    (refresh_seconds : Z) (st : slots token) attempts provide provide' :
  let st' := (_run refresh_seconds st attempts).1 in
  (forall t, last_obtained (bedrock_api_token st) attempts = Some t ->
     get_token st' provide = (st', Some t)) /\
  (forall t, (get_token st provide).2 = Some t ->
     get_bedrock_token (get_token st provide).1 = Some t /\
     get_token (get_token st provide).1 provide'
     = ((get_token st provide).1, Some t)) /\
  ((get_token st provide).2 = None
   <-> bedrock_api_token st = None /\ provide = None) /\
  BEDROCK_TOKEN (get_token st provide).1 = BEDROCK_TOKEN st.
Proof.
  intros st'. split_and!.
  - intros t Ht. subst st'.
    destruct (_run_spec refresh_seconds attempts st) as [Hread _].
    unfold get_bedrock_token in Hread. unfold get_token.
    by rewrite Hread, Ht.
  - intros t. unfold get_token, get_bedrock_token.
    destruct (bedrock_api_token st) as [t0|] eqn:Hst.
    + simpl. intros [= <-]. by rewrite Hst.
    + destruct provide as [t1|]; simpl; [|done]. by intros [= <-].
  - unfold get_token.
    destruct (bedrock_api_token st) as [t0|]; [naive_solver|].
    destruct provide; naive_solver.
  - unfold get_token.
    destruct (bedrock_api_token st) as [t0|]; [done|].
    by destruct provide.
Qed.

End TokenStartupFacts.

(* ===================================================================== *)
(** ** core/models.py: the tasks of a configuration *)
(* ===================================================================== *)

Section HarvesterConfigFacts.

Import HarvesterConfig.

Variable T : Type.
Variable id : T -> string.
Variable type : T -> string.

Lemma size_list_to_set_le (l : list string) :
  size (list_to_set l : gset string) <= length l.
Proof.
  induction l as [|x l IH];
    [by rewrite list_to_set_nil, size_empty|].
  change (list_to_set (x :: l) : gset string)
    with ({[x]} ∪ list_to_set l : gset string).
  destruct (decide (x ∈ (list_to_set l : gset string))) as [Hin|Hnin].
  - assert ({[x]} ∪ list_to_set l = (list_to_set l : gset string)) as ->
      by set_solver.
    simpl. lia.
  - rewrite size_union by set_solver. rewrite size_singleton. simpl. lia.
Qed.

Lemma size_list_to_set_NoDup (l : list string) :
  length l = size (list_to_set l : gset string) <-> NoDup l.
Proof.
  split; [|intros H; by rewrite size_list_to_set].
  induction l as [|x l IH]; [constructor|].
  pose proof (size_list_to_set_le l) as Hle.
  change (list_to_set (x :: l) : gset string)
    with ({[x]} ∪ list_to_set l : gset string).
  destruct (decide (x ∈ (list_to_set l : gset string))) as [Hin|Hnin].
  - assert ({[x]} ∪ list_to_set l = (list_to_set l : gset string)) as ->
      by set_solver.
    simpl. lia.
  - rewrite size_union by set_solver. rewrite size_singleton. simpl.
    intros Hlen. constructor; [by rewrite elem_of_list_to_set in Hnin|].
    apply IH. lia.
Qed.

Lemma NoDup_or_repeated (l : list string) :
  NoDup l \/
  exists i j x, i < j /\ l !! i = Some x /\ l !! j = Some x.
Proof.
  induction l as [|x l IH]; [left; constructor|].
  destruct (decide (x ∈ l)) as [Hin|Hnin].
  - right. apply list_elem_of_lookup in Hin as (j & Hj).
    exists 0, (S j), x. split_and!; [lia|done|done].
  - destruct IH as [Hnd|(i & j & y & Hlt & Hi & Hj)].
    + left. by constructor.
    + right. exists (S i), (S j), y. split_and!; [lia|done|done].
Qed.

Lemma unique_ids_NoDup (tasks : list T) :
  validate_unique_task_ids T id tasks = Returned <-> NoDup (map id tasks).
Proof.
  unfold validate_unique_task_ids.
  rewrite <- size_list_to_set_NoDup.
  destruct (Nat.eqb_spec (length (map id tasks))
              (size (list_to_set (map id tasks) : gset string)));
    simpl; naive_solver.
Qed.

(** X23.  A configuration passes [validate_unique_task_ids] exactly when
    no two of its tasks have the same id; in particular the empty list and
    a single task pass, and a configuration that lists a task twice is
    rejected. *)
Theorem unique_task_ids_iff_NoDup (tasks : list T) :
  (validate_unique_task_ids T id tasks = Returned
   <-> NoDup (map id tasks)) /\
  (validate_unique_task_ids T id tasks = Raised ValidationError
   <-> exists i j t1 t2,
         i < j /\ tasks !! i = Some t1 /\ tasks !! j = Some t2 /\
         id t1 = id t2).
Proof.
  pose proof (unique_ids_NoDup tasks) as Hok.
  split; [exact Hok|].
  assert (validate_unique_task_ids T id tasks = Raised ValidationError
          <-> ~ NoDup (map id tasks)) as ->.
  { rewrite <- Hok. unfold validate_unique_task_ids.
    destruct (negb _); naive_solver. }
  split.
  - intros Hnot.
    destruct (NoDup_or_repeated (map id tasks))
      as [Hnd|(i & j & x & Hlt & Hi & Hj)]; [done|].
    rewrite list_lookup_fmap in Hi, Hj.
    destruct (tasks !! i) as [t1|] eqn:H1; [|done].
    destruct (tasks !! j) as [t2|] eqn:H2; [|done].
    simpl in *. simplify_eq. exists i, j, t1, t2.
    split_and!; [done..|congruence].
  - rewrite NoDup_alt. intros (i & j & t1 & t2 & Hlt & H1 & H2 & Heq) Hnd.
    assert (i = j); [|lia].
    apply (Hnd i j (id t1)); rewrite list_lookup_fmap.
    + by rewrite H1.
    + rewrite H2. simpl. by rewrite Heq.
Qed.

End HarvesterConfigFacts.

Section TaskLookupFacts.

Import HarvesterConfig.

Variable T : Type.
Variable id : T -> string.
Variable type : T -> string.



End TaskLookupFacts.

(* ===================================================================== *)
(** ** crawler.py: what [crawl_urls] writes, uploads and returns *)
(* ===================================================================== *)

Section CrawlRunFacts.

Import Crawler CrawlRun.

Local Ltac listed :=
  repeat first [apply list_elem_of_here | apply list_elem_of_further].

Local Ltac placed_rest :=
  split; [listed|]; split; [done|]; split; [done|]; reflexivity.

Local Ltac placed name :=
  exists name;
  first [ eexists (@nil output), _; placed_rest
        | eexists [_ : output], _; placed_rest
        | eexists [_ : output; _], _; placed_rest
        | eexists [_ : output; _; _], _; placed_rest
        | eexists [_ : output; _; _; _], _; placed_rest
        | eexists [_ : output; _; _; _; _], _; placed_rest ].

(** X25.  A crawl of a page that was fetched always writes at least one
    local file.  Every object it uploads is [article.json], [article.txt]
    or [article.pdf], under the key
    [{save_location}/{relative_path}/{name}], and is the copy of the local
    file of that name written just before it; [raw_extracted.txt] is never
    uploaded, and without a bucket name nothing is. *)
Theorem uploads_follow_local_files save_location today url store p outs :
  crawl_outputs save_location today url store p = Some outs ->
  success p = true /\
  (exists path, LocalFile path ∈ outs) /\
  (forall key, S3Object key ∈ outs ->
     s3_bucket_name store <> "" /\
     exists name pre post,
       name ∈ ["article.json"; "article.txt"; "article.pdf"] /\
       upload_ok store name = true /\
       key = save_location +:+ "/" +:+ relative_path today url
               +:+ "/" +:+ name /\
       outs = pre
                ++ LocalFile
                     (Pathlib.str
                        (Pathlib.joinpath
                           (save_dir save_location today url) name))
                :: S3Object key :: post).
Proof.
  unfold crawl_outputs, remote, local.
  set (rp := relative_path today url).
  set (sd := save_dir save_location today url).
  destruct (success p); simpl; [|done].
  destruct (String.eqb_spec (s3_bucket_name store) "") as [Hb|Hb];
    destruct (upload_ok store "article.json") eqn:Hj;
    destruct (upload_ok store "article.txt") eqn:Ht;
    destruct (upload_ok store "article.pdf") eqn:Hp;
    destruct (extracted p) as [| | |[|]]; destruct (pdf p);
    cbn [negb andb app completes]; intros [= <-];
    (split; [done|]);
    (split; [eexists; apply list_elem_of_here|]);
    intros key Hkey.
  all: decompose_list_elem_of; simplify_eq; (split; [done|]).
  all: first [placed "article.json" | placed "article.txt"
             | placed "article.pdf"].
Qed.

Lemma crawl_outputs_None save_location today url store p :
  crawl_outputs save_location today url store p = None
  <-> success p = false.
Proof. unfold crawl_outputs. destruct (success p); naive_solver. Qed.

Lemma crawl_urls_app save_location store pre post :
  Forall (fun j => success (job_page j) = true) pre ->
  crawl_urls save_location store (pre ++ post)
  = ((crawl_urls save_location store pre).1
       ++ (crawl_urls save_location store post).1,
     app (map (saved_path save_location) (reported pre))
       <$> (crawl_urls save_location store post).2) /\
  (crawl_urls save_location store pre).2
  = Some (map (saved_path save_location) (reported pre)).
Proof.
  induction pre as [|j pre IH]; intros Hall.
  { simpl. destruct (crawl_urls save_location store post) as [o [r|]];
      done. }
  apply Forall_cons in Hall as [Hj Hall]. destruct (IH Hall) as [IH1 IH2].
  cbn [crawl_urls app reported List.filter].
  destruct (crawl_outputs save_location (job_date j) (job_url j) store
              (job_page j)) as [outs|] eqn:Houts.
  2:{ apply crawl_outputs_None in Houts. congruence. }
  rewrite IH1. fold (reported pre).
  destruct (crawl_urls save_location store pre) as [o1 r1].
  destruct (crawl_urls save_location store post) as [o2 [r2|]];
    destruct (completes (extracted (job_page j)));
    simpl in *; subst; by rewrite ?app_assoc.
Qed.

(** X26.  [crawl_urls] returns normally exactly when every page was
    fetched, and it then returns, in order, the directories of the URLs
    whose extracted content was present: a fetched page without extracted
    content is left out of the result, so the result can be empty although
    every page was fetched.  When a page was not fetched it raises at the
    first such page: nothing is written for that URL or any later one, and
    what was written and uploaded for the URLs before it stays. *)
Theorem crawl_urls_stops_at_first_failure save_location store jobs :
  (Forall (fun j => success (job_page j) = true) jobs <->
   (crawl_urls save_location store jobs).2
   = Some (map (saved_path save_location) (reported jobs))) /\
  (forall paths, (crawl_urls save_location store jobs).2 = Some paths ->
     length paths <= length jobs /\
     (Forall (fun j => completes (extracted (job_page j)) = true) jobs ->
      length paths = length jobs)) /\
  (forall pre j post,
     jobs = pre ++ j :: post ->
     Forall (fun j => success (job_page j) = true) pre ->
     success (job_page j) = false ->
     (crawl_urls save_location store jobs).2 = None /\
     (crawl_urls save_location store jobs).1
     = (crawl_urls save_location store pre).1) /\
  (forall j,
     success (job_page j) = true -> extracted (job_page j) = Absent ->
     (crawl_urls save_location store [j]).2 = Some []).
Proof.
  assert (forall paths,
            (crawl_urls save_location store jobs).2 = Some paths ->
            Forall (fun j => success (job_page j) = true) jobs /\
            paths = map (saved_path save_location) (reported jobs)) as Hsome.
  { induction jobs as [|j jobs IH]; intros paths.
    { simpl. intros [= <-]. by split. }
    cbn [crawl_urls reported List.filter].
    destruct (crawl_outputs save_location (job_date j) (job_url j) store
                (job_page j)) as [outs|] eqn:Houts; [|done].
    destruct (crawl_urls save_location store jobs) as [o [r|]];
      simpl; [|done].
    intros [= <-]. destruct (IH r eq_refl) as [Hall ->].
    split.
    - apply Forall_cons. split; [|done].
      unfold crawl_outputs in Houts. by destruct (success (job_page j)).
    - fold (reported jobs).
      by destruct (completes (extracted (job_page j))). }
  split_and!.
  - split.
    + intros Hall.
      destruct (crawl_urls_app save_location store jobs [] Hall)
        as [_ Hr]. done.
    + intros Hr. by destruct (Hsome _ Hr).
  - intros paths Hr. destruct (Hsome _ Hr) as [_ ->].
    rewrite length_map. unfold reported. split.
    + clear. induction jobs as [|j jobs IH]; simpl; [done|].
      destruct (completes _); simpl; lia.
    + intros Hall. clear -Hall.
      induction jobs as [|j jobs IH]; simpl; [done|].
      apply Forall_cons in Hall as [-> Hall]. simpl. by rewrite IH.
  - intros pre j post -> Hpre Hj.
    destruct (crawl_urls_app save_location store pre (j :: post) Hpre)
      as [-> _].
    cbn [crawl_urls].
    assert (crawl_outputs save_location (job_date j) (job_url j) store
              (job_page j) = None) as -> by by apply crawl_outputs_None.
    simpl. by rewrite app_nil_r.
  - intros j Hs Hx. cbn [crawl_urls]. unfold crawl_outputs.
    rewrite Hs, Hx. reflexivity.
Qed.

End CrawlRunFacts.

Section HandlerVerdictFacts.

Import Crawler CrawlRun.

Variable valid_http_url : string -> bool.
Variable valid_bool : pyval -> bool.

Local Abbreviation PM := (process_message valid_http_url valid_bool).
Local Abbreviation accepted := (accepted valid_http_url valid_bool).

(** X27.  The crawl that the handler starts counts as a success exactly
    when the page was fetched and its extracted content was present; what
    could be parsed from the content or uploaded plays no part.  So a
    fresh crawl request whose page was fetched with content is deleted
    from the queue and never sent again, even when the content could not
    be parsed and the only thing kept is the local [raw_extracted.txt];
    whereas a page fetched without extracted content makes the handler
    fail, and a first such failure is retryable. *)
Theorem handler_verdict_of_crawl save_location store j seen msg e b k :
  handler_crawl_ok save_location store j
  = success (job_page j) && completes (extracted (job_page j)) /\
  (accepted msg b k -> py_get b "type" = PStr "crawl-single-url" ->
   k ∉ seen ->
   crawl_succeeds e = handler_crawl_ok save_location store j ->
   (success (job_page j) = true ->
    completes (extracted (job_page j)) = true ->
    effects (PM seen msg e)
    = [Dispatch k b; DeleteMessage (ReceiptHandle msg)]) /\
   (extracted (job_page j) = Absent ->
    b !! "retry_count" = None ->
    (handle_crawl_single_url valid_http_url valid_bool b
       (crawl_succeeds e)).2 = Raised RetryableError /\
    effects (PM seen msg e)
    = Dispatch k b
        :: (requeue msg
              (<["retry" := PBool true]> (<["retry_count" := PInt 1]> b))
              e).1)) /\
  (success (job_page j) = true ->
   extracted (job_page j) = Unparsable -> pdf (job_page j) = false ->
   (crawl_urls save_location store [j]).1
   = [LocalFile
        (Pathlib.str
           (Pathlib.joinpath
              (save_dir save_location (job_date j) (job_url j))
              "raw_extracted.txt"))]).
Proof.
  assert (handler_crawl_ok save_location store j
          = success (job_page j) && completes (extracted (job_page j)))
    as Hok.
  { unfold handler_crawl_ok. cbn [crawl_urls]. unfold crawl_outputs.
    destruct (success (job_page j)); [|done]. simpl.
    by destruct (completes (extracted (job_page j))). }
  split_and!; [done| |].
  - intros (Hb & Hv & Hk) Hty Hnew He.
    rewrite (process_message_fresh valid_http_url valid_bool
               seen msg e b k) by done.
    cbn [effects]. rewrite He, Hok. split.
    + intros -> ->. unfold handle_crawl_single_url. rewrite Hv.
      reflexivity.
    + intros -> Hrc. rewrite andb_false_r.
      rewrite handler_failure, Hrc. simpl. split; [done|].
      reflexivity.
  - intros Hs Hx Hp. cbn [crawl_urls]. unfold crawl_outputs.
    rewrite Hs, Hx, Hp. simpl. reflexivity.
Qed.

End HandlerVerdictFacts.

(* ===================================================================== *)
(** ** sqs_consumer.py: the number of messages in hand *)
(* ===================================================================== *)

Section ConsumerSlotsFacts.

Import ConsumerSlots.

Lemma slots_invariant concurrency s :
  reachable concurrency s -> handling s + permits s = concurrency.
Proof.
  induction 1 as [|s s' _ IH Hstep]; [reflexivity|].
  destruct Hstep as [s Hp | s i Hi]; unfold handling in *; simpl.
  - rewrite count_if_app. simpl. lia.
  - pose proof (count_if_insert is_Handling _ _ Ended _ Hi) as H.
    simpl in H. lia.
Qed.

(** X28.  At any time the number of messages being handled and the free
    permits of the consumer add up to [concurrency]: at most [concurrency]
    messages are in hand, and while that many are, the consumer starts no
    further message task; the only thing that can happen is that one of
    them ends. *)
Theorem messages_in_hand_are_bounded concurrency s :
  reachable concurrency s ->
  handling s + permits s = concurrency /\
  handling s <= concurrency /\
  (handling s = concurrency ->
   forall s', step s s' ->
     length (tasks s') = length (tasks s) /\
     handling s' + 1 = handling s).
Proof.
  intros Hr. pose proof (slots_invariant concurrency s Hr) as Hinv.
  split; [done|]. split; [lia|].
  intros Hfull s' Hstep.
  pose proof (slots_invariant concurrency s'
                (reachable_step concurrency s s' Hr Hstep)) as Hinv'.
  destruct Hstep as [s Hp | s i Hi]; simpl in *; [lia|].
  split; [by rewrite length_insert|lia].
Qed.

End ConsumerSlotsFacts.

(* ===================================================================== *)
(** ** The digest of a URL *)
(* ===================================================================== *)

Lemma string_of_list_ascii_app l1 l2 :
  string_of_list_ascii (l1 ++ l2)
  = string_of_list_ascii l1 +:+ string_of_list_ascii l2.
Proof. induction l1 as [|c l1 IH]; simpl; [done|by rewrite IH]. Qed.

Lemma string_of_list_ascii_length l :
  String.length (string_of_list_ascii l) = length l.
Proof. induction l as [|c l IH]; simpl; [done|by rewrite IH]. Qed.

(** X29.  The last eight characters of the digest of a string, which the
    crawler computes from the URL it is given to name the directory, and
    the scheduler from the link of a feed entry to end the id of its
    message, are always eight characters of digits and lower-case letters
    (so a single path component), and they are the end of the digest of 32
    characters of that same string, under which the scheduler files the
    marker of a link. *)
Theorem url_hash8_shape url :
  String.length (url_hash8 url) = 8 /\
  forallb alnum (list_ascii_of_string (url_hash8 url)) = true /\
  Pathlib.no_slash (url_hash8 url) = true /\
  String.length (MD5.hexdigest url) = 32 /\
  exists front,
    MD5.hexdigest url = front +:+ url_hash8 url /\
    String.length front = 24.
Proof.
  pose proof (url_hash8_plain url) as Hplain.
  apply andb_prop in Hplain as [_ Hns].
  destruct (hex_chars (MD5.digest (MD5.bytes_of_string url)))
    as [Hall Hlen].
  rewrite digest_length in Hlen.
  split; [apply url_hash8_length|].
  unfold url_hash8, last_chars in *. unfold MD5.hexdigest in *.
  rewrite !list_ascii_of_string_of_list_ascii in *.
  rewrite Hlen in *. split; [by apply forallb_skipn|]. split; [done|].
  split; [by rewrite string_of_list_ascii_length|].
  exists (string_of_list_ascii
            (firstn (2 * 16 - 8)
               (flat_map MD5.hex_of_byte
                  (MD5.digest (MD5.bytes_of_string url))))).
  split.
  - by rewrite <- string_of_list_ascii_app, firstn_skipn.
  - rewrite string_of_list_ascii_length, length_firstn, Hlen. reflexivity.
Qed.

(* ===================================================================== *)
(** ** The further properties at concrete inputs *)
(* ===================================================================== *)

(** [redelivery_is_deleted]: a message whose crawl failed is delivered
    again. *)
Lemma redelivery_is_deleted_witness :
  process_message http_url_ok lax_bool_ok
    (consumer_run http_url_ok lax_bool_ok
       (seen_after (process_message http_url_ok lax_bool_ok ∅
          (received "m1" "rh1" (envelope "x")) crawl_fails)) []).1
    (received "m1" "rh1" (envelope "x")) healthy
  = Outcome
      (consumer_run http_url_ok lax_bool_ok
         (seen_after (process_message http_url_ok lax_bool_ok ∅
            (received "m1" "rh1" (envelope "x")) crawl_fails)) []).1
      [DeleteMessage "rh1"] Returned.
Proof.
  apply (redelivery_is_deleted http_url_ok lax_bool_ok ∅
           (received "m1" "rh1" (envelope "x")) crawl_fails
           (envelope "x") (KStr "x") [] healthy).
  split; [reflexivity|]. split; [vm_compute; reflexivity|reflexivity].
Defined.

(** [non_numeric_retry_count_raises]: a failed crawl of an envelope whose
    [retry_count] is the string "one". *)
Lemma non_numeric_retry_count_raises_witness :
  process_message http_url_ok lax_bool_ok ∅
    (received "m1" "rh1" (<["retry_count" := PStr "one"]> (envelope "x")))
    crawl_fails
  = Outcome ({[KStr "x"]} ∪ ∅)
      [Dispatch (KStr "x")
         (<["retry_count" := PStr "one"]> (envelope "x"))]
      (Raised TypeError).
Proof.
  apply (non_numeric_retry_count_raises http_url_ok lax_bool_ok ∅
           (received "m1" "rh1"
              (<["retry_count" := PStr "one"]> (envelope "x")))
           crawl_fails
           (<["retry_count" := PStr "one"]> (envelope "x"))
           (KStr "x") (PStr "one")).
  - split; [reflexivity|]. split; [vm_compute; reflexivity|].
    vm_compute. reflexivity.
  - apply not_elem_of_empty.
  - vm_compute. reflexivity.
  - reflexivity.
  - vm_compute. reflexivity.
  - reflexivity.
Defined.

(** [batches_partition]: seven elements in batches of three. *)
Lemma batches_partition_witness :
  concat (Boto.batches 3 [1; 2; 3; 4; 5; 6; 7]) = [1; 2; 3; 4; 5; 6; 7] /\
  Forall (fun chunk => 1 <= length chunk <= 3)
         (Boto.batches 3 [1; 2; 3; 4; 5; 6; 7]) /\
  length (Boto.batches 3 [1; 2; 3; 4; 5; 6; 7])
  = (length [1; 2; 3; 4; 5; 6; 7] + 3 - 1) / 3 /\
  ([1; 2; 3; 4; 5; 6; 7] = [] -> Boto.batches 3 [1; 2; 3; 4; 5; 6; 7] = []).
Proof. apply (batches_partition 3 [1; 2; 3; 4; 5; 6; 7]). lia. Defined.

(** [refresh_leaves_headroom]: the default expiry of twelve hours. *)
Lemma refresh_leaves_headroom_witness :
  exists refresh_seconds,
    BedrockToken.REFRESH_SECONDS 43200 = Some refresh_seconds /\
    (0 <= refresh_seconds < 43200)%Z /\
    (43200 <= 6 * (43200 - refresh_seconds) < 43200 + 6)%Z.
Proof. apply (refresh_leaves_headroom 43200). lia. Defined.

(** [scheduled_message_is_handled_once]: two messages that the scheduler
    built for the same entry of a feed. *)
Lemma scheduled_message_is_handled_once_witness :
  CrawlRequest_validate http_url_ok lax_bool_ok
    (crawl_request (fun u => u) (feed_task "task" scenario_config)
       "task" "https://e.com/1") = true /\
  dispatched_keys
    (effects
       (process_message http_url_ok lax_bool_ok ∅
          (received "m1" "rh1"
             (crawl_request (fun u => u) (feed_task "task" scenario_config)
                "task" "https://e.com/1")) healthy))
  = [KStr ("task" +:+ "-" +:+ url_hash8 "https://e.com/1")] /\
  process_message http_url_ok lax_bool_ok
    (consumer_run http_url_ok lax_bool_ok
       (seen_after
          (process_message http_url_ok lax_bool_ok ∅
             (received "m1" "rh1"
                (crawl_request (fun u => u)
                   (feed_task "task" scenario_config)
                   "task" "https://e.com/1")) healthy)) []).1
    (received "m2" "rh2"
       (crawl_request (fun u => u) (feed_task "task" scenario_config)
          "task" "https://e.com/1")) healthy
  = Outcome
      (consumer_run http_url_ok lax_bool_ok
         (seen_after
            (process_message http_url_ok lax_bool_ok ∅
               (received "m1" "rh1"
                  (crawl_request (fun u => u)
                     (feed_task "task" scenario_config)
                     "task" "https://e.com/1")) healthy)) []).1
      [DeleteMessage "rh2"] Returned.
Proof.
  apply (scheduled_message_is_handled_once http_url_ok (fun u => u)
           lax_bool_ok (feed_task "task" scenario_config) "task"
           "https://e.com/1" ∅
           (received "m1" "rh1"
              (crawl_request (fun u => u) (feed_task "task" scenario_config)
                 "task" "https://e.com/1")) healthy []
           (received "m2" "rh2"
              (crawl_request (fun u => u) (feed_task "task" scenario_config)
                 "task" "https://e.com/1")) healthy).
  - vm_compute. reflexivity.
  - vm_compute. reflexivity.
  - reflexivity.
  - reflexivity.
  - apply not_elem_of_empty.
Defined.

(** [uploads_follow_local_files]: an article with a body, no PDF, every
    upload succeeding. *)
Lemma uploads_follow_local_files_witness :
  Crawler.success (Crawler.Page true (Crawler.Article true) false) = true /\
  (exists path,
     Crawler.LocalFile path
     ∈ [Crawler.LocalFile "crawled/x/2025/09/11/0f3b6902/article.json";
        Crawler.S3Object "crawled/x/2025/09/11/0f3b6902/article.json";
        Crawler.LocalFile "crawled/x/2025/09/11/0f3b6902/article.txt";
        Crawler.S3Object "crawled/x/2025/09/11/0f3b6902/article.txt"]) /\
  (forall key,
     Crawler.S3Object key
     ∈ [Crawler.LocalFile "crawled/x/2025/09/11/0f3b6902/article.json";
        Crawler.S3Object "crawled/x/2025/09/11/0f3b6902/article.json";
        Crawler.LocalFile "crawled/x/2025/09/11/0f3b6902/article.txt";
        Crawler.S3Object "crawled/x/2025/09/11/0f3b6902/article.txt"] ->
     Crawler.s3_bucket_name (Crawler.Storage "bucket" (fun _ => true))
       <> "" /\
     exists name pre post,
       name ∈ ["article.json"; "article.txt"; "article.pdf"] /\
       Crawler.upload_ok (Crawler.Storage "bucket" (fun _ => true)) name
         = true /\
       key = "crawled/x" +:+ "/"
               +:+ Crawler.relative_path (Crawler.Date 2025 9 11)
                     "https://e.com/1"
               +:+ "/" +:+ name /\
       [Crawler.LocalFile "crawled/x/2025/09/11/0f3b6902/article.json";
        Crawler.S3Object "crawled/x/2025/09/11/0f3b6902/article.json";
        Crawler.LocalFile "crawled/x/2025/09/11/0f3b6902/article.txt";
        Crawler.S3Object "crawled/x/2025/09/11/0f3b6902/article.txt"]
       = pre
           ++ Crawler.LocalFile
                (Pathlib.str
                   (Pathlib.joinpath
                      (Crawler.save_dir "crawled/x"
                         (Crawler.Date 2025 9 11) "https://e.com/1")
                      name))
           :: Crawler.S3Object key :: post).
Proof.
  apply (uploads_follow_local_files "crawled/x" (Crawler.Date 2025 9 11)
           "https://e.com/1" (Crawler.Storage "bucket" (fun _ => true))
           (Crawler.Page true (Crawler.Article true) false)).
  vm_compute. reflexivity.
Defined.

(** [marker_table_after_run]: a tracked run over a feed with one entry,
    starting from an empty table. *)
Lemma marker_table_after_run_witness :
  let t := feed_task "task" scenario_config in
  let r := tracked_cycle (Some ∅) t (Some [entry "https://e.com/1"])
             true reliable in
  let rows' := default ∅ r.1.1 in
  r.1.1 = Some rows' /\
  (forall k, k.1 <> RSSRun.run_id t ->
     rows' !! k = (∅ : gmap (string * string) string) !! k) /\
  (forall h u, rows' !! (RSSRun.run_id t, h) = Some u ->
     (∅ : gmap (string * string) string) !! (RSSRun.run_id t, h) = Some u \/
     (h = MD5.hexdigest u /\ Marked (RSSRun.run_id t) u ∈ r.1.2)) /\
  (forall u, Marked (RSSRun.run_id t) u ∈ r.1.2 ->
     (forall u', Marked (RSSRun.run_id t) u' ∈ r.1.2 ->
                 MD5.hexdigest u' = MD5.hexdigest u -> u' = u) ->
     rows' !! (RSSRun.run_id t, MD5.hexdigest u) = Some u).
Proof.
  intros t r rows'.
  assert (r.1.1 = Some rows') as Hrows
    by apply (tracked_run_keeps_table http_url_ok (fun u => u) lax_bool_ok
                (fun _ => None)).
  split; [exact Hrows|].
  exact (marker_table_after_run http_url_ok (fun u => u) lax_bool_ok
           (fun _ => None) (Some ∅) t (Some [entry "https://e.com/1"])
           true reliable rows' Hrows).
Defined.

(** [marked_url_is_not_sent_again]: the same feed in two consecutive
    tracked runs. *)
Lemma marked_url_is_not_sent_again_witness :
  let t := feed_task "task" scenario_config in
  let feed := Some [entry "https://e.com/1"] in
  let r1 := tracked_cycle (Some ∅) t feed true reliable in
  let rows1 := default ∅ r1.1.1 in
  Marked (RSSRun.run_id t) "https://e.com/1" ∈ r1.1.2 /\
  r1.1.1 = Some rows1 /\
  Forall (fun x =>
            match x with
            | Enqueued body _ =>
                exists u2,
                  u2 <> "https://e.com/1" /\
                  body = crawl_request (fun u => u) t (RSSRun.run_id t) u2
            | _ => True
            end)
         (tracked_cycle (Some rows1) t feed true reliable).1.2.
Proof.
  intros t feed r1 rows1.
  assert (r1.1.2
          = [Enqueued (crawl_request (fun u => u) t "task" "https://e.com/1")
                      (message_attributes_of t);
             Marked "task" "https://e.com/1"]) as Heffs
    by (vm_compute; reflexivity).
  assert (Marked (RSSRun.run_id t) "https://e.com/1" ∈ r1.1.2) as Hmarked.
  { rewrite Heffs. apply list_elem_of_further, list_elem_of_here. }
  assert (r1.1.1 = Some rows1) as Hrows
    by apply (tracked_run_keeps_table http_url_ok (fun u => u) lax_bool_ok
                (fun _ => None)).
  split; [exact Hmarked|]. split; [exact Hrows|].
  apply (marked_url_is_not_sent_again http_url_ok (fun u => u) lax_bool_ok
           (fun _ => None) (Some ∅) t feed true reliable
           "https://e.com/1" rows1 rows1 t feed reliable Hmarked).
  - intros u' Hin _. change (Marked "task" u' ∈ r1.1.2) in Hin.
    rewrite Heffs in Hin.
    apply elem_of_cons in Hin as [Hin|Hin]; [discriminate Hin|].
    apply list_elem_of_singleton in Hin. by injection Hin as <-.
  - exact Hrows.
  - reflexivity.
  - reflexivity.
Defined.

(** [messages_in_hand_are_bounded]: two slots, both taken. *)
Lemma messages_in_hand_are_bounded_witness :
  ConsumerSlots.handling
    (ConsumerSlots.SlotState 0
       [ConsumerSlots.Handling; ConsumerSlots.Handling])
  + ConsumerSlots.permits
      (ConsumerSlots.SlotState 0
         [ConsumerSlots.Handling; ConsumerSlots.Handling]) = 2 /\
  ConsumerSlots.handling
    (ConsumerSlots.SlotState 0
       [ConsumerSlots.Handling; ConsumerSlots.Handling]) <= 2 /\
  (ConsumerSlots.handling
     (ConsumerSlots.SlotState 0
        [ConsumerSlots.Handling; ConsumerSlots.Handling]) = 2 ->
   forall s',
     ConsumerSlots.step
       (ConsumerSlots.SlotState 0
          [ConsumerSlots.Handling; ConsumerSlots.Handling]) s' ->
     length (ConsumerSlots.tasks s')
     = length (ConsumerSlots.tasks
                 (ConsumerSlots.SlotState 0
                    [ConsumerSlots.Handling; ConsumerSlots.Handling])) /\
     ConsumerSlots.handling s' + 1
     = ConsumerSlots.handling
         (ConsumerSlots.SlotState 0
            [ConsumerSlots.Handling; ConsumerSlots.Handling])).
Proof.
  apply (messages_in_hand_are_bounded 2
           (ConsumerSlots.SlotState 0
              [ConsumerSlots.Handling; ConsumerSlots.Handling])).
  apply (ConsumerSlots.reachable_step 2
           (ConsumerSlots.SlotState 1 [ConsumerSlots.Handling]));
    [|exact (ConsumerSlots.step_dispatch
               (ConsumerSlots.SlotState 1 [ConsumerSlots.Handling])
               (Nat.lt_0_succ 0))].
  apply (ConsumerSlots.reachable_step 2 (ConsumerSlots.initial 2));
    [|exact (ConsumerSlots.step_dispatch (ConsumerSlots.initial 2)
               (Nat.lt_0_succ 1))].
  apply ConsumerSlots.reachable_initial.
Defined.
